(** * Lease-run aggregation scripts: a shallow embedding and its properties

    The repository holds three Python scripts built around one pandas
    pipeline: trim the column labels, group the rows of a sheet by a parcel
    identifier, join the distinct names and acreages of every group, rename
    the columns and write the table out.  The ArcGIS variant
    ([input_folder/To_Run_In_ArcGIS.py]) adds sheet and column detection,
    default columns, a join onto a shapefile and a batch loop.

    Modelling conventions.
    - A cell is [NaN] (pandas' missing value), a Python [str], an integer or
      a float.  A float is given by the shortest decimal that denotes it,
      [Flt m e] for m * 10^e with m not a multiple of ten (zero is
      [Flt 0 0]): these are the digits that [str] prints.  As in a frame read
      from a sheet, the numbers of a column that is numeric and has a blank or
      a fraction are all floats, so that one value never occurs in a column
      both as an integer and as a float.
    - Strings are sequences of code points below 256.
    - A frame is its list of column labels and its list of rows; a row that is
      shorter than the header reads as [NaN] in the missing cells.  A label is
      looked up at its first occurrence: frames in which trimming makes two
      labels collide are outside the model.
    - The pandas operations used by the scripts ([Index.str.strip], [dropna],
      [unique], [groupby(..., dropna=False)] with its default [sort=True],
      [agg], [reset_index], [rename]) are transcribed as list functions.
    - Calls into the host (arcpy, the file system) are recorded in a log of
      events; the host operations themselves are the fields of a class.  A
      world holds the spreadsheet files, which [to_excel] creates or
      overwrites, the state of the geoprocessing host and the log.  What the
      reader finds in a file written by [to_excel], which paths cannot be
      written and which directories cannot be created are given by the
      host. *)

From Stdlib Require Import String Ascii List ZArith Bool Arith Lia.
From Stdlib Require Import Sorting.Sorted Sorting.Permutation.
From Stdlib Require Import DecimalString.
From Stdlib Require OrderedTypeEx.
From Stdlib Require QArith.
Import ListNotations.

Open Scope string_scope.
Open Scope list_scope.

Infix "+++" := String.append (right associativity, at level 60).

(** ** Cells *)

Inductive value : Type :=
| NaN
| Str (s : string)
| Num (n : Z)
| Flt (m e : Z).

Definition value_eqb (a b : value) : bool :=
  match a, b with
  | NaN, NaN => true
  | Str s, Str t => String.eqb s t
  | Num x, Num y => Z.eqb x y
  | Flt m e, Flt m' e' => Z.eqb m m' && Z.eqb e e'
  | _, _ => false
  end.

Definition value_eq_dec (a b : value) : {a = b} + {a <> b}.
Proof.
  decide equality; try apply string_dec; apply Z.eq_dec.
Defined.

(** [pd.isna] on a scalar. *)
Definition isna (v : value) : bool :=
  match v with NaN => true | _ => false end.

Fixpoint zeros (n : nat) : string :=
  match n with
  | O => EmptyString
  | S k => String "0" (zeros k)
  end.

(** The decimal digits of a natural number. *)
Definition digits (n : Z) : string := NilEmpty.string_of_int (Z.to_int (Z.abs n)).

(** Python's [str] of the float m * 10^e whose shortest digits are those of
    [m]: exponent notation when the decimal point is more than 16 places to
    the right of the first digit or more than 3 zeros to its left, fixed
    notation with at least one digit after the point otherwise. *)
Definition float_str (m e : Z) : string :=
  if Z.eqb m 0 then "0.0"
  else
    let ds := digits m in
    let n := Z.of_nat (String.length ds) in
    let decpt := (n + e)%Z in
    (if Z.ltb m 0 then "-" else "") +++
    (if Z.leb decpt (-4) || Z.ltb 16 decpt then
       String.substring 0 1 ds
       +++ (if Z.ltb 1 n then "." +++ String.substring 1 (String.length ds - 1) ds else "")
       +++ "e" +++ (if Z.ltb (decpt - 1) 0 then "-" else "+")
       +++ (if Z.ltb (Z.abs (decpt - 1)) 10 then "0" else "") +++ digits (decpt - 1)
     else if Z.leb decpt 0 then
       "0." +++ zeros (Z.to_nat (- decpt)) +++ ds
     else if Z.leb n decpt then
       ds +++ zeros (Z.to_nat (decpt - n)) +++ ".0"
     else
       String.substring 0 (Z.to_nat decpt) ds +++ "."
       +++ String.substring (Z.to_nat decpt) (Z.to_nat (n - decpt)) ds).

(** Python's [str(v)] for a non-missing cell. *)
Definition py_str (v : value) : string :=
  match v with
  | NaN => "nan"
  | Str s => s
  | Num n => NilEmpty.string_of_int (Z.to_int n)
  | Flt m e => float_str m e
  end.

(** ** Exceptions and results *)

Inductive exn : Type :=
| KeyError (labels : list string)
| TypeError (position : nat)
| ValueError (what : string)
| FileError (path : string)
| ExecuteError (tool : string).

Inductive outcome (A : Type) : Type :=
| Ok (a : A)
| Raise (e : exn).

Arguments Ok {A} a.
Arguments Raise {A} e.

Definition is_raise {A : Type} (r : outcome A) : bool :=
  match r with Ok _ => false | Raise _ => true end.

(** ** Python string operations *)

(** [str.isspace] on one code point below 256. *)
Definition is_space (c : ascii) : bool :=
  let n := nat_of_ascii c in
  (Nat.leb 9 n && Nat.leb n 13) || (Nat.leb 28 n && Nat.leb n 32)
  || Nat.eqb n 133 || Nat.eqb n 160.

Fixpoint lstrip (s : string) : string :=
  match s with
  | EmptyString => EmptyString
  | String c t => if is_space c then lstrip t else s
  end.

Fixpoint rstrip (s : string) : string :=
  match s with
  | EmptyString => EmptyString
  | String c t =>
      match rstrip t with
      | EmptyString => if is_space c then EmptyString else String c EmptyString
      | t' => String c t'
      end
  end.

(** [str.strip()]. *)
Definition strip (s : string) : string := rstrip (lstrip s).

(** The items of a sequence when all of them are [str]; otherwise the
    position of the first one that is not. *)
Fixpoint expect_strs (pos : nat) (items : list value) : nat + list string :=
  match items with
  | [] => inr []
  | Str s :: rest =>
      match expect_strs (S pos) rest with
      | inr ss => inr (s :: ss)
      | inl p => inl p
      end
  | _ :: _ => inl pos
  end.

(** [sep.join(items)]: a [TypeError] when an item is not a [str]. *)
Definition str_join (sep : string) (items : list value) : outcome string :=
  match expect_strs 0 items with
  | inr ss => Ok (String.concat sep ss)
  | inl p => Raise (TypeError p)
  end.

(** ** pandas: Series operations *)

(** [Series.dropna()]. *)
Definition dropna (x : list value) : list value :=
  filter (fun v => negb (isna v)) x.

(** One step of the hash-table scan behind [unique]: a value that is not in
    the table yet is appended to the result. *)
Definition unique_step (uniques : list value) (v : value) : list value :=
  if existsb (value_eqb v) uniques then uniques else v :: uniques.

(** [Series.unique()]: the distinct values, in order of appearance. *)
Definition unique (x : list value) : list value :=
  rev (fold_left unique_step x []).

(** The number m * 10^e. *)
Definition number (m e : Z) : QArith_base.Q :=
  QArith_base.Qmult (QArith_base.inject_Z m)
                    (QArith_base.Qpower (QArith_base.inject_Z 10) e).

(** A numeric cell as (is a float, exponent, digits). *)
Definition as_number (v : value) : option (bool * Z * Z) :=
  match v with
  | Num n => Some (false, 0%Z, n)
  | Flt m e => Some (true, e, m)
  | _ => None
  end.

(** The order of numeric cells: by the number; two cells for one number,
    which do not meet in a column, are told apart by their form. *)
Definition form_leb (x y : bool * Z * Z) : bool :=
  let '(f1, e1, m1) := x in
  let '(f2, e2, m2) := y in
  if Bool.eqb f1 f2 then
    if Z.eqb e1 e2 then Z.leb m1 m2 else Z.ltb e1 e2
  else negb f1.

Definition number_leb (x y : bool * Z * Z) : bool :=
  let '(_, e1, m1) := x in
  let '(_, e2, m2) := y in
  match QArith_base.Qcompare (number m1 e1) (number m2 e2) with
  | Lt => true
  | Eq => form_leb x y
  | Gt => false
  end.

(** The order of [sort=True] on group keys: numbers, then strings, then the
    missing key. *)
Definition value_leb (a b : value) : bool :=
  match as_number a, as_number b with
  | Some x, Some y => number_leb x y
  | Some _, None => true
  | None, Some _ => false
  | None, None =>
      match a, b with
      | Str s, Str t => String.leb s t
      | Str _, _ => true
      | _, Str _ => false
      | _, _ => true
      end
  end.

Fixpoint insert_key (k : value) (l : list value) : list value :=
  match l with
  | [] => [k]
  | h :: t => if value_leb k h then k :: l else h :: insert_key k t
  end.

Definition sort_keys (l : list value) : list value :=
  fold_right insert_key [] l.

(** ** pandas: frames *)

Record DataFrame : Type := mkFrame {
  columns : list string;
  rows : list (list value)
}.

(** [Index.get_loc]: position of a label. *)
Fixpoint get_loc (label : string) (labels : list string) : option nat :=
  match labels with
  | [] => None
  | l :: rest =>
      if String.eqb label l then Some 0
      else option_map S (get_loc label rest)
  end.

(** [label in data.columns]. *)
Definition has_column (label : string) (data : DataFrame) : bool :=
  existsb (String.eqb label) (columns data).

Definition cell (j : nat) (r : list value) : value := nth j r NaN.

(** A row cut or padded to the width of the header. *)
Definition fit (width : nat) (r : list value) : list value :=
  firstn width (r ++ repeat NaN width).

(** [data.columns = data.columns.str.strip()]. *)
Definition strip_columns (data : DataFrame) : DataFrame :=
  mkFrame (map strip (columns data)) (rows data).

(** [data[label] = v] for a label that is not in the frame: a new last
    column holding [v] in every row. *)
Definition assign (label : string) (v : value) (data : DataFrame) : DataFrame :=
  mkFrame (columns data ++ [label])
          (map (fun r => fit (length (columns data)) r ++ [v]) (rows data)).

(** [DataFrame.rename(columns=mapping)]. *)
Fixpoint renamed (mapping : list (string * string)) (label : string) : string :=
  match mapping with
  | [] => label
  | (old, new) :: rest => if String.eqb label old then new else renamed rest label
  end.

Definition rename (mapping : list (string * string)) (data : DataFrame) : DataFrame :=
  mkFrame (map (renamed mapping) (columns data)) (rows data).

(** ** The aggregation (the [groupby(...).agg({...}).reset_index()] expression) *)

(** [lambda x: ';'.join(x.dropna().unique())]. *)
Definition agg_name (x : list value) : outcome string :=
  str_join ";" (unique (dropna x)).

(** [lambda x: ','.join(map(str, x.dropna().unique()))]. *)
Definition agg_acres (x : list value) : string :=
  String.concat "," (map py_str (unique (dropna x))).

(** The rows of one group: those whose key cell equals [k]; with
    [dropna=False] the missing key is a key like any other. *)
Definition group_rows (jg : nat) (k : value) (rs : list (list value)) : list (list value) :=
  filter (fun r => value_eqb (cell jg r) k) rs.

(** The group keys: distinct key cells, sorted ([sort=True] is the default). *)
Definition group_keys (jg : nat) (rs : list (list value)) : list value :=
  sort_keys (unique (map (cell jg) rs)).

Definition agg_row (jg jn ja jr : nat) (rs : list (list value)) (k : value)
  : outcome (list value) :=
  let g := group_rows jg k rs in
  match agg_name (map (cell jn) g) with
  | Raise e => Raise e
  | Ok names =>
      Ok [k; Str names; Str (agg_acres (map (cell ja) g)); Str (agg_acres (map (cell jr) g))]
  end.

Fixpoint agg_rows (jg jn ja jr : nat) (rs : list (list value)) (keys : list value)
  : outcome (list (list value)) :=
  match keys with
  | [] => Ok []
  | k :: rest =>
      match agg_row jg jn ja jr rs k with
      | Raise e => Raise e
      | Ok r =>
          match agg_rows jg jn ja jr rs rest with
          | Raise e => Raise e
          | Ok out => Ok (r :: out)
          end
      end
  end.

Definition agg_labels : list string := ["Name"; "Acres in Unit"; "Gross acres"].

(** The labels that [agg] reports as absent: it lists them in sorted
    order. *)
Definition absent_labels (data : DataFrame) : list string :=
  filter (fun l => negb (has_column l data)) ["Acres in Unit"; "Gross acres"; "Name"].

(** [data.groupby([group_column], dropna=False).agg({'Name': ..., 'Acres in
    Unit': ..., 'Gross acres': ...}).reset_index()].

    When [group_column] is not a label of the frame, [groupby] raises,
    except on a frame of one row: a key list as long as the frame that does
    not name columns is taken as the array of the keys, so the one row is
    grouped under the text of [group_column] itself, and [reset_index] calls
    the unnamed key column [index]. *)
Definition groupby_agg (group_column : string) (data : DataFrame) : outcome DataFrame :=
  match get_loc group_column (columns data) with
  | Some jg =>
      match get_loc "Name" (columns data),
            get_loc "Acres in Unit" (columns data),
            get_loc "Gross acres" (columns data) with
      | Some jn, Some ja, Some jr =>
          match agg_rows jg jn ja jr (rows data) (group_keys jg (rows data)) with
          | Raise e => Raise e
          | Ok out => Ok (mkFrame (group_column :: agg_labels) out)
          end
      | _, _, _ => Raise (KeyError (absent_labels data))
      end
  | None =>
      match rows data with
      | [r] =>
          match get_loc "Name" (columns data),
                get_loc "Acres in Unit" (columns data),
                get_loc "Gross acres" (columns data) with
          | Some jn, Some ja, Some jr =>
              match agg_name [cell jn r] with
              | Raise e => Raise e
              | Ok names =>
                  Ok (mkFrame ("index" :: agg_labels)
                        [[Str group_column; Str names;
                          Str (agg_acres [cell ja r]); Str (agg_acres [cell jr r])]])
              end
          | _, _, _ => Raise (KeyError (absent_labels data))
          end
      | _ => Raise (KeyError [group_column])
      end
  end.

Definition output_names : list (string * string) :=
  [("Name", "Names"); ("Acres in Unit", "Acres in Unit"); ("Gross acres", "Gross Acres")].

(** The table that [aggregate_data] hands to [to_excel]: aggregation followed
    by the renaming of its columns. *)
Definition aggregated_data (group_column : string) (data : DataFrame) : outcome DataFrame :=
  match groupby_agg group_column data with
  | Raise e => Raise e
  | Ok out => Ok (rename output_names out)
  end.

Definition spec_example : DataFrame :=
  mkFrame ["Tax Map Parcel ID"; "Name"; "Acres in Unit"; "Gross acres"]
    [ [Str "A1"; Str "Smith"; Str "10"; Flt 4 1];
      [Str "A1"; Str "Smith"; Str "10"; Flt 4 1];
      [Str "A1"; Str "Jones"; Str "5"; NaN] ].

(** ** The host: file system, message channels and geoprocessing tools *)

Definition workbook : Type := list (string * DataFrame).

(** [xl.sheet_names]. *)
Definition sheet_names (xl : workbook) : list string := map fst xl.

Fixpoint find_sheet (name : string) (xl : workbook) : option DataFrame :=
  match xl with
  | [] => None
  | (n, data) :: rest => if String.eqb name n then Some data else find_sheet name rest
  end.

(** The [if 'Mapping' in ... elif 'Lead List' in ... else] chain of
    [aggregate_data]; [None] is its [else] branch. *)
Definition choose_sheet (names : list string) : option string :=
  if existsb (String.eqb "Mapping") names then Some "Mapping"
  else if existsb (String.eqb "Lead List") names then Some "Lead List"
  else None.

(** The [if 'Tax Map Parcel ID' in ... elif 'TPIN' in ... else] chain. *)
Definition choose_group_column (data : DataFrame) : option string :=
  if has_column "Tax Map Parcel ID" data then Some "Tax Map Parcel ID"
  else if has_column "TPIN" data then Some "TPIN"
  else None.

(** What the scripts do to the outside, in the order they do it. *)
Inductive event : Type :=
| Print (text : string)
| AddMessage (text : string)
| AddWarning (text : string)
| AddError (text : string)
| ToExcel (path : string) (table : DataFrame)
| Makedirs (path : string)
| CallExcelToTable (excel_file table : string)
| CallAddJoin (layer field table table_field : string)
| CallListFields (layer : string)
| CallCopyFeatures (layer output : string).

Record parameters : Type := mkParameters {
  workspace : string;
  shapefile : string;
  output_directory : string;
  output_layer : string;
  group_column : string
}.

Section Scripts.

(** The state of the geoprocessing host (layers, joins, tables). *)
Variable G : Type.

Record world : Type := mkWorld {
  disk : string -> option workbook;
  arc : G;
  log : list event
}.

(** The tools of the host, the path functions of the standard library and
    the file system: the directories that cannot be created, the paths that
    cannot be written, and the table that a reader finds in a file in which
    a table was written.  A tool answers [None] when it raises. *)
Class Host : Type := {
  ExcelToTable : string -> string -> world -> option G;
  AddJoin : string -> string -> string -> string -> world -> option G;
  ListFields : string -> world -> option (list string);
  CopyFeatures : string -> string -> world -> option G;
  splitext_root : string -> string;
  basename : string -> string;
  path_join : string -> string -> string;
  exn_text : exn -> string;
  makedirs_fails : string -> bool;
  read_only : string -> bool;
  as_read : DataFrame -> DataFrame
}.

Context {host : Host}.

(** *** State and exceptions *)

Definition M (A : Type) : Type := world -> outcome A * world.

Definition ret {A : Type} (a : A) : M A := fun w => (Ok a, w).

Definition bind {A B : Type} (m : M A) (k : A -> M B) : M B :=
  fun w =>
    match m w with
    | (Ok a, w') => k a w'
    | (Raise e, w') => (Raise e, w')
    end.

Definition raise {A : Type} (e : exn) : M A := fun w => (Raise e, w).

Definition lift {A : Type} (r : outcome A) : M A := fun w => (r, w).

(** [try: body  except Exception as e: handler(e)]. *)
Definition try_except {A : Type} (body : M A) (handler : exn -> M A) : M A :=
  fun w =>
    match body w with
    | (Ok a, w') => (Ok a, w')
    | (Raise e, w') => handler e w'
    end.

Notation "x <- m ;; k" := (bind m (fun x => k))
  (at level 61, m at next level, right associativity).
Notation "m ;; k" := (bind m (fun _ => k))
  (at level 61, right associativity).

Definition emit (e : event) : M unit :=
  fun w => (Ok tt, mkWorld (disk w) (arc w) (log w ++ [e])).

(** A call of a tool that changes the host: the call is logged, then the tool
    runs on the world it finds. *)
Definition tool (call : event) (name : string) (run : world -> option G) : M unit :=
  fun w =>
    let w1 := mkWorld (disk w) (arc w) (log w ++ [call]) in
    match run w1 with
    | Some g => (Ok tt, mkWorld (disk w1) g (log w1))
    | None => (Raise (ExecuteError name), w1)
    end.

(** [pd.ExcelFile(path)]. *)
Definition ExcelFile (path : string) : M workbook :=
  fun w =>
    match disk w path with
    | Some xl => (Ok xl, w)
    | None => (Raise (FileError path), w)
    end.

(** [xl.parse(sheet_name)]. *)
Definition parse (xl : workbook) (sheet_name : string) : M DataFrame :=
  match find_sheet sheet_name xl with
  | Some data => ret data
  | None => raise (ValueError sheet_name)
  end.

(** [pd.read_excel(path, sheet_name=sheet_name)]. *)
Definition read_excel (path sheet_name : string) : M DataFrame :=
  xl <- ExcelFile path ;;
  parse xl sheet_name.

(** The files after [path] has been written with one sheet, [Sheet1]. *)
Definition put (path : string) (xl : workbook) (files : string -> option workbook)
  : string -> option workbook :=
  fun p => if String.eqb p path then Some xl else files p.

(** [table.to_excel(path, index=False)]: raises on a path that cannot be
    written; otherwise the file holds the table, as the reader will find it,
    in a sheet [Sheet1]. *)
Definition to_excel (table : DataFrame) (path : string) : M unit :=
  fun w =>
    if read_only path then (Raise (FileError path), w)
    else (Ok tt,
          mkWorld (put path [("Sheet1", as_read table)] (disk w)) (arc w)
                  (log w ++ [ToExcel path table])).

(** [os.makedirs(path, exist_ok=True)]. *)
Definition makedirs (path : string) : M unit :=
  fun w =>
    if makedirs_fails path then (Raise (FileError path), w)
    else emit (Makedirs path) w.

(** [for x in xs: body(x)]. *)
Fixpoint for_each {A : Type} (xs : list A) (body : A -> M unit) : M unit :=
  match xs with
  | [] => ret tt
  | x :: rest => body x ;; for_each rest body
  end.

(** *** aggregate_tax_Map_Parcel_ID_GA_AIU_Names - Copy.py (and - Updated.py) *)

Definition aggregate_data_copy (input_file output_file sheet_name : string) : M unit :=
  emit (Print ("Loading data from " +++ input_file +++ "...")) ;;
  data <- read_excel input_file sheet_name ;;
  let data := strip_columns data in
  emit (Print "Aggregating data...") ;;
  aggregated_data <- lift (groupby_agg "Tax Map Parcel ID" data) ;;
  let aggregated_data := rename output_names aggregated_data in
  emit (Print ("Saving aggregated data to " +++ output_file +++ "...")) ;;
  to_excel aggregated_data output_file ;;
  emit (Print ("Aggregation complete for " +++ input_file +++ "!")).

(** *** input_folder/To_Run_In_ArcGIS.py *)

Definition aggregate_data (input_file output_file : string) : M unit :=
  emit (AddMessage ("Loading sheet names from " +++ input_file +++ "...")) ;;
  xl <- ExcelFile input_file ;;
  match choose_sheet (sheet_names xl) with
  | None =>
      emit (AddError ("Neither 'Mapping' nor 'Lead List' sheet is present in "
                      +++ input_file +++ "."))
  | Some sheet_name =>
      emit (AddMessage ("Using '" +++ sheet_name +++ "' sheet for processing.")) ;;
      data <- parse xl sheet_name ;;
      let data := strip_columns data in
      match choose_group_column data with
      | None =>
          emit (AddError ("Neither 'Tax Map Parcel ID' nor 'TPIN' column is present in "
                          +++ input_file +++ "."))
      | Some group_column =>
          emit (AddMessage ("Using '" +++ group_column +++ "' as the grouping column.")) ;;
          data <- (if negb (has_column "Acres in Unit" data)
                   then emit (AddWarning ("'Acres in Unit' column is missing in "
                                          +++ input_file +++ ". Filling with empty strings.")) ;;
                        ret (assign "Acres in Unit" (Str "") data)
                   else ret data) ;;
          data <- (if negb (has_column "Gross acres" data)
                   then emit (AddWarning ("'Gross acres' column is missing in "
                                          +++ input_file +++ ". Filling with empty strings.")) ;;
                        ret (assign "Gross acres" (Str "") data)
                   else ret data) ;;
          emit (AddMessage "Aggregating data...") ;;
          aggregated_data <- lift (groupby_agg group_column data) ;;
          let aggregated_data := rename output_names aggregated_data in
          emit (AddMessage ("Saving aggregated data to " +++ output_file +++ "...")) ;;
          to_excel aggregated_data output_file ;;
          emit (AddMessage ("Aggregation complete for " +++ input_file +++ "!"))
      end
  end.

Definition required_fields : list string := ["Names"; "Acres in Unit"; "Gross Acres"].

(** [[field for field in required_fields if field not in joined_fields]]. *)
Definition missing_fields (joined_fields : list string) : list string :=
  filter (fun field => negb (existsb (String.eqb field) joined_fields)) required_fields.

Definition list_fields (layer : string) : M (list string) :=
  fun w =>
    let w1 := mkWorld (disk w) (arc w) (log w ++ [CallListFields layer]) in
    match ListFields layer w1 with
    | Some fields => (Ok fields, w1)
    | None => (Raise (ExecuteError "ListFields"), w1)
    end.

Definition join_to_shapefile (shapefile excel_file group_column output_layer : string)
  : M unit :=
  emit (AddMessage ("Joining data from " +++ excel_file +++ " to " +++ shapefile +++ "...")) ;;
  let excel_table := splitext_root excel_file +++ ".dbf" in
  tool (CallExcelToTable excel_file excel_table) "ExcelToTable"
       (ExcelToTable excel_file excel_table) ;;
  tool (CallAddJoin shapefile group_column excel_table group_column) "AddJoin"
       (AddJoin shapefile group_column excel_table group_column) ;;
  emit (AddMessage "Join operation completed.") ;;
  joined_fields <- list_fields shapefile ;;
  match missing_fields joined_fields with
  | (_ :: _) as missing =>
      emit (AddError ("Join validation failed. Missing fields: "
                      +++ String.concat ", " missing +++ "."))
  | [] =>
      emit (AddMessage ("Join validation passed. Exporting to " +++ output_layer +++ "...")) ;;
      tool (CallCopyFeatures shapefile output_layer) "CopyFeatures"
           (CopyFeatures shapefile output_layer) ;;
      emit (AddMessage ("Joined data saved to " +++ output_layer +++ "."))
  end.

(** The body of the batch loop, for one input file. *)
Definition process (p : parameters) (input_file : string) : M unit :=
  let file_name := basename input_file in
  let output_file := path_join (output_directory p) ("aggregated_" +++ file_name) in
  try_except
    (aggregate_data input_file output_file ;;
     join_to_shapefile (shapefile p) output_file (group_column p) (output_layer p))
    (fun e => emit (AddError ("Error processing " +++ input_file +++ ": " +++ exn_text e))).

(** The script body; [input_files] is what [glob] found in the workspace. *)
Definition main (p : parameters) (input_files : list string) : M unit :=
  makedirs (output_directory p) ;;
  match input_files with
  | [] => emit (AddError "No Excel files found in the input directory.")
  | _ :: _ => for_each input_files (process p)
  end.

End Scripts.

Arguments mkWorld {G} disk arc log.
Arguments disk {G} w path.
Arguments arc {G} w.
Arguments log {G} w.
Arguments aggregate_data {G host} input_file output_file w.
Arguments aggregate_data_copy {G host} input_file output_file sheet_name w.
Arguments join_to_shapefile {G host} shapefile excel_file group_column output_layer w.
Arguments process {G host} p input_file w.
Arguments main {G host} p input_files w.
Arguments for_each {G A} xs body w.
Arguments ExcelToTable {G Host} excel_file table w.
Arguments AddJoin {G Host} layer field table table_field w.
Arguments ListFields {G Host} layer w.
Arguments CopyFeatures {G Host} layer output w.
Arguments splitext_root {G Host} path.
Arguments basename {G Host} path.
Arguments path_join {G Host} directory name.
Arguments exn_text {G Host} e.
Arguments makedirs_fails {G Host} path.
Arguments read_only {G Host} path.
Arguments as_read {G Host} table.
Arguments makedirs {G host} path w.
Arguments raise {G A} e w.
Arguments emit {G} e w.
Arguments try_except {G A} body handler w.
Arguments bind {G A B} m k w.
Arguments ret {G A} a w.
Arguments lift {G A} r w.
Arguments tool {G} call name run w.
Arguments list_fields {G host} layer w.
Arguments ExcelFile {G} path w.
Arguments parse {G} xl sheet_name w.
Arguments read_excel {G} path sheet_name w.
Arguments to_excel {G host} table path w.

(** ** Notions used to state the properties *)

(** [data[label]]: the cells of a column, top to bottom. *)
Definition column_values (label : string) (data : DataFrame) : list value :=
  match get_loc label (columns data) with
  | Some j => map (cell j) (rows data)
  | None => []
  end.

(** The values of [x] kept at the positions where they occur for the first
    time. *)
Definition first_seen (x : list value) : list value :=
  map snd
    (filter (fun iv => negb (existsb (value_eqb (snd iv)) (firstn (fst iv) x)))
            (combine (seq 0 (length x)) x)).

(** The cells of column [label] in the rows whose identifier is [k]. *)
Definition group_values (g : string) (k : value) (label : string) (data : DataFrame)
  : list value :=
  map snd
    (filter (fun kv => if value_eq_dec (fst kv) k then true else false)
            (combine (column_values g data) (column_values label data))).

(** Drop the missing values, keep each remaining value once in first-seen
    order, join the texts with [sep]. *)
Definition joined_distinct (sep : string) (x : list value) : string :=
  String.concat sep (map py_str (first_seen (remove value_eq_dec NaN x))).

(** A name cell that is missing or a [str]. *)
Definition name_ok (v : value) : bool :=
  match v with Num _ | Flt _ _ => false | _ => true end.

Definition value_le (a b : value) : Prop := value_leb a b = true.

(** How many different values a column holds, the missing value counting as
    one. *)
Definition distinct_count (x : list value) : nat :=
  length (nodup value_eq_dec x).

(** The output row that the specification describes for the group of [k]. *)
Definition spec_row (g : string) (data : DataFrame) (k : value) : list value :=
  [k;
   Str (joined_distinct ";" (group_values g k "Name" data));
   Str (joined_distinct "," (group_values g k "Acres in Unit" data));
   Str (joined_distinct "," (group_values g k "Gross acres" data))].

(** The output labels mapped back to the labels of a source sheet. *)
Definition source_names : list (string * string) :=
  [("Names", "Name"); ("Gross Acres", "Gross acres")].

(** The aggregation can run: the columns it reads exist and every name is
    missing or a [str]. *)
Definition aggregable (g : string) (data : DataFrame) : bool :=
  has_column g data && forallb (fun l => has_column l data) agg_labels
  && forallb name_ok (column_values "Name" data).

(** The case in which a sheet without the identifier column is aggregated
    all the same: it has one row, the three source columns, and a name that
    is missing or a [str]. *)
Definition one_row_case (g : string) (data : DataFrame) : bool :=
  negb (has_column g data) && Nat.eqb (length (rows data)) 1
  && forallb (fun l => has_column l data) agg_labels
  && forallb name_ok (column_values "Name" data).

(** The row written in that case: the text of the identifier label, then the
    three fields of the one row. *)
Definition one_row_output (g : string) (data : DataFrame) : list value :=
  [Str g;
   Str (joined_distinct ";" (column_values "Name" data));
   Str (joined_distinct "," (column_values "Acres in Unit" data));
   Str (joined_distinct "," (column_values "Gross acres" data))].

(** A world after further events. *)
Definition logged {G : Type} (w : world G) (events : list event) : world G :=
  mkWorld (disk w) (arc w) (log w ++ events).

(** A world after [to_excel] has put a table at a path. *)
Definition saved {G : Type} {host : Host G} (w : world G) (path : string) (table : DataFrame)
  : world G :=
  mkWorld (put path [("Sheet1", as_read table)] (disk w)) (arc w) (log w).

(** What a run shows: its result, the state of the host and the log. *)
Definition observe {G A : Type} (r : outcome A * world G) : outcome A * G * list event :=
  (fst r, arc (snd r), log (snd r)).

(** Two sheets with the same name and cells whose labels agree once
    trimmed. *)
Definition same_sheet (a b : string * DataFrame) : Prop :=
  fst a = fst b /\ rows (snd a) = rows (snd b) /\
  map strip (columns (snd a)) = map strip (columns (snd b)).

(** The frame after the two [if ... not in data.columns] blocks of
    [aggregate_data], and the warnings they emit. *)
Definition acres_default (data : DataFrame) : DataFrame :=
  if has_column "Acres in Unit" data then data
  else assign "Acres in Unit" (Str "") data.

Definition gross_default (data : DataFrame) : DataFrame :=
  if has_column "Gross acres" data then data
  else assign "Gross acres" (Str "") data.

Definition default_warnings (input_file : string) (data : DataFrame) : list event :=
  (if has_column "Acres in Unit" data then []
   else [AddWarning ("'Acres in Unit' column is missing in " +++ input_file
                     +++ ". Filling with empty strings.")])
  ++ (if has_column "Gross acres" (acres_default data) then []
      else [AddWarning ("'Gross acres' column is missing in " +++ input_file
                        +++ ". Filling with empty strings.")]).

(** ** Sample tables, sample worlds and auxiliary notions *)

(** The scan with its table made explicit. *)
Fixpoint scan (seen : list value) (x : list value) : list value :=
  match x with
  | [] => []
  | v :: rest =>
      if existsb (value_eqb v) seen then scan seen rest
      else v :: scan (v :: seen) rest
  end.

(** Sample sheets. *)
Definition missing_id_example : DataFrame :=
  mkFrame ["TPIN"; "Name"; "Acres in Unit"; "Gross acres"]
    [ [NaN; Str "Smith"; Flt 1 1; Flt 4 1];
      [Str "P7"; NaN; Flt 3 0; NaN];
      [NaN; Str "Jones"; Flt 1 1; Flt 4 1];
      [Num 12; NaN; NaN; NaN] ].

Definition unsorted_example : DataFrame :=
  mkFrame ["Tax Map Parcel ID"; "Name"; "Acres in Unit"; "Gross acres"]
    [ [Str "B"; Str "Smith"; Str "10"; Str "40"];
      [Str "A"; Str "Jones"; Str "5"; Str "20"] ].

Definition numeric_name_example : DataFrame :=
  mkFrame ["Tax Map Parcel ID"; "Name"; "Acres in Unit"; "Gross acres"]
    [ [Str "A1"; Str "Smith"; Num 10; Str "40"];
      [Str "A1"; Num 7; Str "ten"; NaN] ].

(** A file system given by the list of its spreadsheets. *)
Definition on_disk (files : list (string * workbook)) (path : string) : option workbook :=
  match find (fun f => String.eqb path (fst f)) files with
  | Some f => Some (snd f)
  | None => None
  end.

(** A host without tools and without state, on which every path can be
    written. *)
Definition plain_host : Host unit :=
  {| ExcelToTable := fun _ _ _ => None;
     AddJoin := fun _ _ _ _ _ => None;
     ListFields := fun _ _ => None;
     CopyFeatures := fun _ _ _ => None;
     splitext_root := fun path => path;
     basename := fun path => path;
     path_join := fun directory name => directory +++ "/" +++ name;
     exn_text := fun _ => "";
     makedirs_fails := fun _ => false;
     read_only := fun _ => false;
     as_read := fun table => table |}.

(** The same host with a file system that refuses every directory and every
    file. *)
Definition sealed_host : Host unit :=
  {| ExcelToTable := fun _ _ _ => None;
     AddJoin := fun _ _ _ _ _ => None;
     ListFields := fun _ _ => None;
     CopyFeatures := fun _ _ _ => None;
     splitext_root := fun path => path;
     basename := fun path => path;
     path_join := fun directory name => directory +++ "/" +++ name;
     exn_text := fun _ => "";
     makedirs_fails := fun _ => true;
     read_only := fun _ => true;
     as_read := fun table => table |}.

(** A world with the given spreadsheet files, an empty log and a host
    without state. *)
Definition plain_world (files : list (string * workbook)) : world unit :=
  mkWorld (on_disk files) tt [].

Definition aggregated_example : DataFrame :=
  mkFrame ["Tax Map Parcel ID"; "Names"; "Acres in Unit"; "Gross Acres"]
    [[Str "A1"; Str "Smith;Jones"; Str "10,5"; Str "40.0"]].

Definition no_name_example : DataFrame :=
  mkFrame ["TPIN"; "Acres in Unit"; "Gross acres"]
    [[Str "P1"; Str "10"; Str "40"]].

Definition no_acreage_example : DataFrame :=
  mkFrame [" TPIN"; "Name "]
    [ [Str "P1"; Str "Smith"];
      [Str "P1"; Str "Jones"];
      [NaN; NaN] ].

Definition padded_header_example : DataFrame :=
  mkFrame [" Tax Map Parcel ID "; "Name"; "Acres in Unit"; "Gross acres"]
    [ [Str "A1"; Str "Smith"; Str "10"; Flt 4 1];
      [Str "A1"; Str "Jones"; Str "5"; NaN] ].

Definition trimmed_header_example : DataFrame :=
  mkFrame ["Tax Map Parcel ID"; "Name"; "Acres in Unit"; "Gross acres"]
    [ [Str "A1"; Str "Smith"; Str "10"; Flt 4 1];
      [Str "A1"; Str "Jones"; Str "5"; NaN] ].

(** A computation that only adds to the log. *)
Definition stable {G A : Type} (m : M G A) : Prop :=
  forall w, exists events, log (snd (m w)) = log w ++ events.

(** A computation that leaves every file as it was, except that it may put
    a one-sheet workbook written by [to_excel] at a path that satisfies
    [P]. *)
Definition writes {G A : Type} {host : Host G} (P : string -> Prop) (m : M G A) : Prop :=
  forall w path,
    disk (snd (m w)) path = disk w path \/
    (P path /\ exists table, disk (snd (m w)) path = Some [("Sheet1", as_read table)]).

(** A computation whose first effect is the event [e]. *)
Definition starts_with {G A : Type} (e : event) (m : M G A) : Prop :=
  forall w, exists events, log (snd (m w)) = log w ++ e :: events.

(** [to_excel] has written [path]. *)
Definition written (path : string) (events : list event) : bool :=
  existsb (fun e => match e with
                    | ToExcel p _ => String.eqb p path
                    | _ => false
                    end) events.

(** The state of this host is the list of fields of the layer.  The table
    conversion needs the spreadsheet to have been written, and the join
    brings in field names cut to ten characters, as in a dBASE table. *)
Definition dbase_host : Host (list string) :=
  {| ExcelToTable := fun excel_file _ w =>
       if written excel_file (log w) then Some (arc w) else None;
     AddJoin := fun _ _ _ _ w => Some (arc w ++ ["Names"; "Acres_in_U"; "Gross_Acre"]);
     ListFields := fun _ w => Some (arc w);
     CopyFeatures := fun _ _ w => Some (arc w);
     splitext_root := fun path => path;
     basename := fun path => path;
     path_join := fun directory name => directory +++ "/" +++ name;
     exn_text := fun e =>
       match e with
       | KeyError _ => "KeyError"
       | TypeError _ => "TypeError"
       | ValueError _ => "ValueError"
       | FileError _ => "FileError"
       | ExecuteError _ => "ExecuteError"
       end;
     makedirs_fails := fun _ => false;
     read_only := fun _ => false;
     as_read := fun table => table |}.

Definition batch_parameters : parameters :=
  mkParameters "in" "parcels.shp" "out" "joined.shp" "TPIN".

Definition batch_world : world (list string) :=
  mkWorld (on_disk [("a.xlsx", [("Sheet1", spec_example)]);
                    ("b.xlsx", [("Mapping", spec_example)])])
          ["FID"; "TPIN"] [].

(** A sheet of one row without an identifier column. *)
Definition one_row_example : DataFrame :=
  mkFrame ["Parcel"; "Name"; "Acres in Unit"; "Gross acres"]
    [[Str "A1"; Str "Smith"; Flt 105 (-1); Num 40]].



(** ** The stand-alone scripts: their batch loop and the one-file variant *)

Section StandAlone.

Context {G : Type} {host : Host G}.

Notation "x <- m ;; k" := (bind m (fun x => k))
  (at level 61, m at next level, right associativity).
Notation "m ;; k" := (bind m (fun _ => k))
  (at level 61, right associativity).

(** The loop body of [aggregate_tax_Map_Parcel_ID_GA_AIU_Names - Copy.py];
    [aggregate_data] is called with its default sheet name. *)
Definition process_copy (input_file : string) : M G unit :=
  let file_name := basename input_file in
  let output_file := path_join "output_folder" ("aggregated_" +++ file_name) in
  try_except
    (aggregate_data_copy input_file output_file "Mapping")
    (fun e => emit (Print ("Error processing " +++ input_file +++ ": " +++ exn_text e))).

(** The script body of the Copy variant; [input_files] is what [glob] found
    in [input_folder]. *)
Definition main_copy (input_files : list string) : M G unit :=
  makedirs "output_folder" ;;
  match input_files with
  | [] => emit (Print "No Excel files found in the input directory.")
  | _ :: _ => for_each input_files process_copy
  end.

(** [aggregate_data] of [aggregate_tax_Map_Parcel_ID_GA_AIU_Names -
    Updated.py]. *)
Definition aggregate_data_updated (input_file output_file sheet_name : string) : M G unit :=
  emit (Print "Loading data...") ;;
  data <- read_excel input_file sheet_name ;;
  let data := strip_columns data in
  emit (Print "Aggregating data...") ;;
  aggregated_data <- lift (groupby_agg "Tax Map Parcel ID" data) ;;
  let aggregated_data := rename output_names aggregated_data in
  emit (Print ("Saving aggregated data to " +++ output_file +++ "...")) ;;
  to_excel aggregated_data output_file ;;
  emit (Print "Aggregation complete!").

(** The script body of the Updated variant. *)
Definition main_updated : M G unit :=
  let input_path := "Indigo CBR A.xlsx" in
  let output_path := input_path +++ "-output1.xlsx" in
  aggregate_data_updated input_path output_path "Mapping".

End StandAlone.

(** ** Notions for the further properties *)

(** A computation that only adds events satisfying [P] to the log. *)
Definition adds {G A : Type} (P : event -> Prop) (m : M G A) : Prop :=
  forall w, exists events, log (snd (m w)) = log w ++ events /\ Forall P events.

Definition is_ToExcel (e : event) : bool :=
  match e with ToExcel _ _ => true | _ => false end.

(** The tables written, in order. *)
Definition tables_written (events : list event) : list event :=
  filter is_ToExcel events.

(** What [aggregate_data] of the ArcGIS script may add to the log. *)
Definition aggregate_event (output_file : string) (e : event) : Prop :=
  match e with
  | AddMessage _ | AddWarning _ | AddError _ => True
  | ToExcel path _ => path = output_file
  | _ => False
  end.

(** What [join_to_shapefile] may add to the log. *)
Definition join_event {G : Type} {host : Host G}
           (shapefile excel_file group_column output_layer : string) (e : event) : Prop :=
  match e with
  | AddMessage _ | AddError _ => True
  | CallExcelToTable a b => a = excel_file /\ b = splitext_root excel_file +++ ".dbf"
  | CallAddJoin a b c d =>
      a = shapefile /\ b = group_column /\
      c = splitext_root excel_file +++ ".dbf" /\ d = group_column
  | CallListFields a => a = shapefile
  | CallCopyFeatures a b => a = shapefile /\ b = output_layer
  | _ => False
  end.

(** The path that the batch loop of the Copy script writes for a file. *)
Definition copy_output_file {G : Type} {host : Host G} (input_file : string) : string :=
  path_join "output_folder" ("aggregated_" +++ basename input_file).

(** The path that the batch loop of the ArcGIS script writes for a file. *)
Definition output_file_of {G : Type} {host : Host G} (p : parameters) (input_file : string)
  : string :=
  path_join (output_directory p) ("aggregated_" +++ basename input_file).

(** What the batch of the ArcGIS script may add to the log. *)
Definition batch_event {G : Type} {host : Host G}
           (p : parameters) (files : list string) (e : event) : Prop :=
  match e with
  | AddMessage _ | AddWarning _ | AddError _ => True
  | Makedirs path => path = output_directory p
  | ToExcel path _ => exists f, In f files /\ path = output_file_of p f
  | CallExcelToTable a b =>
      exists f, In f files /\ a = output_file_of p f /\ b = splitext_root a +++ ".dbf"
  | CallAddJoin a b _ d => a = shapefile p /\ b = group_column p /\ d = group_column p
  | CallListFields a => a = shapefile p
  | CallCopyFeatures a b => a = shapefile p /\ b = output_layer p
  | Print _ => False
  end.

(** A host on which the join brings the three fields under their full
    names. *)
Definition geodatabase_host : Host (list string) :=
  {| ExcelToTable := fun excel_file _ w =>
       if written excel_file (log w) then Some (arc w) else None;
     AddJoin := fun _ _ _ _ w => Some (arc w ++ ["Names"; "Acres in Unit"; "Gross Acres"]);
     ListFields := fun _ w => Some (arc w);
     CopyFeatures := fun _ output w => Some (arc w);
     splitext_root := fun path => path;
     basename := fun path => path;
     path_join := fun directory name => directory +++ "/" +++ name;
     exn_text := fun e =>
       match e with
       | KeyError _ => "KeyError"
       | TypeError _ => "TypeError"
       | ValueError _ => "ValueError"
       | FileError _ => "FileError"
       | ExecuteError _ => "ExecuteError"
       end;
     makedirs_fails := fun _ => false;
     read_only := fun _ => false;
     as_read := fun table => table |}.

(** A world in which the aggregated table has been written. *)
Definition join_ready_world : world (list string) :=
  mkWorld (on_disk []) ["FID"; "TPIN"] [ToExcel "out.xlsx" aggregated_example].

(** A world whose one workbook holds a numeric name. *)
Definition numeric_name_world : world (list string) :=
  mkWorld (on_disk [("n.xlsx", [("Mapping", numeric_name_example)])]) ["FID"; "TPIN"] [].

(** * Properties *)

Example spec_example_aggregated :
  aggregated_data "Tax Map Parcel ID" spec_example
  = Ok (mkFrame ["Tax Map Parcel ID"; "Names"; "Acres in Unit"; "Gross Acres"]
          [[Str "A1"; Str "Smith;Jones"; Str "10,5"; Str "40.0"]]).
Proof. reflexivity. Qed.

(** ** Cells and membership *)

Lemma value_eqb_eq (a b : value) : value_eqb a b = true <-> a = b.
Proof.
  destruct a, b; simpl; split; intro H; try discriminate; try reflexivity.
  - apply String.eqb_eq in H. now subst.
  - injection H as ->. apply String.eqb_refl.
  - apply Z.eqb_eq in H. now subst.
  - injection H as ->. apply Z.eqb_refl.
  - apply andb_prop in H. destruct H as [H1 H2].
    apply Z.eqb_eq in H1, H2. now subst.
  - injection H as -> ->. now rewrite !Z.eqb_refl.
Qed.

Lemma value_eqb_refl (a : value) : value_eqb a a = true.
Proof. now apply value_eqb_eq. Qed.

Lemma value_eqb_sym (a b : value) : value_eqb a b = value_eqb b a.
Proof.
  destruct (value_eqb a b) eqn:E.
  - apply value_eqb_eq in E. subst. now rewrite value_eqb_refl.
  - destruct (value_eqb b a) eqn:E'; [|reflexivity].
    apply value_eqb_eq in E'. subst. now rewrite value_eqb_refl in E.
Qed.

Lemma mem_In (v : value) (l : list value) :
  existsb (value_eqb v) l = true <-> In v l.
Proof.
  rewrite existsb_exists. split.
  - intros [x [Hx E]]. apply value_eqb_eq in E. now subst.
  - intro H. exists v. split; [assumption | apply value_eqb_refl].
Qed.

Lemma mem_ext (v : value) (a b : list value) :
  (forall x, In x a <-> In x b) ->
  existsb (value_eqb v) a = existsb (value_eqb v) b.
Proof.
  intro H.
  destruct (existsb (value_eqb v) a) eqn:Ea, (existsb (value_eqb v) b) eqn:Eb;
    try reflexivity.
  - apply mem_In, H, mem_In in Ea. congruence.
  - apply mem_In, H, mem_In in Eb. congruence.
Qed.

Lemma has_column_In (l : string) (data : DataFrame) :
  has_column l data = true <-> In l (columns data).
Proof.
  unfold has_column. rewrite existsb_exists. split.
  - intros [x [Hx E]]. apply String.eqb_eq in E. now subst.
  - intro H. exists l. split; [assumption | apply String.eqb_refl].
Qed.

Lemma get_loc_Some (l : string) (ls : list string) :
  In l ls -> exists j, get_loc l ls = Some j.
Proof.
  induction ls as [|h t IH]; simpl; [contradiction|].
  intros [->|H].
  - rewrite String.eqb_refl. now exists 0.
  - destruct (String.eqb l h); [now exists 0|].
    destruct (IH H) as [j ->]. now exists (S j).
Qed.

Lemma get_loc_None (l : string) (ls : list string) :
  ~ In l ls -> get_loc l ls = None.
Proof.
  induction ls as [|h t IH]; simpl; [reflexivity|].
  intro H. destruct (String.eqb l h) eqn:E.
  - apply String.eqb_eq in E. subst. exfalso. apply H. now left.
  - rewrite IH; [reflexivity|]. intro. apply H. now right.
Qed.

(** ** [unique]: the scan keeps first occurrences *)

Lemma fold_unique_step (x acc : list value) :
  rev (fold_left unique_step x acc) = rev acc ++ scan acc x.
Proof.
  revert acc. induction x as [|v rest IH]; intro acc; simpl.
  - now rewrite app_nil_r.
  - rewrite IH. unfold unique_step.
    destruct (existsb (value_eqb v) acc); [reflexivity|].
    simpl. now rewrite <- app_assoc.
Qed.

Lemma unique_scan (x : list value) : unique x = scan [] x.
Proof. unfold unique. now rewrite fold_unique_step. Qed.

Lemma scan_In (x seen : list value) (v : value) :
  In v (scan seen x) <-> In v x /\ ~ In v seen.
Proof.
  revert seen. induction x as [|h t IH]; intro seen; simpl.
  - tauto.
  - destruct (existsb (value_eqb h) seen) eqn:E.
    + apply mem_In in E. rewrite IH. split.
      * tauto.
      * intros [[->|H] N]; tauto.
    + assert (N : ~ In h seen) by (rewrite <- mem_In; congruence).
      simpl. rewrite IH. simpl. split.
      * intros [->|[H1 H2]]; tauto.
      * intros [[->|H1] H2]; [now left|].
        destruct (value_eq_dec h v) as [->|D]; [now left|]. right. tauto.
Qed.

Lemma scan_NoDup (x seen : list value) : NoDup (scan seen x).
Proof.
  revert seen. induction x as [|h t IH]; intro seen; simpl.
  - constructor.
  - destruct (existsb (value_eqb h) seen); [apply IH|].
    constructor; [|apply IH].
    rewrite scan_In. simpl. tauto.
Qed.

Lemma unique_In (x : list value) (v : value) : In v (unique x) <-> In v x.
Proof. rewrite unique_scan, scan_In. simpl. tauto. Qed.

Lemma unique_NoDup (x : list value) : NoDup (unique x).
Proof. rewrite unique_scan. apply scan_NoDup. Qed.

Lemma scan_positions (x p seen : list value) :
  (forall v, In v seen <-> In v p) ->
  scan seen x
  = map snd
      (filter (fun iv => negb (existsb (value_eqb (snd iv)) (firstn (fst iv) (p ++ x))))
              (combine (seq (length p) (length x)) x)).
Proof.
  revert p seen. induction x as [|h t IH]; intros p seen Hseen; [reflexivity|].
  cbn [scan length seq combine filter fst snd].
  assert (Hp : firstn (length p) (p ++ h :: t) = p).
  { rewrite firstn_app, Nat.sub_diag, firstn_all. simpl. apply app_nil_r. }
  rewrite Hp, (mem_ext h seen p Hseen).
  assert (Hcons : p ++ h :: t = (p ++ [h]) ++ t) by now rewrite <- app_assoc.
  assert (Hlen : S (length p) = length (p ++ [h]))
    by (rewrite length_app; simpl; lia).
  destruct (existsb (value_eqb h) p) eqn:E; cbn [negb map snd].
  - rewrite Hcons, Hlen. apply IH.
    intro v. rewrite in_app_iff, Hseen. simpl. apply mem_In in E.
    split; [tauto|]. intros [H|[<-|[]]]; assumption.
  - f_equal. rewrite Hcons, Hlen. apply IH.
    intro v. rewrite in_app_iff. simpl. rewrite Hseen. tauto.
Qed.

Lemma unique_first_seen (x : list value) : unique x = first_seen x.
Proof.
  rewrite unique_scan. unfold first_seen.
  apply (scan_positions x [] []). tauto.
Qed.

Lemma unique_NoDup_id (x : list value) : NoDup x -> unique x = x.
Proof.
  rewrite unique_scan.
  assert (H : forall seen, NoDup x -> (forall v, In v x -> ~ In v seen) -> scan seen x = x).
  { induction x as [|h t IH]; intros seen Hnd Hs; [reflexivity|].
    simpl. inversion Hnd as [|? ? Hh Ht]; subst.
    destruct (existsb (value_eqb h) seen) eqn:E.
    - apply mem_In in E. exfalso. apply (Hs h); [now left | assumption].
    - f_equal. apply IH; [assumption|].
      intros v Hv [<-|Hin]; [contradiction|].
      apply (Hs v); [now right | assumption]. }
  intro Hnd. apply H; [assumption | intros v _ []].
Qed.

Lemma unique_length (x : list value) : length (unique x) = distinct_count x.
Proof.
  unfold distinct_count. apply Permutation_length.
  apply NoDup_Permutation.
  - apply unique_NoDup.
  - apply NoDup_nodup.
  - intro v. rewrite unique_In, nodup_In. tauto.
Qed.

(** ** The order of the group keys *)

Lemma string_leb_iff (s t : string) :
  String.leb s t = true <-> s = t \/ OrderedTypeEx.String_as_OT.lt s t.
Proof.
  unfold String.leb.
  destruct (String.compare s t) eqn:E.
  - apply OrderedTypeEx.String_as_OT.cmp_eq in E. tauto.
  - apply OrderedTypeEx.String_as_OT.cmp_lt in E. tauto.
  - split; [discriminate|]. intros [->|H].
    + assert (X : String.compare t t = Eq)
        by now apply OrderedTypeEx.String_as_OT.cmp_eq.
      congruence.
    + apply OrderedTypeEx.String_as_OT.cmp_lt in H.
      unfold OrderedTypeEx.String_as_OT.cmp in H. congruence.
Qed.

Lemma string_leb_trans (s t u : string) :
  String.leb s t = true -> String.leb t u = true -> String.leb s u = true.
Proof.
  rewrite !string_leb_iff. intros [->|H1] [->|H2]; auto.
  right. eapply OrderedTypeEx.String_as_OT.lt_trans; eassumption.
Qed.

Lemma form_leb_total (x y : bool * Z * Z) : form_leb x y = true \/ form_leb y x = true.
Proof.
  destruct x as [[f1 e1] m1], y as [[f2 e2] m2]. unfold form_leb.
  destruct f1, f2; simpl; auto;
    rewrite (Z.eqb_sym e2 e1); destruct (Z.eqb_spec e1 e2);
    rewrite ?Z.leb_le, ?Z.ltb_lt; lia.
Qed.

Lemma form_leb_antisym (x y : bool * Z * Z) :
  form_leb x y = true -> form_leb y x = true -> x = y.
Proof.
  destruct x as [[f1 e1] m1], y as [[f2 e2] m2]. unfold form_leb.
  destruct f1, f2; simpl; try discriminate;
    rewrite (Z.eqb_sym e2 e1); destruct (Z.eqb_spec e1 e2);
    rewrite ?Z.leb_le, ?Z.ltb_lt; intros; repeat f_equal; lia.
Qed.

Lemma form_leb_trans (x y z : bool * Z * Z) :
  form_leb x y = true -> form_leb y z = true -> form_leb x z = true.
Proof.
  destruct x as [[f1 e1] m1], y as [[f2 e2] m2], z as [[f3 e3] m3]. unfold form_leb.
  destruct f1, f2, f3; simpl; try discriminate; try reflexivity;
    destruct (Z.eqb_spec e1 e2), (Z.eqb_spec e2 e3), (Z.eqb_spec e1 e3);
    rewrite ?Z.leb_le, ?Z.ltb_lt; lia.
Qed.

Lemma number_leb_total (x y : bool * Z * Z) :
  number_leb x y = true \/ number_leb y x = true.
Proof.
  pose proof (form_leb_total x y) as Hf.
  destruct x as [[f1 e1] m1], y as [[f2 e2] m2]. unfold number_leb.
  rewrite <- (QArith_base.Qcompare_antisym (number m1 e1) (number m2 e2)).
  destruct (QArith_base.Qcompare (number m1 e1) (number m2 e2)); simpl; auto.
Qed.

Lemma number_leb_antisym (x y : bool * Z * Z) :
  number_leb x y = true -> number_leb y x = true -> x = y.
Proof.
  pose proof (form_leb_antisym x y) as Hf.
  destruct x as [[f1 e1] m1], y as [[f2 e2] m2]. unfold number_leb.
  rewrite <- (QArith_base.Qcompare_antisym (number m1 e1) (number m2 e2)).
  destruct (QArith_base.Qcompare (number m1 e1) (number m2 e2)); simpl;
    try discriminate; auto.
Qed.

Lemma number_leb_trans (x y z : bool * Z * Z) :
  number_leb x y = true -> number_leb y z = true -> number_leb x z = true.
Proof.
  pose proof (form_leb_trans x y z) as Hf.
  destruct x as [[f1 e1] m1], y as [[f2 e2] m2], z as [[f3 e3] m3]. unfold number_leb.
  set (a := number m1 e1). set (b := number m2 e2). set (c := number m3 e3).
  destruct (QArith_base.Qcompare_spec a b) as [Eab|Lab|Gab]; try discriminate;
    destruct (QArith_base.Qcompare_spec b c) as [Ebc|Lbc|Gbc]; try discriminate;
    intros H1 H2.
  - assert (E : QArith_base.Qeq a c) by (eapply QArith_base.Qeq_trans; eassumption).
    assert (E' : QArith_base.Qcompare a c = Eq) by (apply QArith_base.Qeq_alt; exact E).
    rewrite E'. auto.
  - assert (L : QArith_base.Qlt a c).
    { eapply QArith_base.Qle_lt_trans; [|exact Lbc].
      apply QArith_base.Qle_lteq. now right. }
    assert (L' : QArith_base.Qcompare a c = Lt) by (apply QArith_base.Qlt_alt; exact L).
    now rewrite L'.
  - assert (L : QArith_base.Qlt a c).
    { eapply QArith_base.Qlt_le_trans; [exact Lab|].
      apply QArith_base.Qle_lteq. now right. }
    assert (L' : QArith_base.Qcompare a c = Lt) by (apply QArith_base.Qlt_alt; exact L).
    now rewrite L'.
  - assert (L : QArith_base.Qlt a c) by (eapply QArith_base.Qlt_trans; eassumption).
    assert (L' : QArith_base.Qcompare a c = Lt) by (apply QArith_base.Qlt_alt; exact L).
    now rewrite L'.
Qed.

Lemma value_le_total (a b : value) : value_le a b \/ value_le b a.
Proof.
  unfold value_le, value_leb.
  destruct a, b; cbn [as_number]; auto; try apply String.leb_total;
    apply number_leb_total.
Qed.

Lemma value_le_trans (a b c : value) : value_le a b -> value_le b c -> value_le a c.
Proof.
  unfold value_le, value_leb.
  destruct a, b, c; cbn [as_number]; try congruence;
    try apply string_leb_trans; apply number_leb_trans.
Qed.

Lemma value_le_antisym (a b : value) : value_le a b -> value_le b a -> a = b.
Proof.
  unfold value_le, value_leb.
  destruct a, b; cbn [as_number]; try congruence.
  - intros H1 H2. f_equal. now apply String.leb_antisym.
  - intros H1 H2. pose proof (number_leb_antisym _ _ H1 H2) as E. congruence.
  - intros H1 H2. pose proof (number_leb_antisym _ _ H1 H2) as E. congruence.
  - intros H1 H2. pose proof (number_leb_antisym _ _ H1 H2) as E. congruence.
  - intros H1 H2. pose proof (number_leb_antisym _ _ H1 H2) as E. congruence.
Qed.

Lemma insert_key_perm (k : value) (l : list value) :
  Permutation (insert_key k l) (k :: l).
Proof.
  induction l as [|h t IH]; simpl; [apply Permutation_refl|].
  destruct (value_leb k h); [apply Permutation_refl|].
  eapply perm_trans; [apply perm_skip, IH | apply perm_swap].
Qed.

Lemma sort_keys_perm (l : list value) : Permutation (sort_keys l) l.
Proof.
  induction l as [|h t IH]; simpl; [constructor|].
  eapply perm_trans; [apply insert_key_perm | now apply perm_skip].
Qed.

Lemma insert_key_sorted (k : value) (l : list value) :
  Sorted value_le l -> Sorted value_le (insert_key k l).
Proof.
  induction 1 as [|h t Hs IH Hh]; simpl.
  - repeat constructor.
  - destruct (value_leb k h) eqn:E.
    + constructor; [now constructor | now constructor].
    + assert (Hhk : value_le h k).
      { destruct (value_le_total k h) as [C|C]; [unfold value_le in C; congruence | exact C]. }
      constructor; [exact IH|].
      destruct t as [|h' t']; simpl.
      * now constructor.
      * inversion Hh; subst.
        destruct (value_leb k h'); now constructor.
Qed.

Lemma sort_keys_sorted (l : list value) : Sorted value_le (sort_keys l).
Proof.
  induction l as [|h t IH]; simpl; [constructor | now apply insert_key_sorted].
Qed.

Lemma sort_keys_strongly_sorted (l : list value) :
  StronglySorted value_le (sort_keys l).
Proof.
  apply Sorted_StronglySorted; [|apply sort_keys_sorted].
  intros a b c. apply value_le_trans.
Qed.

Lemma sort_keys_sorted_id (l : list value) : Sorted value_le l -> sort_keys l = l.
Proof.
  induction 1 as [|h t Hs IH Hh]; simpl; [reflexivity|].
  rewrite IH. destruct Hh as [|h' t' Hle]; simpl; [reflexivity|].
  unfold value_le in Hle. now rewrite Hle.
Qed.

Lemma sort_keys_In (l : list value) (v : value) : In v (sort_keys l) <-> In v l.
Proof.
  split; apply Permutation_in;
    [apply sort_keys_perm | apply Permutation_sym, sort_keys_perm].
Qed.

Lemma sort_keys_NoDup (l : list value) : NoDup l -> NoDup (sort_keys l).
Proof.
  intro H. eapply Permutation_NoDup; [apply Permutation_sym, sort_keys_perm | exact H].
Qed.

(** ** The per-group functions *)

Lemma dropna_remove (x : list value) : dropna x = remove value_eq_dec NaN x.
Proof.
  induction x as [|h t IH]; [reflexivity|].
  unfold dropna in *. simpl.
  destruct (value_eq_dec NaN h) as [<-|D]; simpl; [exact IH|].
  destruct h; [congruence | simpl; now f_equal ..].
Qed.

Lemma dropna_In (x : list value) (v : value) :
  In v (dropna x) <-> In v x /\ v <> NaN.
Proof.
  unfold dropna. rewrite filter_In.
  destruct v; simpl; split; intros [H1 H2]; split;
    try assumption; try reflexivity; try discriminate; congruence.
Qed.

Lemma dec_eqb (a k : value) :
  (if value_eq_dec a k then true else false) = value_eqb a k.
Proof.
  destruct (value_eq_dec a k) as [->|D].
  - now rewrite value_eqb_refl.
  - destruct (value_eqb a k) eqn:E; [|reflexivity].
    apply value_eqb_eq in E. contradiction.
Qed.

Lemma expect_strs_all (items : list value) (pos : nat) :
  (forall v, In v items -> exists s, v = Str s) ->
  expect_strs pos items = inr (map py_str items).
Proof.
  revert pos. induction items as [|h t IH]; intros pos H; [reflexivity|].
  destruct (H h (or_introl eq_refl)) as [s ->]. simpl.
  rewrite IH; [reflexivity|]. intros v Hv. apply H. now right.
Qed.

Lemma expect_strs_some (items : list value) (pos : nat) (v : value) :
  In v items -> (forall s, v <> Str s) -> exists p, expect_strs pos items = inl p.
Proof.
  revert pos. induction items as [|h t IH]; intros pos Hin Hv; [contradiction|].
  destruct Hin as [->|Hin].
  - destruct v; simpl; eauto. exfalso. now apply (Hv s).
  - destruct h; simpl; eauto.
    destruct (IH (S pos) Hin Hv) as [p ->]. eauto.
Qed.

Lemma agg_acres_spec (x : list value) : agg_acres x = joined_distinct "," x.
Proof.
  unfold agg_acres, joined_distinct. now rewrite unique_first_seen, dropna_remove.
Qed.

Lemma agg_name_ok (x : list value) :
  forallb name_ok x = true -> agg_name x = Ok (joined_distinct ";" x).
Proof.
  intro H. unfold agg_name, str_join, joined_distinct.
  rewrite expect_strs_all.
  - now rewrite unique_first_seen, dropna_remove.
  - intros v Hv. apply unique_In, dropna_In in Hv. destruct Hv as [Hv Hn].
    rewrite forallb_forall in H. specialize (H v Hv).
    destruct v; [congruence | eauto | discriminate | discriminate].
Qed.

Lemma agg_name_bad (x : list value) (v : value) :
  In v x -> name_ok v = false -> exists p, agg_name x = Raise (TypeError p).
Proof.
  intros Hin Hv. unfold agg_name, str_join.
  destruct (expect_strs_some (unique (dropna x)) 0 v) as [p ->]; eauto.
  - apply unique_In, dropna_In. split; [assumption|]. now destruct v.
  - intros s ->. discriminate.
Qed.

Lemma agg_name_raises (x : list value) (e : exn) :
  agg_name x = Raise e -> exists p, e = TypeError p.
Proof.
  unfold agg_name, str_join.
  destruct (expect_strs 0 (unique (dropna x))); [|discriminate].
  intros [= <-]. eauto.
Qed.

Lemma joined_distinct_all_missing (sep : string) (x : list value) :
  forallb isna x = true -> joined_distinct sep x = "".
Proof.
  intro H. unfold joined_distinct.
  assert (E : remove value_eq_dec NaN x = []).
  { induction x as [|h t IH]; [reflexivity|].
    simpl in H. apply andb_prop in H. destruct H as [Hh Ht].
    destruct h; try discriminate. simpl. now apply IH. }
  now rewrite E.
Qed.

Lemma joined_distinct_single (sep s : string) : joined_distinct sep [Str s] = s.
Proof. reflexivity. Qed.

(** ** Groups *)

Lemma group_values_rows (g label : string) (k : value) (data : DataFrame) (jg j : nat) :
  get_loc g (columns data) = Some jg ->
  get_loc label (columns data) = Some j ->
  group_values g k label data = map (cell j) (group_rows jg k (rows data)).
Proof.
  intros Hg Hl. unfold group_values, column_values. rewrite Hg, Hl.
  unfold group_rows.
  induction (rows data) as [|r rs IH]; [reflexivity|].
  cbn [map combine filter fst snd]. rewrite dec_eqb.
  destruct (value_eqb (cell jg r) k); cbn [map snd]; now rewrite IH.
Qed.

Lemma group_rows_incl (jg : nat) (k : value) (rs : list (list value)) (r : list value) :
  In r (group_rows jg k rs) <-> In r rs /\ cell jg r = k.
Proof.
  unfold group_rows. rewrite filter_In, value_eqb_eq. tauto.
Qed.

Lemma group_keys_In (jg : nat) (rs : list (list value)) (k : value) :
  In k (group_keys jg rs) <-> In k (map (cell jg) rs).
Proof. unfold group_keys. now rewrite sort_keys_In, unique_In. Qed.

Lemma group_keys_NoDup (jg : nat) (rs : list (list value)) : NoDup (group_keys jg rs).
Proof. apply sort_keys_NoDup, unique_NoDup. Qed.

(** ** The rows of the aggregated table *)

Lemma agg_rows_intro (jg jn ja jr : nat) (rs : list (list value))
      (f : value -> list value) (keys : list value) :
  (forall k, In k keys -> agg_row jg jn ja jr rs k = Ok (f k)) ->
  agg_rows jg jn ja jr rs keys = Ok (map f keys).
Proof.
  induction keys as [|k rest IH]; intro H; [reflexivity|].
  simpl. rewrite H by now left. rewrite IH; [reflexivity|].
  intros k' Hk'. apply H. now right.
Qed.

Lemma agg_rows_inv (jg jn ja jr : nat) (rs : list (list value))
      (keys : list value) (out : list (list value)) :
  agg_rows jg jn ja jr rs keys = Ok out ->
  Forall2 (fun k r => agg_row jg jn ja jr rs k = Ok r) keys out.
Proof.
  revert out. induction keys as [|k rest IH]; intros out; simpl.
  - intros [= <-]. constructor.
  - destruct (agg_row jg jn ja jr rs k) as [r|e] eqn:Er; [|discriminate].
    destruct (agg_rows jg jn ja jr rs rest) as [o|e]; [|discriminate].
    intros [= <-]. constructor; [assumption | now apply IH].
Qed.

Lemma agg_rows_raise (jg jn ja jr : nat) (rs : list (list value))
      (keys : list value) (k : value) (p : nat) :
  In k keys -> agg_row jg jn ja jr rs k = Raise (TypeError p) ->
  exists q, agg_rows jg jn ja jr rs keys = Raise (TypeError q).
Proof.
  induction keys as [|h t IH]; [contradiction|].
  intros Hin Hk. simpl.
  destruct (agg_row jg jn ja jr rs h) as [r|e] eqn:Er.
  - destruct Hin as [->|Hin]; [congruence|].
    destruct (IH Hin Hk) as [q ->]. eauto.
  - unfold agg_row in Er.
    destruct (agg_name (map (cell jn) (group_rows jg h rs))) eqn:En; [discriminate|].
    injection Er as <-. apply agg_name_raises in En. destruct En as [q ->]. eauto.
Qed.

(** ** When the aggregation succeeds, and what it returns *)

Lemma get_loc_In (l : string) (ls : list string) (j : nat) :
  get_loc l ls = Some j -> In l ls.
Proof.
  revert j. induction ls as [|h t IH]; intro j; simpl; [discriminate|].
  destruct (String.eqb l h) eqn:E.
  - apply String.eqb_eq in E. now left.
  - destruct (get_loc l t); [|discriminate]. intros _. right. eauto.
Qed.

Lemma has_column_loc (l : string) (data : DataFrame) :
  has_column l data = true -> exists j, get_loc l (columns data) = Some j.
Proof. intro H. apply get_loc_Some. now apply has_column_In. Qed.

Lemma has_column_false_loc (l : string) (data : DataFrame) :
  has_column l data = false -> get_loc l (columns data) = None.
Proof.
  intro H. apply get_loc_None. rewrite <- has_column_In. congruence.
Qed.

Lemma aggregable_inv (g : string) (data : DataFrame) :
  aggregable g data = true ->
  exists jg jn ja jr,
    get_loc g (columns data) = Some jg /\
    get_loc "Name" (columns data) = Some jn /\
    get_loc "Acres in Unit" (columns data) = Some ja /\
    get_loc "Gross acres" (columns data) = Some jr /\
    forallb name_ok (map (cell jn) (rows data)) = true.
Proof.
  unfold aggregable, agg_labels. cbn [forallb].
  rewrite !andb_true_iff. intros [[Hg [Hn [Ha [Hr _]]]] Hok].
  destruct (has_column_loc _ _ Hg) as [jg Eg].
  destruct (has_column_loc _ _ Hn) as [jn En].
  destruct (has_column_loc _ _ Ha) as [ja Ea].
  destruct (has_column_loc _ _ Hr) as [jr Er].
  exists jg, jn, ja, jr. repeat split; try assumption.
  unfold column_values in Hok. now rewrite En in Hok.
Qed.

Lemma forallb_group (jg jn : nat) (k : value) (rs : list (list value)) :
  forallb name_ok (map (cell jn) rs) = true ->
  forallb name_ok (map (cell jn) (group_rows jg k rs)) = true.
Proof.
  rewrite !forallb_forall. intros H v Hv.
  apply in_map_iff in Hv. destruct Hv as [r [<- Hr]].
  apply group_rows_incl in Hr. apply H, in_map. tauto.
Qed.

Lemma groupby_agg_ok (g : string) (data : DataFrame) :
  aggregable g data = true ->
  groupby_agg g data
  = Ok (mkFrame (g :: agg_labels)
          (map (spec_row g data) (sort_keys (unique (column_values g data))))).
Proof.
  intro H. destruct (aggregable_inv g data H) as (jg & jn & ja & jr & Eg & En & Ea & Er & Hok).
  unfold groupby_agg. rewrite Eg, En, Ea, Er.
  unfold column_values. rewrite Eg. fold (group_keys jg (rows data)).
  rewrite (agg_rows_intro jg jn ja jr (rows data) (spec_row g data)); [reflexivity|].
  intros k _. unfold agg_row, spec_row.
  rewrite (group_values_rows g "Name" k data jg jn Eg En).
  rewrite (group_values_rows g "Acres in Unit" k data jg ja Eg Ea).
  rewrite (group_values_rows g "Gross acres" k data jg jr Eg Er).
  rewrite agg_name_ok by now apply forallb_group.
  now rewrite !agg_acres_spec.
Qed.

Lemma aggregated_data_ok (g : string) (data : DataFrame) :
  aggregable g data = true ->
  aggregated_data g data
  = Ok (mkFrame [renamed output_names g; "Names"; "Acres in Unit"; "Gross Acres"]
          (map (spec_row g data) (sort_keys (unique (column_values g data))))).
Proof.
  intro H. unfold aggregated_data. now rewrite groupby_agg_ok.
Qed.

Lemma groupby_agg_bad_name (g : string) (data : DataFrame) :
  has_column g data = true ->
  forallb (fun l => has_column l data) agg_labels = true ->
  forallb name_ok (column_values "Name" data) = false ->
  exists p, groupby_agg g data = Raise (TypeError p).
Proof.
  intros Hg Hl Hbad. unfold agg_labels in Hl. cbn [forallb] in Hl.
  rewrite !andb_true_iff in Hl. destruct Hl as (Hn & Ha & Hr & _).
  destruct (has_column_loc _ _ Hg) as [jg Eg].
  destruct (has_column_loc _ _ Hn) as [jn En].
  destruct (has_column_loc _ _ Ha) as [ja Ea].
  destruct (has_column_loc _ _ Hr) as [jr Er].
  unfold column_values in Hbad. rewrite En in Hbad.
  assert (Hex : exists r, In r (rows data) /\ name_ok (cell jn r) = false).
  { clear -Hbad. induction (rows data) as [|r rs IH]; [discriminate|].
    simpl in Hbad. destruct (name_ok (cell jn r)) eqn:E.
    - destruct (IH Hbad) as [r' [H1 H2]]. exists r'. split; [now right | assumption].
    - exists r. split; [now left | assumption]. }
  destruct Hex as [r [Hr' Hv]].
  destruct (agg_name_bad (map (cell jn) (group_rows jg (cell jg r) (rows data))) (cell jn r))
    as [p Hp]; [|assumption|].
  { apply in_map, group_rows_incl. tauto. }
  destruct (agg_rows_raise jg jn ja jr (rows data) (group_keys jg (rows data)) (cell jg r) p)
    as [q Hq].
  - apply group_keys_In. now apply in_map.
  - unfold agg_row. now rewrite Hp.
  - exists q. unfold groupby_agg. now rewrite Eg, En, Ea, Er, Hq.
Qed.

Lemma groupby_agg_with_column (g : string) (data out : DataFrame) :
  has_column g data = true ->
  groupby_agg g data = Ok out -> aggregable g data = true.
Proof.
  intros Hg H. unfold aggregable.
  assert (Hl : forallb (fun l => has_column l data) agg_labels = true).
  { unfold groupby_agg in H.
    destruct (has_column_loc _ _ Hg) as [jg Eg]. rewrite Eg in H.
    destruct (get_loc "Name" (columns data)) eqn:En; [|discriminate].
    destruct (get_loc "Acres in Unit" (columns data)) eqn:Ea; [|discriminate].
    destruct (get_loc "Gross acres" (columns data)) eqn:Er; [|discriminate].
    unfold agg_labels. cbn [forallb].
    rewrite !andb_true_iff. repeat split; apply has_column_In; eapply get_loc_In; eassumption. }
  rewrite Hg, Hl. simpl.
  destruct (forallb name_ok (column_values "Name" data)) eqn:E; [reflexivity|].
  destruct (groupby_agg_bad_name g data Hg Hl E) as [p Hp]. congruence.
Qed.

Lemma one_row_case_inv (g : string) (data : DataFrame) :
  one_row_case g data = true ->
  exists r jn ja jr,
    get_loc g (columns data) = None /\
    rows data = [r] /\
    get_loc "Name" (columns data) = Some jn /\
    get_loc "Acres in Unit" (columns data) = Some ja /\
    get_loc "Gross acres" (columns data) = Some jr /\
    name_ok (cell jn r) = true.
Proof.
  unfold one_row_case, agg_labels. cbn [forallb].
  rewrite !andb_true_iff, negb_true_iff, Nat.eqb_eq.
  intros [[[Hg Hlen] [Hn [Ha [Hr _]]]] Hok].
  destruct (rows data) as [|r [|r' rest]] eqn:Erows; try discriminate.
  destruct (has_column_loc _ _ Hn) as [jn En].
  destruct (has_column_loc _ _ Ha) as [ja Ea].
  destruct (has_column_loc _ _ Hr) as [jr Er].
  exists r, jn, ja, jr. repeat split; try assumption.
  - now apply has_column_false_loc.
  - unfold column_values in Hok. rewrite En, Erows in Hok. simpl in Hok.
    now rewrite andb_true_r in Hok.
Qed.

Lemma groupby_agg_one_row (g : string) (data : DataFrame) :
  one_row_case g data = true ->
  groupby_agg g data = Ok (mkFrame ("index" :: agg_labels) [one_row_output g data]).
Proof.
  intro H. destruct (one_row_case_inv g data H) as (r & jn & ja & jr & Eg & Er & En & Ea & Egr & Hok).
  unfold groupby_agg, one_row_output, column_values.
  rewrite Eg, Er, En, Ea, Egr. cbn [map].
  rewrite agg_name_ok by (simpl; now rewrite Hok).
  now rewrite !agg_acres_spec.
Qed.

Lemma groupby_agg_Ok_cases (g : string) (data out : DataFrame) :
  groupby_agg g data = Ok out ->
  aggregable g data = true \/ one_row_case g data = true.
Proof.
  intro H. destruct (has_column g data) eqn:Hg.
  - left. eapply groupby_agg_with_column; eassumption.
  - right. unfold one_row_case. rewrite Hg. cbn [negb andb].
    unfold groupby_agg in H. rewrite (has_column_false_loc _ _ Hg) in H.
    destruct (rows data) as [|r [|r' rest]] eqn:Er; try discriminate.
    destruct (get_loc "Name" (columns data)) eqn:En; [|discriminate].
    destruct (get_loc "Acres in Unit" (columns data)) eqn:Ea; [|discriminate].
    destruct (get_loc "Gross acres" (columns data)) eqn:Egr; [|discriminate].
    assert (Hl : forallb (fun l => has_column l data) agg_labels = true).
    { unfold agg_labels. cbn [forallb]. rewrite !andb_true_iff.
      repeat split; apply has_column_In; eapply get_loc_In; eassumption. }
    rewrite Hl. cbn [length Nat.eqb andb].
    unfold column_values. rewrite En, Er. cbn [map forallb]. rewrite andb_true_r.
    destruct (name_ok (cell n r)) eqn:Hok; [reflexivity|].
    destruct (agg_name_bad [cell n r] (cell n r)) as [p Hp]; [now left | assumption |].
    rewrite Hp in H. discriminate.
Qed.

Lemma aggregated_data_Ok_cases (g : string) (data out : DataFrame) :
  aggregated_data g data = Ok out ->
  aggregable g data = true \/ one_row_case g data = true.
Proof.
  unfold aggregated_data. destruct (groupby_agg g data) eqn:E; [|discriminate].
  intros _. eapply groupby_agg_Ok_cases; eassumption.
Qed.

Lemma aggregated_data_one_row (g : string) (data : DataFrame) :
  one_row_case g data = true ->
  aggregated_data g data
  = Ok (mkFrame ["index"; "Names"; "Acres in Unit"; "Gross Acres"] [one_row_output g data]).
Proof.
  intro H. unfold aggregated_data. now rewrite groupby_agg_one_row.
Qed.

Lemma aggregated_data_Ok_names (g : string) (data out : DataFrame) :
  aggregated_data g data = Ok out ->
  forallb name_ok (column_values "Name" data) = true.
Proof.
  intro H. destruct (aggregated_data_Ok_cases g data out H) as [Ha|Ha].
  - unfold aggregable in Ha. rewrite !andb_true_iff in Ha. tauto.
  - unfold one_row_case in Ha. rewrite !andb_true_iff in Ha. tauto.
Qed.

Lemma aggregated_data_with_column (g : string) (data out : DataFrame) :
  has_column g data = true ->
  aggregated_data g data = Ok out -> aggregable g data = true.
Proof.
  intro Hg. unfold aggregated_data. destruct (groupby_agg g data) eqn:E; [|discriminate].
  intros _. eapply groupby_agg_with_column; eassumption.
Qed.

Lemma first_seen_NoDup (x : list value) : NoDup (first_seen x).
Proof. rewrite <- unique_first_seen. apply unique_NoDup. Qed.

Lemma first_seen_In (x : list value) (v : value) : In v (first_seen x) <-> In v x.
Proof. rewrite <- unique_first_seen. apply unique_In. Qed.

Lemma key_of_spec_rows (g : string) (data : DataFrame) (keys : list value) :
  map (cell 0) (map (spec_row g data) keys) = keys.
Proof.
  rewrite map_map. simpl. apply map_id.
Qed.

(** ** The aggregated table *)

(** C1. For every table the aggregation can run on and every group, the
    output row of the group holds in [Names] the distinct non-missing [Name]
    values of the group, each once, in first-seen order, joined with [;], and
    in the two acreage fields the same construction joined with [,], every
    acreage being written as Python's [str] writes it. *)
Theorem aggregated_fields_per_group (g : string) (data : DataFrame) :
  aggregable g data = true ->
  exists out,
    aggregated_data g data = Ok out /\
    columns out = [renamed output_names g; "Names"; "Acres in Unit"; "Gross Acres"] /\
    (forall r, In r (rows out) <->
               exists k, In k (column_values g data) /\ r = spec_row g data k) /\
    (forall k label,
        let kept := first_seen (remove value_eq_dec NaN (group_values g k label data)) in
        NoDup kept /\
        (forall v, In v kept <-> In v (group_values g k label data) /\ v <> NaN)).
Proof.
  intro H. eexists. split; [apply aggregated_data_ok, H|].
  cbn [columns rows]. split; [reflexivity|]. split.
  - intro r. rewrite in_map_iff. split.
    + intros [k [<- Hk]]. exists k. split; [|reflexivity].
      rewrite sort_keys_In, unique_In in Hk. exact Hk.
    + intros [k [Hk ->]]. exists k. split; [reflexivity|].
      rewrite sort_keys_In, unique_In. exact Hk.
  - intros k label. split; [apply first_seen_NoDup|].
    intro v. rewrite first_seen_In. split.
    + intro Hv. apply in_remove in Hv. destruct Hv. split; [assumption | congruence].
    + intros [Hv Hn]. apply in_in_remove; [congruence | assumption].
Qed.

Lemma aggregated_fields_per_group_witness :
  aggregated_data "Tax Map Parcel ID" spec_example = Ok aggregated_example /\
  exists out,
    aggregated_data "Tax Map Parcel ID" spec_example = Ok out /\
    columns out = [renamed output_names "Tax Map Parcel ID"; "Names";
                   "Acres in Unit"; "Gross Acres"] /\
    (forall r, In r (rows out) <->
               exists k, In k (column_values "Tax Map Parcel ID" spec_example) /\
                         r = spec_row "Tax Map Parcel ID" spec_example k) /\
    (forall k label,
        let kept := first_seen (remove value_eq_dec NaN
                                  (group_values "Tax Map Parcel ID" k label spec_example)) in
        NoDup kept /\
        (forall v, In v kept <->
                   In v (group_values "Tax Map Parcel ID" k label spec_example) /\ v <> NaN)).
Proof.
  split; [reflexivity|].
  apply (aggregated_fields_per_group "Tax Map Parcel ID" spec_example).
  reflexivity.
Defined.

(** C2. The aggregated table has as many rows as the grouping column has
    distinct values, the missing identifier counting as one of them: the
    identifiers of the output are pairwise different and are exactly the
    values of the grouping column. *)
Theorem one_row_per_identifier (g : string) (data : DataFrame) :
  aggregable g data = true ->
  exists out,
    aggregated_data g data = Ok out /\
    length (rows out) = distinct_count (column_values g data) /\
    NoDup (map (cell 0) (rows out)) /\
    (forall k, In k (map (cell 0) (rows out)) <-> In k (column_values g data)).
Proof.
  intro H. eexists. split; [apply aggregated_data_ok, H|].
  cbn [rows]. rewrite key_of_spec_rows. split; [|split].
  - rewrite length_map, <- unique_length.
    apply Permutation_length, sort_keys_perm.
  - apply sort_keys_NoDup, unique_NoDup.
  - intro k. now rewrite sort_keys_In, unique_In.
Qed.

Lemma one_row_per_identifier_witness :
  exists out,
    aggregated_data "TPIN" missing_id_example = Ok out /\
    length (rows out) = distinct_count (column_values "TPIN" missing_id_example) /\
    NoDup (map (cell 0) (rows out)) /\
    (forall k, In k (map (cell 0) (rows out)) <->
               In k (column_values "TPIN" missing_id_example)).
Proof.
  apply (one_row_per_identifier "TPIN" missing_id_example).
  reflexivity.
Defined.

(** C3, as stated, fails: the identifier [B] comes first in the source and
    second in the output. *)
Lemma rows_not_in_source_order :
  exists out,
    aggregated_data "Tax Map Parcel ID" unsorted_example = Ok out /\
    map (cell 0) (rows out)
    <> first_seen (column_values "Tax Map Parcel ID" unsorted_example).
Proof.
  eexists. split; [reflexivity|]. vm_compute. discriminate.
Qed.

(** C3, amended. The rows of the aggregated table are in ascending order of
    the identifier (numbers, then texts, then the missing identifier), and
    their identifiers are a rearrangement of the distinct identifiers of the
    source in first-seen order. *)
Theorem rows_in_key_order (g : string) (data : DataFrame) :
  aggregable g data = true ->
  exists out,
    aggregated_data g data = Ok out /\
    StronglySorted value_le (map (cell 0) (rows out)) /\
    Permutation (map (cell 0) (rows out)) (first_seen (column_values g data)).
Proof.
  intro H. eexists. split; [apply aggregated_data_ok, H|].
  cbn [rows]. rewrite key_of_spec_rows, <- unique_first_seen. split.
  - apply sort_keys_strongly_sorted.
  - apply sort_keys_perm.
Qed.

Lemma rows_in_key_order_witness :
  exists out,
    aggregated_data "Tax Map Parcel ID" unsorted_example = Ok out /\
    StronglySorted value_le (map (cell 0) (rows out)) /\
    Permutation (map (cell 0) (rows out))
                (first_seen (column_values "Tax Map Parcel ID" unsorted_example)).
Proof.
  apply (rows_in_key_order "Tax Map Parcel ID" unsorted_example).
  reflexivity.
Defined.

(** C9. A [Name] cell that is neither missing nor a [str] makes the
    aggregation raise: a [TypeError] from the [;]-join when the columns are
    in place.  When every [Name] cell is missing or a [str] the aggregation
    succeeds, whatever the acreage cells hold. *)
Theorem names_must_be_text (g : string) (data : DataFrame) :
  ((exists v, In v (column_values "Name" data) /\ v <> NaN /\ forall s, v <> Str s) ->
   exists e,
     aggregated_data g data = Raise e /\
     (has_column g data = true ->
      forallb (fun l => has_column l data) agg_labels = true ->
      exists p, e = TypeError p)) /\
  (has_column g data = true ->
   forallb (fun l => has_column l data) agg_labels = true ->
   (forall v, In v (column_values "Name" data) -> v = NaN \/ exists s, v = Str s) ->
   exists out, aggregated_data g data = Ok out).
Proof.
  split.
  - intros [v (Hin & Hn & Hs)].
    assert (Hbad : forallb name_ok (column_values "Name" data) = false).
    { destruct (forallb name_ok (column_values "Name" data)) eqn:E; [|reflexivity].
      rewrite forallb_forall in E. specialize (E v Hin).
      destruct v;
        [congruence | exfalso; now apply (Hs s) | discriminate | discriminate]. }
    destruct (aggregated_data g data) as [out|e] eqn:E.
    + apply aggregated_data_Ok_names in E. congruence.
    + exists e. split; [reflexivity|]. intros Hg Hl.
      destruct (groupby_agg_bad_name g data Hg Hl Hbad) as [p Hp].
      exists p. unfold aggregated_data in E. rewrite Hp in E. congruence.
  - intros Hg Hl Hok. eexists. apply aggregated_data_ok.
    unfold aggregable. rewrite Hg, Hl. simpl.
    apply forallb_forall. intros v Hv.
    destruct (Hok v Hv) as [->|[s ->]]; reflexivity.
Qed.

Lemma names_must_be_text_witness :
  (exists e,
      aggregated_data "Tax Map Parcel ID" numeric_name_example = Raise e /\
      exists p, e = TypeError p) /\
  (exists out, aggregated_data "Tax Map Parcel ID" spec_example = Ok out).
Proof.
  split.
  - destruct (names_must_be_text "Tax Map Parcel ID" numeric_name_example) as [H _].
    destruct H as [e [He Ht]].
    + exists (Num 7). split; [right; left; reflexivity|].
      split; [discriminate | intros s; discriminate].
    + exists e. split; [exact He|]. apply Ht; reflexivity.
  - destruct (names_must_be_text "Tax Map Parcel ID" spec_example) as [_ H].
    apply H; [reflexivity | reflexivity |].
    intros v Hv.
    destruct Hv as [<-|[<-|[<-|[]]]]; right; eexists; reflexivity.
Defined.

(** C10. In the output row of a group, a field whose source cells are all
    missing in that group is the empty text. *)
Theorem all_missing_gives_empty_text (g : string) (data : DataFrame) (k : value) :
  aggregable g data = true ->
  In k (column_values g data) ->
  exists out r,
    aggregated_data g data = Ok out /\
    In r (rows out) /\ cell 0 r = k /\
    (forallb isna (group_values g k "Name" data) = true -> cell 1 r = Str "") /\
    (forallb isna (group_values g k "Acres in Unit" data) = true -> cell 2 r = Str "") /\
    (forallb isna (group_values g k "Gross acres" data) = true -> cell 3 r = Str "").
Proof.
  intros H Hk. eexists. exists (spec_row g data k).
  split; [apply aggregated_data_ok, H|]. cbn [rows]. split.
  - apply in_map. rewrite sort_keys_In, unique_In. exact Hk.
  - split; [reflexivity|].
    repeat split; intro E; unfold cell, spec_row; cbn [nth];
      now rewrite joined_distinct_all_missing.
Qed.

Lemma all_missing_gives_empty_text_witness :
  exists out r,
    aggregated_data "TPIN" missing_id_example = Ok out /\
    In r (rows out) /\ cell 0 r = Num 12 /\
    (forallb isna (group_values "TPIN" (Num 12) "Name" missing_id_example) = true ->
     cell 1 r = Str "") /\
    (forallb isna (group_values "TPIN" (Num 12) "Acres in Unit" missing_id_example) = true ->
     cell 2 r = Str "") /\
    (forallb isna (group_values "TPIN" (Num 12) "Gross acres" missing_id_example) = true ->
     cell 3 r = Str "").
Proof.
  apply (all_missing_gives_empty_text "TPIN" missing_id_example (Num 12)).
  - reflexivity.
  - simpl. auto.
Defined.

(** ** Aggregating an aggregated table *)

Lemma groupby_agg_unfold (g : string) (data : DataFrame) (jg jn ja jr : nat) :
  get_loc g (columns data) = Some jg ->
  get_loc "Name" (columns data) = Some jn ->
  get_loc "Acres in Unit" (columns data) = Some ja ->
  get_loc "Gross acres" (columns data) = Some jr ->
  groupby_agg g data
  = match agg_rows jg jn ja jr (rows data) (group_keys jg (rows data)) with
    | Raise e => Raise e
    | Ok out => Ok (mkFrame (g :: agg_labels) out)
    end.
Proof.
  intros Eg En Ea Er. unfold groupby_agg. now rewrite Eg, En, Ea, Er.
Qed.

Lemma group_rows_absent (f : value -> list value) (keys : list value) (k : value) :
  (forall k', cell 0 (f k') = k') -> ~ In k keys ->
  group_rows 0 k (map f keys) = [].
Proof.
  intros Hf. induction keys as [|h t IH]; intro Hn; [reflexivity|].
  simpl. rewrite Hf.
  destruct (value_eqb h k) eqn:E.
  - apply value_eqb_eq in E. subst. exfalso. apply Hn. now left.
  - apply IH. intro. apply Hn. now right.
Qed.

Lemma group_rows_singleton (f : value -> list value) (keys : list value) (k : value) :
  (forall k', cell 0 (f k') = k') -> NoDup keys -> In k keys ->
  group_rows 0 k (map f keys) = [f k].
Proof.
  intros Hf. induction keys as [|h t IH]; intros Hnd Hin; [contradiction|].
  inversion Hnd as [|? ? Hh Ht]; subst.
  simpl. rewrite Hf.
  destruct (value_eqb h k) eqn:E.
  - apply value_eqb_eq in E. subst.
    f_equal. now apply (group_rows_absent f t k).
  - destruct Hin as [->|Hin]; [now rewrite value_eqb_refl in E|].
    now apply IH.
Qed.

Lemma agg_name_single (s : string) : agg_name [Str s] = Ok s.
Proof. reflexivity. Qed.

Lemma agg_acres_single (s : string) : agg_acres [Str s] = s.
Proof. reflexivity. Qed.

Lemma reaggregate_rows (g : string) (f : value -> list value) (keys : list value) :
  In g ["Tax Map Parcel ID"; "TPIN"] ->
  (forall k, exists a b c, f k = [k; Str a; Str b; Str c]) ->
  NoDup keys -> Sorted value_le keys ->
  aggregated_data g (mkFrame [g; "Name"; "Acres in Unit"; "Gross acres"] (map f keys))
  = Ok (mkFrame [g; "Names"; "Acres in Unit"; "Gross Acres"] (map f keys)).
Proof.
  intros Hg Hf Hnd Hs.
  assert (Hkey : forall k', cell 0 (f k') = k').
  { intro k'. destruct (Hf k') as (a & b & c & ->). reflexivity. }
  assert (Hrows : agg_rows 0 1 2 3 (map f keys) (group_keys 0 (map f keys))
                  = Ok (map f keys)).
  { unfold group_keys. rewrite map_map.
    rewrite (map_ext _ (fun k => k) Hkey), map_id.
    rewrite unique_NoDup_id by assumption.
    rewrite sort_keys_sorted_id by assumption.
    apply agg_rows_intro. intros k Hk. unfold agg_row.
    rewrite (group_rows_singleton f keys k Hkey Hnd Hk).
    destruct (Hf k) as (a & b & c & ->). reflexivity. }
  unfold aggregated_data.
  destruct Hg as [<-|[<-|[]]].
  - rewrite (groupby_agg_unfold _ _ 0 1 2 3) by reflexivity.
    cbn [rows]. rewrite Hrows. reflexivity.
  - rewrite (groupby_agg_unfold _ _ 0 1 2 3) by reflexivity.
    cbn [rows]. rewrite Hrows. reflexivity.
Qed.

(** C7, as stated, fails: the table that the aggregation writes has no
    [Name] column, and the aggregation of that table raises. *)
Lemma reaggregation_raises :
  log (snd (aggregate_data (host := plain_host) "in.xlsx" "out.xlsx"
              (plain_world [("in.xlsx", [("Mapping", spec_example)])])))
  = [AddMessage "Loading sheet names from in.xlsx...";
     AddMessage "Using 'Mapping' sheet for processing.";
     AddMessage "Using 'Tax Map Parcel ID' as the grouping column.";
     AddMessage "Aggregating data...";
     AddMessage "Saving aggregated data to out.xlsx...";
     ToExcel "out.xlsx" aggregated_example;
     AddMessage "Aggregation complete for in.xlsx!"] /\
  fst (aggregate_data (host := plain_host) "out.xlsx" "again.xlsx"
         (plain_world [("out.xlsx", [("Mapping", aggregated_example)])]))
  = Raise (KeyError ["Name"]) /\
  aggregated_data "Tax Map Parcel ID" aggregated_example
  = Raise (KeyError ["Gross acres"; "Name"]).
Proof.
  split; [|split].
  - reflexivity.
  - reflexivity.
  - reflexivity.
Qed.

(** C7, amended. Once the labels of an aggregated table are mapped back to
    the labels of a source sheet ([Names] to [Name], [Gross Acres] to
    [Gross acres]), aggregating it by the same identifier column returns the
    aggregated table itself: the same rows in the same order under the same
    labels. *)
Theorem reaggregation_after_renaming (g : string) (data out : DataFrame) :
  In g ["Tax Map Parcel ID"; "TPIN"] ->
  aggregated_data g data = Ok out ->
  aggregated_data g (rename source_names out) = Ok out.
Proof.
  intros Hg H.
  assert (Hren : renamed output_names g = g)
    by (destruct Hg as [<-|[<-|[]]]; reflexivity).
  assert (Hsrc : renamed source_names g = g)
    by (destruct Hg as [<-|[<-|[]]]; reflexivity).
  destruct (aggregated_data_Ok_cases g data out H) as [Ha|Ha].
  - pose proof (aggregated_data_ok g data Ha) as Hout.
    rewrite Hren in Hout.
    assert (E : out = mkFrame [g; "Names"; "Acres in Unit"; "Gross Acres"]
                        (map (spec_row g data) (sort_keys (unique (column_values g data)))))
      by congruence.
    subst out. unfold rename. cbn [columns rows map].
    rewrite Hsrc.
    change (renamed source_names "Names") with "Name".
    change (renamed source_names "Acres in Unit") with "Acres in Unit".
    change (renamed source_names "Gross Acres") with "Gross acres".
    apply reaggregate_rows.
    + exact Hg.
    + intro k. unfold spec_row. eauto.
    + apply sort_keys_NoDup, unique_NoDup.
    + apply sort_keys_sorted.
  - pose proof (aggregated_data_one_row g data Ha) as Hout.
    assert (E : out = mkFrame ["index"; "Names"; "Acres in Unit"; "Gross Acres"]
                        [one_row_output g data]) by congruence.
    subst out. unfold rename, one_row_output. cbn [columns rows map].
    change (renamed source_names "index") with "index".
    change (renamed source_names "Names") with "Name".
    change (renamed source_names "Acres in Unit") with "Acres in Unit".
    change (renamed source_names "Gross Acres") with "Gross acres".
    generalize (joined_distinct ";" (column_values "Name" data)) as n.
    generalize (joined_distinct "," (column_values "Acres in Unit" data)) as a.
    generalize (joined_distinct "," (column_values "Gross acres" data)) as r.
    intros r a n.
    rewrite aggregated_data_one_row;
      destruct Hg as [<-|[<-|[]]]; reflexivity.
Qed.

Lemma reaggregation_after_renaming_witness :
  aggregated_data "Tax Map Parcel ID" (rename source_names aggregated_example)
  = Ok aggregated_example.
Proof.
  apply (reaggregation_after_renaming "Tax Map Parcel ID" spec_example aggregated_example).
  - simpl. auto.
  - reflexivity.
Defined.

(** ** Runs of [aggregate_data] *)

Ltac finish_run :=
  cbn [disk arc log]; rewrite <- ?app_assoc; cbn [app]; reflexivity.

Section Runs.

Context {G : Type} {host : Host G}.

Lemma aggregate_data_no_sheet (input output : string) (w : world G) (xl : workbook) :
  disk w input = Some xl ->
  choose_sheet (sheet_names xl) = None ->
  aggregate_data input output w
  = (Ok tt,
     logged w [AddMessage ("Loading sheet names from " +++ input +++ "...");
               AddError ("Neither 'Mapping' nor 'Lead List' sheet is present in "
                         +++ input +++ ".")]).
Proof.
  intros Hd Hs. unfold aggregate_data, bind, emit, ExcelFile, logged.
  cbn [disk arc log]. rewrite Hd, Hs. cbn [disk arc log].
  now rewrite <- app_assoc.
Qed.

Lemma aggregate_data_no_column (input output : string) (w : world G) (xl : workbook)
      (s : string) (data : DataFrame) :
  disk w input = Some xl ->
  choose_sheet (sheet_names xl) = Some s ->
  find_sheet s xl = Some data ->
  choose_group_column (strip_columns data) = None ->
  aggregate_data input output w
  = (Ok tt,
     logged w [AddMessage ("Loading sheet names from " +++ input +++ "...");
               AddMessage ("Using '" +++ s +++ "' sheet for processing.");
               AddError ("Neither 'Tax Map Parcel ID' nor 'TPIN' column is present in "
                         +++ input +++ ".")]).
Proof.
  intros Hd Hs Hf Hc. unfold aggregate_data, bind, emit, ExcelFile, parse, ret, logged.
  cbn [disk arc log]. rewrite Hd, Hs. cbn [disk arc log].
  rewrite Hf. cbn [disk arc log]. rewrite Hc. cbn [disk arc log].
  now rewrite <- !app_assoc.
Qed.

Lemma aggregate_data_run (input output : string) (w : world G) (xl : workbook)
      (s g : string) (data : DataFrame) :
  disk w input = Some xl ->
  choose_sheet (sheet_names xl) = Some s ->
  find_sheet s xl = Some data ->
  choose_group_column (strip_columns data) = Some g ->
  let d := strip_columns data in
  let start := [AddMessage ("Loading sheet names from " +++ input +++ "...");
                AddMessage ("Using '" +++ s +++ "' sheet for processing.");
                AddMessage ("Using '" +++ g +++ "' as the grouping column.")]
               ++ default_warnings input d ++ [AddMessage "Aggregating data..."] in
  aggregate_data input output w
  = match groupby_agg g (gross_default (acres_default d)) with
    | Raise e => (Raise e, logged w start)
    | Ok out =>
        if read_only output
        then (Raise (FileError output),
              logged w (start ++
                        [AddMessage ("Saving aggregated data to " +++ output +++ "...")]))
        else (Ok tt,
              logged (saved w output (rename output_names out))
                (start ++
                 [AddMessage ("Saving aggregated data to " +++ output +++ "...");
                  ToExcel output (rename output_names out);
                  AddMessage ("Aggregation complete for " +++ input +++ "!")]))
    end.
Proof.
  intros Hd Hs Hf Hc. cbv zeta. set (d := strip_columns data) in *.
  unfold aggregate_data, to_excel, bind, emit, ExcelFile, parse, ret, lift, logged, saved.
  cbn [disk arc log]. rewrite Hd, Hs. cbn [disk arc log].
  rewrite Hf. cbn [disk arc log]. cbv zeta. fold d. rewrite Hc.
  unfold default_warnings, gross_default, acres_default.
  destruct (has_column "Acres in Unit" d) eqn:Ea; cbn [negb disk arc log].
  - destruct (has_column "Gross acres" d) eqn:Er; cbn [negb disk arc log].
    + destruct (groupby_agg g d); [destruct (read_only output)|]; finish_run.
    + destruct (groupby_agg g (assign "Gross acres" (Str "") d));
        [destruct (read_only output)|]; finish_run.
  - destruct (has_column "Gross acres" (assign "Acres in Unit" (Str "") d)) eqn:Er;
      cbn [negb disk arc log].
    + destruct (groupby_agg g (assign "Acres in Unit" (Str "") d));
        [destruct (read_only output)|]; finish_run.
    + destruct (groupby_agg g (assign "Gross acres" (Str "")
                                 (assign "Acres in Unit" (Str "") d)));
        [destruct (read_only output)|]; finish_run.
Qed.

End Runs.

(** ** Default columns *)

Lemma fit_length (n : nat) (r : list value) : length (fit n r) = n.
Proof.
  unfold fit. rewrite length_firstn, length_app, repeat_length. lia.
Qed.

Lemma cell_fit (n j : nat) (r : list value) : j < n -> cell j (fit n r) = cell j r.
Proof.
  intro H. unfold cell, fit.
  rewrite nth_firstn.
  destruct (Nat.ltb_spec j n) as [_|C]; [|lia].
  destruct (Nat.lt_ge_cases j (length r)) as [L|L].
  - now rewrite app_nth1.
  - rewrite app_nth2 by assumption.
    rewrite (nth_overflow r) by assumption.
    apply nth_repeat.
Qed.

Lemma cell_assign_old (n j : nat) (r : list value) (v : value) :
  j < n -> cell j (fit n r ++ [v]) = cell j r.
Proof.
  intro H. rewrite <- (cell_fit n j r H). unfold cell.
  apply app_nth1. now rewrite fit_length.
Qed.

Lemma cell_assign_new (n : nat) (r : list value) (v : value) :
  cell n (fit n r ++ [v]) = v.
Proof.
  unfold cell. rewrite app_nth2; rewrite fit_length; [|lia].
  now rewrite Nat.sub_diag.
Qed.

Lemma get_loc_bound (l : string) (ls : list string) (j : nat) :
  get_loc l ls = Some j -> j < length ls.
Proof.
  revert j. induction ls as [|h t IH]; intro j; simpl; [discriminate|].
  destruct (String.eqb l h).
  - intros [= <-]. lia.
  - destruct (get_loc l t) as [i|]; [|discriminate].
    intros [= <-]. specialize (IH i eq_refl). lia.
Qed.

Lemma get_loc_app_old (l : string) (ls extra : list string) (j : nat) :
  get_loc l ls = Some j -> get_loc l (ls ++ extra) = Some j.
Proof.
  revert j. induction ls as [|h t IH]; intro j; simpl; [discriminate|].
  destruct (String.eqb l h); [auto|].
  destruct (get_loc l t) as [i|]; [|discriminate].
  intros [= <-]. now rewrite (IH i eq_refl).
Qed.

Lemma get_loc_app_new (l : string) (ls : list string) :
  get_loc l ls = None -> get_loc l (ls ++ [l]) = Some (length ls).
Proof.
  induction ls as [|h t IH]; simpl.
  - now rewrite String.eqb_refl.
  - destruct (String.eqb l h); [discriminate|].
    destruct (get_loc l t); [discriminate|].
    intros _. now rewrite IH.
Qed.

Lemma has_column_assign (l l' : string) (v : value) (data : DataFrame) :
  has_column l' (assign l v data) = has_column l' data || String.eqb l' l.
Proof.
  unfold has_column, assign. cbn [columns].
  rewrite existsb_app. simpl. now rewrite orb_false_r.
Qed.

Lemma column_values_assign_old (l l' : string) (v : value) (data : DataFrame) :
  has_column l' data = true ->
  column_values l' (assign l v data) = column_values l' data.
Proof.
  intro H. destruct (has_column_loc _ _ H) as [j Ej].
  unfold column_values, assign. cbn [columns rows].
  rewrite (get_loc_app_old _ _ _ _ Ej), Ej, map_map.
  apply map_ext. intro r. apply cell_assign_old.
  eapply get_loc_bound; eassumption.
Qed.

Lemma column_values_assign_new (l : string) (v x : value) (data : DataFrame) :
  has_column l data = false ->
  In x (column_values l (assign l v data)) -> x = v.
Proof.
  intros H Hx. unfold column_values, assign in Hx. cbn [columns rows] in Hx.
  rewrite (get_loc_app_new _ _ (has_column_false_loc _ _ H)), map_map in Hx.
  apply in_map_iff in Hx. destruct Hx as [r [<- _]].
  apply cell_assign_new.
Qed.

Lemma group_values_incl (g label : string) (k v : value) (data : DataFrame) :
  In v (group_values g k label data) -> In v (column_values label data).
Proof.
  unfold group_values. intro H.
  apply in_map_iff in H. destruct H as [[a b] [<- H]].
  apply filter_In in H. destruct H as [H _].
  eapply in_combine_r; eassumption.
Qed.

Lemma NoDup_constant (c : value) (l : list value) :
  NoDup l -> (forall v, In v l -> v = c) -> l = [] \/ l = [c].
Proof.
  intros Hnd Hc. destruct l as [|a [|b t]]; [now left | right | exfalso].
  - now rewrite (Hc a) by now left.
  - inversion Hnd as [|? ? Ha _]; subst. apply Ha.
    rewrite (Hc a), (Hc b); simpl; auto.
Qed.

Lemma joined_distinct_empty_texts (sep : string) (x : list value) :
  (forall v, In v x -> v = Str "") -> joined_distinct sep x = "".
Proof.
  intro H. unfold joined_distinct.
  destruct (NoDup_constant (Str "") (first_seen (remove value_eq_dec NaN x)))
    as [->| ->]; try reflexivity.
  - apply first_seen_NoDup.
  - intros v Hv. apply first_seen_In, in_remove in Hv. apply H, Hv.
Qed.

Lemma acres_default_has (l : string) (data : DataFrame) :
  has_column l data = true -> has_column l (acres_default data) = true.
Proof.
  intro H. unfold acres_default.
  destruct (has_column "Acres in Unit" data); [assumption|].
  now rewrite has_column_assign, H.
Qed.

Lemma gross_default_has (l : string) (data : DataFrame) :
  has_column l data = true -> has_column l (gross_default data) = true.
Proof.
  intro H. unfold gross_default.
  destruct (has_column "Gross acres" data); [assumption|].
  now rewrite has_column_assign, H.
Qed.

Lemma acres_default_present (data : DataFrame) :
  has_column "Acres in Unit" (acres_default data) = true.
Proof.
  unfold acres_default.
  destruct (has_column "Acres in Unit" data) eqn:E; [assumption|].
  rewrite has_column_assign. apply orb_true_r.
Qed.

Lemma gross_default_present (data : DataFrame) :
  has_column "Gross acres" (gross_default data) = true.
Proof.
  unfold gross_default.
  destruct (has_column "Gross acres" data) eqn:E; [assumption|].
  rewrite has_column_assign. apply orb_true_r.
Qed.

Lemma acres_default_column (l : string) (data : DataFrame) :
  has_column l data = true ->
  column_values l (acres_default data) = column_values l data.
Proof.
  intro H. unfold acres_default.
  destruct (has_column "Acres in Unit" data); [reflexivity|].
  now apply column_values_assign_old.
Qed.

Lemma gross_default_column (l : string) (data : DataFrame) :
  has_column l data = true ->
  column_values l (gross_default data) = column_values l data.
Proof.
  intro H. unfold gross_default.
  destruct (has_column "Gross acres" data); [reflexivity|].
  now apply column_values_assign_old.
Qed.

Lemma acres_default_values (data : DataFrame) (v : value) :
  has_column "Acres in Unit" data = false ->
  In v (column_values "Acres in Unit" (gross_default (acres_default data))) ->
  v = Str "".
Proof.
  intros H Hv.
  rewrite gross_default_column in Hv by apply acres_default_present.
  unfold acres_default in Hv. rewrite H in Hv.
  eapply column_values_assign_new; eassumption.
Qed.

Lemma gross_default_values (data : DataFrame) (v : value) :
  has_column "Gross acres" data = false ->
  In v (column_values "Gross acres" (gross_default (acres_default data))) ->
  v = Str "".
Proof.
  intros H Hv.
  assert (H1 : has_column "Gross acres" (acres_default data) = false).
  { unfold acres_default.
    destruct (has_column "Acres in Unit" data); [assumption|].
    rewrite has_column_assign, H. reflexivity. }
  unfold gross_default in Hv. rewrite H1 in Hv.
  eapply column_values_assign_new; eassumption.
Qed.

Lemma choose_group_column_has (data : DataFrame) (g : string) :
  choose_group_column data = Some g -> has_column g data = true.
Proof.
  unfold choose_group_column.
  destruct (has_column "Tax Map Parcel ID" data) eqn:E1.
  - now intros [= <-].
  - destruct (has_column "TPIN" data) eqn:E2; [now intros [= <-] | discriminate].
Qed.

Lemma choose_group_column_name (data : DataFrame) (g : string) :
  choose_group_column data = Some g -> In g ["Tax Map Parcel ID"; "TPIN"].
Proof.
  unfold choose_group_column.
  destruct (has_column "Tax Map Parcel ID" data).
  - intros [= <-]. simpl. auto.
  - destruct (has_column "TPIN" data); [|discriminate].
    intros [= <-]. simpl. auto.
Qed.

Lemma defaults_aggregable (g : string) (data : DataFrame) :
  has_column g data = true ->
  has_column "Name" data = true ->
  forallb name_ok (column_values "Name" data) = true ->
  aggregable g (gross_default (acres_default data)) = true.
Proof.
  intros Hg Hn Hok. unfold aggregable, agg_labels. cbn [forallb].
  assert (H1 : has_column g (gross_default (acres_default data)) = true)
    by (apply gross_default_has, acres_default_has; assumption).
  assert (H2 : has_column "Name" (gross_default (acres_default data)) = true)
    by (apply gross_default_has, acres_default_has; assumption).
  assert (H3 : has_column "Acres in Unit" (gross_default (acres_default data)) = true)
    by (apply gross_default_has, acres_default_present).
  rewrite H1, H2, H3, gross_default_present.
  rewrite gross_default_column by now apply acres_default_has.
  rewrite acres_default_column by assumption.
  now rewrite Hok.
Qed.

(** ** Missing columns *)

(** C4, as stated, fails: a sheet without a [Name] column makes the
    aggregation raise; no column is synthesized and no warning is given. *)
Lemma missing_name_column_raises :
  observe (aggregate_data (host := plain_host) "in.xlsx" "out.xlsx"
             (plain_world [("in.xlsx", [("Mapping", no_name_example)])]))
  = (Raise (KeyError ["Name"]), tt,
     [AddMessage "Loading sheet names from in.xlsx...";
      AddMessage "Using 'Mapping' sheet for processing.";
      AddMessage "Using 'TPIN' as the grouping column.";
      AddMessage "Aggregating data..."]).
Proof. reflexivity. Qed.

(** C4, amended. On a sheet with an identifier column and a [Name] column
    whose cells are missing or [str], the absence of an acreage column does
    not make [aggregate_data] fail: when the output path can be written, the
    run ends normally, reports no error, writes the aggregation of the sheet
    completed with the default columns to the output file, warns about each
    absent acreage column, and the output field of an absent acreage column
    is the empty text in every row. *)
Theorem missing_acreage_columns_default {G : Type} {host : Host G}
        (input output : string) (w : world G)
        (xl : workbook) (s g : string) (data : DataFrame) :
  disk w input = Some xl ->
  choose_sheet (sheet_names xl) = Some s ->
  find_sheet s xl = Some data ->
  choose_group_column (strip_columns data) = Some g ->
  has_column "Name" (strip_columns data) = true ->
  forallb name_ok (column_values "Name" (strip_columns data)) = true ->
  read_only output = false ->
  exists table events,
    aggregate_data input output w = (Ok tt, logged (saved w output table) events) /\
    aggregated_data g (gross_default (acres_default (strip_columns data))) = Ok table /\
    In (ToExcel output table) events /\
    (forall text, ~ In (AddError text) events) /\
    (has_column "Acres in Unit" (strip_columns data) = false ->
     In (AddWarning ("'Acres in Unit' column is missing in " +++ input
                     +++ ". Filling with empty strings.")) events /\
     forall r, In r (rows table) -> cell 2 r = Str "") /\
    (has_column "Gross acres" (strip_columns data) = false ->
     In (AddWarning ("'Gross acres' column is missing in " +++ input
                     +++ ". Filling with empty strings.")) events /\
     forall r, In r (rows table) -> cell 3 r = Str "").
Proof.
  intros Hd Hs Hf Hc Hn Hok Hro.
  set (d := strip_columns data) in *.
  pose proof (choose_group_column_has d g Hc) as Hg.
  pose proof (defaults_aggregable g d Hg Hn Hok) as Hagg.
  pose proof (aggregate_data_run input output w xl s g data Hd Hs Hf Hc) as Hrun.
  cbv zeta in Hrun. fold d in Hrun.
  rewrite (groupby_agg_ok _ _ Hagg), Hro in Hrun.
  eexists. eexists. split; [exact Hrun|].
  split; [apply aggregated_data_ok, Hagg|].
  split; [|split; [|split]].
  - rewrite !in_app_iff.
    assert (E : renamed output_names g = g)
      by (destruct (choose_group_column_name d g Hc) as [<-|[<-|[]]]; reflexivity).
    unfold rename. cbn [columns rows map agg_labels]. rewrite E.
    right. simpl. auto.
  - intros text. unfold default_warnings. rewrite !in_app_iff.
    destruct (has_column "Acres in Unit" d),
             (has_column "Gross acres" (acres_default d));
      simpl; intuition discriminate.
  - intro Ha. split.
    + unfold default_warnings. rewrite Ha. rewrite !in_app_iff.
      left. right. left. left. simpl. auto.
    + cbn [rows]. intros r Hr. apply in_map_iff in Hr. destruct Hr as [k [<- _]].
      unfold cell, spec_row. cbn [nth]. f_equal.
      apply joined_distinct_empty_texts. intros v Hv.
      apply (acres_default_values d v Ha).
      eapply group_values_incl; eassumption.
  - intro Hr0. split.
    + assert (H1 : has_column "Gross acres" (acres_default d) = false).
      { unfold acres_default.
        destruct (has_column "Acres in Unit" d); [assumption|].
        rewrite has_column_assign, Hr0. reflexivity. }
      unfold default_warnings. rewrite H1. rewrite !in_app_iff.
      left. right. left. right. simpl. auto.
    + cbn [rows]. intros r Hr. apply in_map_iff in Hr. destruct Hr as [k [<- _]].
      unfold cell, spec_row. cbn [nth]. f_equal.
      apply joined_distinct_empty_texts. intros v Hv.
      apply (gross_default_values d v Hr0).
      eapply group_values_incl; eassumption.
Qed.

Lemma missing_acreage_columns_default_witness :
  exists table events,
    aggregate_data (host := plain_host) "in.xlsx" "out.xlsx"
      (plain_world [("in.xlsx", [("Lead List", no_acreage_example)])])
    = (Ok tt,
       logged (saved (host := plain_host)
                 (plain_world [("in.xlsx", [("Lead List", no_acreage_example)])])
                 "out.xlsx" table) events) /\
    aggregated_data "TPIN" (gross_default (acres_default (strip_columns no_acreage_example)))
    = Ok table /\
    In (ToExcel "out.xlsx" table) events /\
    (forall text, ~ In (AddError text) events) /\
    (has_column "Acres in Unit" (strip_columns no_acreage_example) = false ->
     In (AddWarning ("'Acres in Unit' column is missing in " +++ "in.xlsx"
                     +++ ". Filling with empty strings.")) events /\
     forall r, In r (rows table) -> cell 2 r = Str "") /\
    (has_column "Gross acres" (strip_columns no_acreage_example) = false ->
     In (AddWarning ("'Gross acres' column is missing in " +++ "in.xlsx"
                     +++ ". Filling with empty strings.")) events /\
     forall r, In r (rows table) -> cell 3 r = Str "").
Proof.
  apply (missing_acreage_columns_default (host := plain_host) "in.xlsx" "out.xlsx"
           (plain_world [("in.xlsx", [("Lead List", no_acreage_example)])])
           [("Lead List", no_acreage_example)] "Lead List" "TPIN" no_acreage_example);
    reflexivity.
Defined.

(** ** Column labels are trimmed before they are looked up *)

Lemma rstrip_idempotent (s : string) : rstrip (rstrip s) = rstrip s.
Proof.
  induction s as [|c t IH]; [reflexivity|].
  simpl. destruct (rstrip t) as [|c' t'] eqn:E.
  - destruct (is_space c) eqn:Ec; [reflexivity|].
    simpl. now rewrite Ec.
  - simpl. simpl in IH. destruct (rstrip t') as [|c'' t''] eqn:E'.
    + destruct (is_space c'); [discriminate | now rewrite IH].
    + now rewrite IH.
Qed.

Lemma lstrip_head (s : string) :
  lstrip s = EmptyString \/ exists c t, lstrip s = String c t /\ is_space c = false.
Proof.
  induction s as [|c t IH]; [now left|].
  simpl. destruct (is_space c) eqn:E; [exact IH|].
  right. eauto.
Qed.

Lemma rstrip_head (c : ascii) (t : string) :
  is_space c = false -> exists t', rstrip (String c t) = String c t'.
Proof.
  intro H. simpl. destruct (rstrip t); [rewrite H|]; eauto.
Qed.

Lemma strip_idempotent (s : string) : strip (strip s) = strip s.
Proof.
  unfold strip. destruct (lstrip_head s) as [->|(c & t & -> & Hc)]; [reflexivity|].
  destruct (rstrip_head c t Hc) as [t' E].
  rewrite E. simpl lstrip. rewrite Hc, <- E.
  apply rstrip_idempotent.
Qed.

Lemma same_sheet_trimmed (xl : workbook) :
  Forall2 same_sheet xl (map (fun sh => (fst sh, strip_columns (snd sh))) xl).
Proof.
  induction xl as [|[n d] rest IH]; constructor; [|exact IH].
  unfold same_sheet, strip_columns. cbn [fst snd columns rows].
  repeat split. rewrite map_map. apply map_ext. intro l.
  symmetry. apply strip_idempotent.
Qed.

Lemma same_sheet_names (xl xl' : workbook) :
  Forall2 same_sheet xl xl' -> sheet_names xl = sheet_names xl'.
Proof.
  induction 1 as [|a b l l' [Hn _] _ IH]; [reflexivity|].
  unfold sheet_names in *. simpl. now rewrite Hn, IH.
Qed.

Lemma same_sheet_find (xl xl' : workbook) (s : string) :
  Forall2 same_sheet xl xl' ->
  option_map strip_columns (find_sheet s xl) = option_map strip_columns (find_sheet s xl').
Proof.
  induction 1 as [|[n d] [n' d'] l l' (Hn & Hr & Hc) _ IH]; [reflexivity|].
  cbn [fst snd] in *. subst n'. simpl.
  destruct (String.eqb s n); [|exact IH].
  simpl. unfold strip_columns. now rewrite Hr, Hc.
Qed.

Lemma choose_sheet_found (xl : workbook) (s : string) :
  choose_sheet (sheet_names xl) = Some s -> exists data, find_sheet s xl = Some data.
Proof.
  assert (H : forall n, existsb (String.eqb n) (sheet_names xl) = true ->
                        exists data, find_sheet n xl = Some data).
  { intros n. induction xl as [|[m d] rest IH]; simpl; [discriminate|].
    destruct (String.eqb n m); [eauto|]. exact IH. }
  unfold choose_sheet.
  destruct (existsb (String.eqb "Mapping") (sheet_names xl)) eqn:E1.
  - intros [= <-]. now apply H.
  - destruct (existsb (String.eqb "Lead List") (sheet_names xl)) eqn:E2; [|discriminate].
    intros [= <-]. now apply H.
Qed.

Lemma aggregate_data_copy_run {G : Type} {host : Host G}
      (input output sheet : string) (w : world G) (xl : workbook) :
  disk w input = Some xl ->
  aggregate_data_copy input output sheet w
  = match find_sheet sheet xl with
    | None => (Raise (ValueError sheet),
               logged w [Print ("Loading data from " +++ input +++ "...")])
    | Some data =>
        match groupby_agg "Tax Map Parcel ID" (strip_columns data) with
        | Raise e =>
            (Raise e, logged w [Print ("Loading data from " +++ input +++ "...");
                                Print "Aggregating data..."])
        | Ok out =>
            if read_only output
            then (Raise (FileError output),
                  logged w [Print ("Loading data from " +++ input +++ "...");
                            Print "Aggregating data...";
                            Print ("Saving aggregated data to " +++ output +++ "...")])
            else (Ok tt,
                  logged (saved w output (rename output_names out))
                    [Print ("Loading data from " +++ input +++ "...");
                     Print "Aggregating data...";
                     Print ("Saving aggregated data to " +++ output +++ "...");
                     ToExcel output (rename output_names out);
                     Print ("Aggregation complete for " +++ input +++ "!")])
        end
    end.
Proof.
  intro Hd.
  unfold aggregate_data_copy, read_excel, to_excel, bind, emit, ExcelFile, parse,
    raise, ret, lift, logged, saved.
  cbn [disk arc log]. rewrite Hd.
  destruct (find_sheet sheet xl) as [data|]; [|finish_run].
  cbn [disk arc log]. cbv zeta.
  destruct (groupby_agg "Tax Map Parcel ID" (strip_columns data));
    [destruct (read_only output)|]; finish_run.
Qed.

Lemma observe_logged {G A : Type} (r : outcome A) (w w' : world G) (events : list event) :
  arc w = arc w' -> log w = log w' ->
  observe (r, logged w events) = observe (r, logged w' events).
Proof.
  intros Ha Hl. unfold observe, logged. cbn [fst snd arc log]. now rewrite Ha, Hl.
Qed.

Lemma observe_saved {G A : Type} {host : Host G} (r : outcome A) (w w' : world G)
      (path : string) (table : DataFrame) (events : list event) :
  arc w = arc w' -> log w = log w' ->
  observe (r, logged (saved w path table) events)
  = observe (r, logged (saved w' path table) events).
Proof.
  intros Ha Hl. unfold observe, logged, saved. cbn [fst snd arc log]. now rewrite Ha, Hl.
Qed.

Lemma has_column_strip (label : string) (data : DataFrame) :
  has_column label (strip_columns data) = true <->
  exists l, In l (columns data) /\ strip l = label.
Proof.
  rewrite has_column_In. unfold strip_columns. cbn [columns].
  rewrite in_map_iff. split; intros [l [H1 H2]]; exists l; tauto.
Qed.

Lemma aggregate_data_succeeds {G : Type} {host : Host G}
      (input output : string) (w : world G) (xl : workbook) (s g : string)
      (data : DataFrame) :
  disk w input = Some xl ->
  choose_sheet (sheet_names xl) = Some s ->
  find_sheet s xl = Some data ->
  choose_group_column (strip_columns data) = Some g ->
  has_column "Name" (strip_columns data) = true ->
  forallb name_ok (column_values "Name" (strip_columns data)) = true ->
  read_only output = false ->
  exists table events,
    aggregate_data input output w = (Ok tt, logged (saved w output table) events) /\
    aggregated_data g (gross_default (acres_default (strip_columns data))) = Ok table /\
    In (AddMessage ("Using '" +++ g +++ "' as the grouping column.")) events /\
    In (ToExcel output table) events.
Proof.
  intros Hd Hs Hf Hc Hn Hok Hro.
  set (d := strip_columns data) in *.
  pose proof (choose_group_column_has d g Hc) as Hg.
  pose proof (defaults_aggregable g d Hg Hn Hok) as Hagg.
  pose proof (aggregate_data_run input output w xl s g data Hd Hs Hf Hc) as Hrun.
  cbv zeta in Hrun. fold d in Hrun.
  rewrite (groupby_agg_ok _ _ Hagg), Hro in Hrun.
  eexists. eexists. split; [exact Hrun|].
  split; [apply aggregated_data_ok, Hagg|]. split.
  - rewrite !in_app_iff. left. left. simpl. auto.
  - assert (E : renamed output_names g = g)
      by (destruct (choose_group_column_name d g Hc) as [<-|[<-|[]]]; reflexivity).
    unfold rename. cbn [columns rows map agg_labels]. rewrite E.
    rewrite !in_app_iff. right. simpl. auto.
Qed.

Lemma aggregate_data_copy_succeeds {G : Type} {host : Host G}
      (input output sheet : string) (w : world G) (xl : workbook) (data : DataFrame) :
  disk w input = Some xl ->
  find_sheet sheet xl = Some data ->
  aggregable "Tax Map Parcel ID" (strip_columns data) = true ->
  read_only output = false ->
  exists table,
    aggregate_data_copy input output sheet w
    = (Ok tt,
       logged (saved w output table)
         [Print ("Loading data from " +++ input +++ "...");
          Print "Aggregating data...";
          Print ("Saving aggregated data to " +++ output +++ "...");
          ToExcel output table;
          Print ("Aggregation complete for " +++ input +++ "!")]) /\
    aggregated_data "Tax Map Parcel ID" (strip_columns data) = Ok table.
Proof.
  intros Hd Hf Hagg Hro.
  rewrite (aggregate_data_copy_run input output sheet w xl Hd), Hf.
  unfold aggregated_data. rewrite (groupby_agg_ok _ _ Hagg), Hro.
  eexists. split; reflexivity.
Qed.

(** C6. Column labels are trimmed before any lookup.  A label is found in a
    sheet exactly when some label of the sheet equals it once trimmed.  A
    sheet whose identifier label is padded with white space is matched: the
    ArcGIS script chooses [Tax Map Parcel ID] as the grouping column, and
    both scripts end normally and write the aggregation of the sheet with
    its labels trimmed.  Two workbooks whose sheets differ only in the white
    space around their column labels are processed alike: same result, same
    log, same effect on the host, by [aggregate_data] of the ArcGIS script
    and by [aggregate_data] of the stand-alone scripts. *)
Theorem header_whitespace_ignored {G : Type} {host : Host G} (input output sheet : string)
        (w w' : world G) (xl xl' : workbook) :
  disk w input = Some xl ->
  disk w' input = Some xl' ->
  arc w = arc w' ->
  log w = log w' ->
  Forall2 same_sheet xl xl' ->
  (observe (aggregate_data input output w) = observe (aggregate_data input output w') /\
   observe (aggregate_data_copy input output sheet w)
   = observe (aggregate_data_copy input output sheet w')) /\
  (forall data label,
      has_column label (strip_columns data) = true <->
      exists l, In l (columns data) /\ strip l = label) /\
  (forall s data padded_id padded_name,
      choose_sheet (sheet_names xl) = Some s ->
      find_sheet s xl = Some data ->
      In padded_id (columns data) -> strip padded_id = "Tax Map Parcel ID" ->
      In padded_name (columns data) -> strip padded_name = "Name" ->
      forallb name_ok (column_values "Name" (strip_columns data)) = true ->
      read_only output = false ->
      exists table events,
        aggregate_data input output w = (Ok tt, logged (saved w output table) events) /\
        aggregated_data "Tax Map Parcel ID"
          (gross_default (acres_default (strip_columns data))) = Ok table /\
        In (AddMessage "Using 'Tax Map Parcel ID' as the grouping column.") events /\
        In (ToExcel output table) events) /\
  (forall data,
      find_sheet sheet xl = Some data ->
      (forall label, In label ["Tax Map Parcel ID"; "Name"; "Acres in Unit"; "Gross acres"] ->
                     exists l, In l (columns data) /\ strip l = label) ->
      forallb name_ok (column_values "Name" (strip_columns data)) = true ->
      read_only output = false ->
      exists table,
        aggregate_data_copy input output sheet w
        = (Ok tt,
           logged (saved w output table)
             [Print ("Loading data from " +++ input +++ "...");
              Print "Aggregating data...";
              Print ("Saving aggregated data to " +++ output +++ "...");
              ToExcel output table;
              Print ("Aggregation complete for " +++ input +++ "!")]) /\
        aggregated_data "Tax Map Parcel ID" (strip_columns data) = Ok table).
Proof.
  intros Hd Hd' Ha Hl Hsame.
  pose proof (same_sheet_names xl xl' Hsame) as Hnames.
  split; [split|split; [|split]].
  - destruct (choose_sheet (sheet_names xl)) as [s|] eqn:Es.
    + destruct (choose_sheet_found xl s Es) as [d Ed].
      assert (Es' : choose_sheet (sheet_names xl') = Some s) by now rewrite <- Hnames.
      destruct (choose_sheet_found xl' s Es') as [d' Ed'].
      pose proof (same_sheet_find xl xl' s Hsame) as Hfind.
      rewrite Ed, Ed' in Hfind. cbn [option_map] in Hfind.
      assert (Hstrip : strip_columns d = strip_columns d') by congruence.
      destruct (choose_group_column (strip_columns d)) as [g|] eqn:Eg.
      * rewrite (aggregate_data_run input output w xl s g d Hd Es Ed Eg).
        rewrite Hstrip in Eg.
        rewrite (aggregate_data_run input output w' xl' s g d' Hd' Es' Ed' Eg).
        cbv zeta. rewrite Hstrip.
        destruct (groupby_agg g (gross_default (acres_default (strip_columns d'))));
          [destruct (read_only output)|];
          first [now apply observe_logged | now apply observe_saved].
      * rewrite (aggregate_data_no_column input output w xl s d Hd Es Ed Eg).
        rewrite Hstrip in Eg.
        rewrite (aggregate_data_no_column input output w' xl' s d' Hd' Es' Ed' Eg).
        now apply observe_logged.
    + rewrite (aggregate_data_no_sheet input output w xl Hd Es).
      rewrite Hnames in Es.
      rewrite (aggregate_data_no_sheet input output w' xl' Hd' Es).
      now apply observe_logged.
  - rewrite (aggregate_data_copy_run input output sheet w xl Hd).
    rewrite (aggregate_data_copy_run input output sheet w' xl' Hd').
    pose proof (same_sheet_find xl xl' sheet Hsame) as Hfind.
    destruct (find_sheet sheet xl) as [d|], (find_sheet sheet xl') as [d'|];
      cbn [option_map] in Hfind; try discriminate.
    + assert (Hstrip : strip_columns d = strip_columns d') by congruence.
      rewrite Hstrip.
      destruct (groupby_agg "Tax Map Parcel ID" (strip_columns d'));
        [destruct (read_only output)|];
        first [now apply observe_logged | now apply observe_saved].
    + now apply observe_logged.
  - intros data label. apply has_column_strip.
  - intros s data padded_id padded_name Hs Hf Hi Hsi Hn Hsn Hok Hro.
    assert (Hg : has_column "Tax Map Parcel ID" (strip_columns data) = true)
      by (apply has_column_strip; eauto).
    assert (Hname : has_column "Name" (strip_columns data) = true)
      by (apply has_column_strip; eauto).
    assert (Hc : choose_group_column (strip_columns data) = Some "Tax Map Parcel ID")
      by (unfold choose_group_column; now rewrite Hg).
    exact (aggregate_data_succeeds input output w xl s "Tax Map Parcel ID" data
             Hd Hs Hf Hc Hname Hok Hro).
  - intros data Hf Hlabels Hok Hro.
    apply (aggregate_data_copy_succeeds input output sheet w xl data Hd Hf); [|exact Hro].
    unfold aggregable, agg_labels. cbn [forallb].
    rewrite !andb_true_iff.
    repeat split; try exact Hok; apply has_column_strip, Hlabels; simpl; auto.
Qed.

Lemma header_whitespace_ignored_witness :
  observe (aggregate_data (host := plain_host) "in.xlsx" "out.xlsx"
             (plain_world [("in.xlsx", [("Mapping", padded_header_example)])]))
  = observe (aggregate_data (host := plain_host) "in.xlsx" "out.xlsx"
               (plain_world [("in.xlsx", [("Mapping", trimmed_header_example)])])) /\
  observe (aggregate_data_copy (host := plain_host) "in.xlsx" "out.xlsx" "Mapping"
             (plain_world [("in.xlsx", [("Mapping", padded_header_example)])]))
  = observe (aggregate_data_copy (host := plain_host) "in.xlsx" "out.xlsx" "Mapping"
               (plain_world [("in.xlsx", [("Mapping", trimmed_header_example)])])) /\
  (exists table events,
      aggregate_data (host := plain_host) "in.xlsx" "out.xlsx"
        (plain_world [("in.xlsx", [("Mapping", padded_header_example)])])
      = (Ok tt,
         logged (saved (host := plain_host)
                   (plain_world [("in.xlsx", [("Mapping", padded_header_example)])])
                   "out.xlsx" table) events) /\
      aggregated_data "Tax Map Parcel ID"
        (gross_default (acres_default (strip_columns padded_header_example))) = Ok table /\
      In (AddMessage "Using 'Tax Map Parcel ID' as the grouping column.") events /\
      In (ToExcel "out.xlsx" table) events) /\
  (exists table,
      aggregate_data_copy (host := plain_host) "in.xlsx" "out.xlsx" "Mapping"
        (plain_world [("in.xlsx", [("Mapping", padded_header_example)])])
      = (Ok tt,
         logged (saved (host := plain_host)
                   (plain_world [("in.xlsx", [("Mapping", padded_header_example)])])
                   "out.xlsx" table)
           [Print ("Loading data from " +++ "in.xlsx" +++ "...");
            Print "Aggregating data...";
            Print ("Saving aggregated data to " +++ "out.xlsx" +++ "...");
            ToExcel "out.xlsx" table;
            Print ("Aggregation complete for " +++ "in.xlsx" +++ "!")]) /\
      aggregated_data "Tax Map Parcel ID" (strip_columns padded_header_example) = Ok table).
Proof.
  destruct (header_whitespace_ignored (host := plain_host) "in.xlsx" "out.xlsx" "Mapping"
              (plain_world [("in.xlsx", [("Mapping", padded_header_example)])])
              (plain_world [("in.xlsx", [("Mapping", trimmed_header_example)])])
              [("Mapping", padded_header_example)]
              [("Mapping", trimmed_header_example)]
              eq_refl eq_refl eq_refl eq_refl)
    as ([H1 H2] & _ & H3 & H4).
  - repeat constructor.
  - split; [exact H1|]. split; [exact H2|]. split.
    + apply (H3 "Mapping" padded_header_example " Tax Map Parcel ID " "Name");
        try reflexivity.
      * left. reflexivity.
      * right. left. reflexivity.
    + apply (H4 padded_header_example); try reflexivity.
      intros label [<-|[<-|[<-|[<-|[]]]]].
      * exists " Tax Map Parcel ID ". split; [left|]; reflexivity.
      * exists "Name". split; [right; left|]; reflexivity.
      * exists "Acres in Unit". split; [right; right; left|]; reflexivity.
      * exists "Gross acres". split; [right; right; right; left|]; reflexivity.
Defined.

(** ** Every step only adds to the log *)

Section Stable.

Context {G : Type} {host : Host G}.

Lemma stable_nothing {A : Type} (m : M G A) :
  (forall w, snd (m w) = w) -> stable m.
Proof. intros H w. exists []. now rewrite H, app_nil_r. Qed.

Lemma stable_ret {A : Type} (a : A) : stable (ret (G := G) a).
Proof. now apply stable_nothing. Qed.

Lemma stable_lift {A : Type} (r : outcome A) : stable (lift (G := G) r).
Proof. now apply stable_nothing. Qed.

Lemma stable_raise {A : Type} (e : exn) : stable (raise (G := G) (A := A) e).
Proof. now apply stable_nothing. Qed.

Lemma stable_emit (e : event) : stable (emit (G := G) e).
Proof. intro w. now exists [e]. Qed.

Lemma stable_to_excel (table : DataFrame) (path : string) : stable (to_excel table path).
Proof.
  intro w. unfold to_excel. destruct (read_only path).
  - exists []. cbn [snd]. now rewrite app_nil_r.
  - now exists [ToExcel path table].
Qed.

Lemma stable_makedirs (path : string) : stable (makedirs path).
Proof.
  intro w. unfold makedirs. destruct (makedirs_fails path).
  - exists []. cbn [snd]. now rewrite app_nil_r.
  - now exists [Makedirs path].
Qed.

Lemma stable_tool (call : event) (name : string) (run : world G -> option G) :
  stable (tool call name run).
Proof.
  intro w. unfold tool. destruct (run _); now exists [call].
Qed.

Lemma stable_list_fields (layer : string) : stable (list_fields layer).
Proof.
  intro w. unfold list_fields.
  destruct (ListFields _ _); now exists [CallListFields layer].
Qed.

Lemma stable_ExcelFile (path : string) : stable (ExcelFile (G := G) path).
Proof.
  apply stable_nothing. intro w. unfold ExcelFile. now destruct (disk w path).
Qed.

Lemma stable_parse (xl : workbook) (s : string) : stable (parse (G := G) xl s).
Proof.
  unfold parse. destruct (find_sheet s xl); [apply stable_ret | apply stable_raise].
Qed.

Lemma stable_bind {A B : Type} (m : M G A) (k : A -> M G B) :
  stable m -> (forall a, stable (k a)) -> stable (bind m k).
Proof.
  intros Hm Hk w. unfold bind.
  destruct (Hm w) as [ev Hl].
  destruct (m w) as [[a|e] w1]; cbn [snd] in *.
  - destruct (Hk a w1) as [ev' Hl'].
    exists (ev ++ ev'). now rewrite Hl', Hl, app_assoc.
  - now exists ev.
Qed.

Lemma stable_try {A : Type} (body : M G A) (handler : exn -> M G A) :
  stable body -> (forall e, stable (handler e)) -> stable (try_except body handler).
Proof.
  intros Hm Hk w. unfold try_except.
  destruct (Hm w) as [ev Hl].
  destruct (body w) as [[a|e] w1]; cbn [snd] in *.
  - now exists ev.
  - destruct (Hk e w1) as [ev' Hl'].
    exists (ev ++ ev'). now rewrite Hl', Hl, app_assoc.
Qed.

End Stable.

Ltac stable_step :=
  first
    [ apply stable_emit | apply stable_ret | apply stable_lift | apply stable_raise
    | apply stable_tool | apply stable_list_fields | apply stable_ExcelFile
    | apply stable_parse | apply stable_to_excel | apply stable_makedirs
    | apply stable_bind; [|intro]
    | apply stable_try; [|intro]
    | match goal with
      | |- stable (match ?x with _ => _ end) => destruct x
      end
    | progress cbv beta zeta ].

(** ** The only files that change are the tables that are written *)

Section Writes.

Context {G : Type} {host : Host G}.

Variable P : string -> Prop.

Lemma writes_nothing {A : Type} (m : M G A) :
  (forall w, disk (snd (m w)) = disk w) -> writes P m.
Proof. intros H w path. left. now rewrite H. Qed.

Lemma writes_ret {A : Type} (a : A) : writes P (ret (G := G) a).
Proof. now apply writes_nothing. Qed.

Lemma writes_lift {A : Type} (r : outcome A) : writes P (lift (G := G) r).
Proof. now apply writes_nothing. Qed.

Lemma writes_raise {A : Type} (e : exn) : writes P (raise (G := G) (A := A) e).
Proof. now apply writes_nothing. Qed.

Lemma writes_emit (e : event) : writes P (emit (G := G) e).
Proof. now apply writes_nothing. Qed.

Lemma writes_makedirs (path : string) : writes P (makedirs path).
Proof.
  apply writes_nothing. intro w. unfold makedirs. now destruct (makedirs_fails path).
Qed.

Lemma writes_tool (call : event) (name : string) (run : world G -> option G) :
  writes P (tool call name run).
Proof.
  apply writes_nothing. intro w. unfold tool. now destruct (run _).
Qed.

Lemma writes_list_fields (layer : string) : writes P (list_fields layer).
Proof.
  apply writes_nothing. intro w. unfold list_fields. now destruct (ListFields _ _).
Qed.

Lemma writes_ExcelFile (path : string) : writes P (ExcelFile (G := G) path).
Proof.
  apply writes_nothing. intro w. unfold ExcelFile. now destruct (disk w path).
Qed.

Lemma writes_parse (xl : workbook) (s : string) : writes P (parse (G := G) xl s).
Proof.
  unfold parse. destruct (find_sheet s xl); [apply writes_ret | apply writes_raise].
Qed.

Lemma writes_to_excel (table : DataFrame) (path : string) :
  P path -> writes P (to_excel table path).
Proof.
  intros HP w path'. unfold to_excel. destruct (read_only path); [now left|].
  cbn [snd disk]. unfold put.
  destruct (String.eqb_spec path' path) as [->|Hne]; [right | now left].
  split; [exact HP|]. now exists table.
Qed.

Lemma writes_bind {A B : Type} (m : M G A) (k : A -> M G B) :
  writes P m -> (forall a, writes P (k a)) -> writes P (bind m k).
Proof.
  intros Hm Hk w path. unfold bind.
  pose proof (Hm w path) as H1.
  destruct (m w) as [[a|e] w1]; cbn [snd] in *; [|exact H1].
  destruct (Hk a w1 path) as [H2|H2]; [|now right].
  rewrite H2. exact H1.
Qed.

Lemma writes_try {A : Type} (body : M G A) (handler : exn -> M G A) :
  writes P body -> (forall e, writes P (handler e)) -> writes P (try_except body handler).
Proof.
  intros Hm Hk w path. unfold try_except.
  pose proof (Hm w path) as H1.
  destruct (body w) as [[a|e] w1]; cbn [snd] in *; [exact H1|].
  destruct (Hk e w1 path) as [H2|H2]; [|now right].
  rewrite H2. exact H1.
Qed.

Lemma writes_for_each {A : Type} (xs : list A) (body : A -> M G unit) :
  (forall x, In x xs -> writes P (body x)) -> writes P (for_each xs body).
Proof.
  induction xs as [|x rest IH]; intro H; [apply writes_ret|].
  cbn [for_each]. apply writes_bind; [apply H; now left|].
  intros _. apply IH. intros y Hy. apply H. now right.
Qed.

End Writes.

Lemma writes_weaken {G A : Type} {host : Host G} (P Q : string -> Prop) (m : M G A) :
  (forall path, P path -> Q path) -> writes P m -> writes Q m.
Proof.
  intros H Hm w path. destruct (Hm w path) as [E|[HP E]]; [now left|].
  right. split; [now apply H | exact E].
Qed.


Ltac writes_step :=
  first
    [ apply writes_emit | apply writes_ret | apply writes_lift | apply writes_raise
    | apply writes_tool | apply writes_list_fields | apply writes_ExcelFile
    | apply writes_parse | apply writes_makedirs
    | apply writes_to_excel; reflexivity
    | apply writes_bind; [|intro]
    | apply writes_try; [|intro]
    | match goal with
      | |- writes _ (match ?x with _ => _ end) => destruct x
      end
    | progress cbv beta zeta ].

Section Batch.

Context {G : Type} {host : Host G}.

Lemma stable_aggregate_data (input output : string) :
  stable (aggregate_data (G := G) input output).
Proof. unfold aggregate_data. repeat stable_step. Qed.

Lemma stable_join_to_shapefile (shp excel gc out : string) :
  stable (join_to_shapefile shp excel gc out).
Proof. unfold join_to_shapefile. repeat stable_step. Qed.

Lemma stable_process (p : parameters) (f : string) : stable (process p f).
Proof.
  unfold process. apply stable_try.
  - apply stable_bind; [apply stable_aggregate_data | intro].
    apply stable_join_to_shapefile.
  - intro. apply stable_emit.
Qed.

Lemma writes_aggregate_data (input output : string) :
  writes (eq output) (aggregate_data (G := G) input output).
Proof. unfold aggregate_data. repeat writes_step. Qed.

Lemma writes_join_to_shapefile (P : string -> Prop) (shp excel gc out : string) :
  writes P (join_to_shapefile shp excel gc out).
Proof. unfold join_to_shapefile. repeat writes_step. Qed.

Lemma writes_process (p : parameters) (f : string) :
  writes (eq (output_file_of p f)) (process p f).
Proof.
  unfold process. apply writes_try.
  - apply writes_bind; [apply writes_aggregate_data | intro].
    apply writes_join_to_shapefile.
  - intro. apply writes_emit.
Qed.

Lemma process_returns (p : parameters) (f : string) (w : world G) :
  fst (process p f w) = Ok tt.
Proof.
  unfold process, try_except.
  destruct (bind _ _ w) as [[[]|e] w1]; reflexivity.
Qed.

Lemma starts_emit_bind {A : Type} (e : event) (k : unit -> M G A) :
  (forall a, stable (k a)) -> starts_with e (bind (emit e) k).
Proof.
  intros Hk w. unfold bind, emit.
  destruct (Hk tt (mkWorld (disk w) (arc w) (log w ++ [e]))) as [ev Hl].
  exists ev. rewrite Hl. cbn [log]. now rewrite <- app_assoc.
Qed.

Lemma starts_bind {A B : Type} (e : event) (m : M G A) (k : A -> M G B) :
  starts_with e m -> (forall a, stable (k a)) -> starts_with e (bind m k).
Proof.
  intros Hm Hk w. unfold bind. destruct (Hm w) as [ev Hl].
  destruct (m w) as [[a|x] w1]; cbn [snd] in *.
  - destruct (Hk a w1) as [ev' Hl'].
    exists (ev ++ ev'). rewrite Hl', Hl, <- app_assoc. reflexivity.
  - now exists ev.
Qed.

Lemma starts_try {A : Type} (e : event) (body : M G A) (handler : exn -> M G A) :
  starts_with e body -> (forall x, stable (handler x)) ->
  starts_with e (try_except body handler).
Proof.
  intros Hm Hk w. unfold try_except. destruct (Hm w) as [ev Hl].
  destruct (body w) as [[a|x] w1]; cbn [snd] in *.
  - now exists ev.
  - destruct (Hk x w1) as [ev' Hl'].
    exists (ev ++ ev'). rewrite Hl', Hl, <- app_assoc. reflexivity.
Qed.

Lemma process_loads (p : parameters) (f : string) :
  starts_with (AddMessage ("Loading sheet names from " +++ f +++ "...")) (process p f).
Proof.
  unfold process. apply starts_try; [|intro; apply stable_emit].
  apply starts_bind; [|intro; apply stable_join_to_shapefile].
  unfold aggregate_data. apply starts_emit_bind.
  intro. repeat stable_step.
Qed.

End Batch.

Section BatchLoop.

Context {G : Type} {host : Host G}.

Lemma for_each_process (p : parameters) (files : list string) (w : world G) :
  fst (for_each files (process p) w) = Ok tt /\
  (exists events, log (snd (for_each files (process p) w)) = log w ++ events) /\
  (forall f, In f files ->
             In (AddMessage ("Loading sheet names from " +++ f +++ "..."))
                (log (snd (for_each files (process p) w)))).
Proof.
  revert w. induction files as [|h t IH]; intro w.
  - simpl. repeat split; [exists []; now rewrite app_nil_r | contradiction].
  - cbn [for_each]. unfold bind.
    pose proof (process_returns p h w) as Hr.
    destruct (process_loads p h w) as [ev Hl].
    destruct (process p h w) as [[[]|e] w1]; cbn [fst snd] in *; [|discriminate].
    destruct (IH w1) as (Ir & [ev' Il] & If).
    split; [exact Ir|]. split.
    + exists (AddMessage ("Loading sheet names from " +++ h +++ "...") :: ev ++ ev').
      rewrite Il, Hl, <- app_assoc. reflexivity.
    + intros f [<-|Hf]; [|now apply If].
      rewrite Il, Hl, !in_app_iff. left. right. now left.
Qed.

Lemma writes_batch (p : parameters) (files : list string) :
  writes (fun path => exists f, In f files /\ path = output_file_of p f)
         (for_each files (process p)).
Proof.
  apply writes_for_each. intros f Hf.
  eapply writes_weaken; [|apply writes_process].
  intros path <-. now exists f.
Qed.






Lemma main_nonempty (p : parameters) (f : string) (rest : list string) (w : world G) :
  makedirs_fails (output_directory p) = false ->
  main p (f :: rest) w
  = for_each (f :: rest) (process p) (logged w [Makedirs (output_directory p)]).
Proof. intro H. unfold main, bind, makedirs. now rewrite H. Qed.

Lemma main_without_directory (p : parameters) (files : list string) (w : world G) :
  makedirs_fails (output_directory p) = true ->
  main p files w = (Raise (FileError (output_directory p)), w).
Proof. intro H. unfold main, bind, makedirs. now rewrite H. Qed.

(** ** Configuration errors and the batch loop *)


(** ** Validation of the join *)

(** C8. When the tools of the join have run and one of [Names], [Acres in
    Unit], [Gross Acres] is not among the fields of the joined layer,
    [join_to_shapefile] reports an error that lists the missing fields, which
    are exactly the required fields absent from the layer, and returns
    without calling [CopyFeatures]: the host is left as the join left it. *)
Theorem join_validation_failure (shp excel gc out : string) (w : world G)
        (g1 g2 : G) (fields : list string) :
  let table := splitext_root excel +++ ".dbf" in
  let e1 := [AddMessage ("Joining data from " +++ excel +++ " to " +++ shp +++ "...");
             CallExcelToTable excel table] in
  let e2 := e1 ++ [CallAddJoin shp gc table gc] in
  let e3 := e2 ++ [AddMessage "Join operation completed."; CallListFields shp] in
  let e4 := e3 ++ [AddError ("Join validation failed. Missing fields: "
                             +++ String.concat ", " (missing_fields fields) +++ ".")] in
  ExcelToTable excel table (mkWorld (disk w) (arc w) (log w ++ e1)) = Some g1 ->
  AddJoin shp gc table gc (mkWorld (disk w) g1 (log w ++ e2)) = Some g2 ->
  ListFields shp (mkWorld (disk w) g2 (log w ++ e3)) = Some fields ->
  missing_fields fields <> [] ->
  join_to_shapefile shp excel gc out w = (Ok tt, mkWorld (disk w) g2 (log w ++ e4)) /\
  (forall f, In f (missing_fields fields) <-> In f required_fields /\ ~ In f fields) /\
  (forall layer output, ~ In (CallCopyFeatures layer output) e4).
Proof.
  intros table e1 e2 e3 e4 H1 H2 H3 Hm. split; [|split].
  - unfold join_to_shapefile, bind, emit, tool, list_fields.
    cbn [disk arc log]. fold table.
    rewrite <- !app_assoc. cbn [app].
    subst e4 e3 e2 e1. cbn [app] in *.
    rewrite H1. cbn [disk arc log]. rewrite <- !app_assoc. cbn [app].
    rewrite H2. cbn [disk arc log]. rewrite <- !app_assoc. cbn [app].
    rewrite H3. cbn [disk arc log].
    destruct (missing_fields fields) as [|m ms] eqn:E; [contradiction|].
    cbn [disk arc log]. rewrite <- !app_assoc. cbn [app]. reflexivity.
  - intro f. unfold missing_fields. rewrite filter_In, negb_true_iff.
    split; intros [Hr Hn]; (split; [assumption|]).
    + intro Hin. assert (existsb (String.eqb f) fields = true); [|congruence].
      apply existsb_exists. exists f. split; [assumption | apply String.eqb_refl].
    + destruct (existsb (String.eqb f) fields) eqn:E; [|reflexivity].
      exfalso. apply Hn. apply existsb_exists in E. destruct E as [x [Hx E]].
      apply String.eqb_eq in E. now subst.
  - intros layer output. subst e4 e3 e2 e1. simpl. intuition discriminate.
Qed.

End BatchLoop.

Section JoinPasses.

Context {G : Type} {host : Host G}.

(** The other branch of the validation: with the three fields on the joined
    layer the export is called. *)
Lemma join_validation_success (shp excel gc out : string) (w : world G)
      (g1 g2 g3 : G) (fields : list string) :
  let table := splitext_root excel +++ ".dbf" in
  let e1 := [AddMessage ("Joining data from " +++ excel +++ " to " +++ shp +++ "...");
             CallExcelToTable excel table] in
  let e2 := e1 ++ [CallAddJoin shp gc table gc] in
  let e3 := e2 ++ [AddMessage "Join operation completed."; CallListFields shp] in
  let e4 := e3 ++ [AddMessage ("Join validation passed. Exporting to " +++ out +++ "...");
                   CallCopyFeatures shp out] in
  ExcelToTable excel table (mkWorld (disk w) (arc w) (log w ++ e1)) = Some g1 ->
  AddJoin shp gc table gc (mkWorld (disk w) g1 (log w ++ e2)) = Some g2 ->
  ListFields shp (mkWorld (disk w) g2 (log w ++ e3)) = Some fields ->
  missing_fields fields = [] ->
  CopyFeatures shp out (mkWorld (disk w) g2 (log w ++ e4)) = Some g3 ->
  join_to_shapefile shp excel gc out w
  = (Ok tt,
     mkWorld (disk w) g3
       (log w ++ e4 ++ [AddMessage ("Joined data saved to " +++ out +++ ".")])).
Proof.
  intros table e1 e2 e3 e4 H1 H2 H3 Hm H4.
  unfold join_to_shapefile, bind, emit, tool, list_fields.
  cbn [disk arc log]. fold table.
  rewrite <- !app_assoc. cbn [app].
  subst e4 e3 e2 e1. cbn [app] in *.
  rewrite H1. cbn [disk arc log]. rewrite <- !app_assoc. cbn [app].
  rewrite H2. cbn [disk arc log]. rewrite <- !app_assoc. cbn [app].
  rewrite H3. cbn [disk arc log]. rewrite Hm.
  cbn [disk arc log]. rewrite <- !app_assoc. cbn [app].
  rewrite H4. cbn [disk arc log]. rewrite <- !app_assoc. cbn [app]. reflexivity.
Qed.

End JoinPasses.

(** ** The scripts on a small host *)


Lemma join_validation_failure_witness :
  join_to_shapefile (host := dbase_host) "parcels.shp" "out.xlsx" "TPIN" "joined.shp"
    (mkWorld (on_disk []) ["FID"; "TPIN"] [ToExcel "out.xlsx" aggregated_example])
  = (Ok tt,
     mkWorld (on_disk []) ["FID"; "TPIN"; "Names"; "Acres_in_U"; "Gross_Acre"]
       [ToExcel "out.xlsx" aggregated_example;
        AddMessage "Joining data from out.xlsx to parcels.shp...";
        CallExcelToTable "out.xlsx" "out.xlsx.dbf";
        CallAddJoin "parcels.shp" "TPIN" "out.xlsx.dbf" "TPIN";
        AddMessage "Join operation completed.";
        CallListFields "parcels.shp";
        AddError "Join validation failed. Missing fields: Acres in Unit, Gross Acres."]).
Proof.
  destruct (join_validation_failure (host := dbase_host)
              "parcels.shp" "out.xlsx" "TPIN" "joined.shp"
              (mkWorld (on_disk []) ["FID"; "TPIN"] [ToExcel "out.xlsx" aggregated_example])
              ["FID"; "TPIN"]
              ["FID"; "TPIN"; "Names"; "Acres_in_U"; "Gross_Acre"]
              ["FID"; "TPIN"; "Names"; "Acres_in_U"; "Gross_Acre"])
    as [H _].
  - reflexivity.
  - reflexivity.
  - reflexivity.
  - discriminate.
  - exact H.
Defined.

(** * Further properties of the aggregation *)

(** ** Success, shape and size of the aggregated table *)

(** The aggregation succeeds exactly on two kinds of tables: those that have
    the identifier column and the three source columns and whose [Name]
    cells are all missing or [str]; and those of one row without the
    identifier column that have the three source columns and such a name. *)
Theorem aggregation_succeeds_iff (g : string) (data : DataFrame) :
  (exists out, aggregated_data g data = Ok out) <->
  (aggregable g data = true \/ one_row_case g data = true).
Proof.
  split.
  - intros [out H]. eapply aggregated_data_Ok_cases; eassumption.
  - intros [H|H]; eexists.
    + apply aggregated_data_ok, H.
    + apply aggregated_data_one_row, H.
Qed.

(** Whatever table the aggregation returns has four columns, of which the
    last three are [Names], [Acres in Unit] and [Gross Acres], and every row
    holds a key and three texts: no aggregated field is ever missing.  The
    first column is the identifier column, or, for the one-row sheet
    without that column, a column [index] whose one cell is the text of the
    identifier label. *)
Theorem aggregated_table_shape (g : string) (data out : DataFrame) :
  aggregated_data g data = Ok out ->
  ((has_column g data = true /\
    columns out = [renamed output_names g; "Names"; "Acres in Unit"; "Gross Acres"]) \/
   (has_column g data = false /\
    columns out = ["index"; "Names"; "Acres in Unit"; "Gross Acres"] /\
    rows out = [one_row_output g data])) /\
  forall r, In r (rows out) -> exists k a b c, r = [k; Str a; Str b; Str c].
Proof.
  intro H. destruct (aggregated_data_Ok_cases g data out H) as [Ha|Ha].
  - rewrite (aggregated_data_ok g data Ha) in H.
    assert (E : out = mkFrame [renamed output_names g; "Names"; "Acres in Unit"; "Gross Acres"]
                        (map (spec_row g data) (sort_keys (unique (column_values g data)))))
      by congruence.
    subst out. cbn [columns rows]. split.
    + left. split; [|reflexivity].
      unfold aggregable in Ha. rewrite !andb_true_iff in Ha. tauto.
    + intros r Hr. apply in_map_iff in Hr. destruct Hr as [k [<- _]].
      unfold spec_row. eauto.
  - rewrite (aggregated_data_one_row g data Ha) in H.
    assert (E : out = mkFrame ["index"; "Names"; "Acres in Unit"; "Gross Acres"]
                        [one_row_output g data]) by congruence.
    subst out. cbn [columns rows]. split.
    + right. split; [|split; reflexivity].
      unfold one_row_case in Ha. rewrite !andb_true_iff, negb_true_iff in Ha. tauto.
    + intros r [<-|[]]. unfold one_row_output. eauto.
Qed.

Lemma aggregated_table_shape_witness :
  ((has_column "Tax Map Parcel ID" one_row_example = true /\
    columns (mkFrame ["index"; "Names"; "Acres in Unit"; "Gross Acres"]
               [[Str "Tax Map Parcel ID"; Str "Smith"; Str "10.5"; Str "40"]])
    = [renamed output_names "Tax Map Parcel ID"; "Names"; "Acres in Unit"; "Gross Acres"]) \/
   (has_column "Tax Map Parcel ID" one_row_example = false /\
    columns (mkFrame ["index"; "Names"; "Acres in Unit"; "Gross Acres"]
               [[Str "Tax Map Parcel ID"; Str "Smith"; Str "10.5"; Str "40"]])
    = ["index"; "Names"; "Acres in Unit"; "Gross Acres"] /\
    rows (mkFrame ["index"; "Names"; "Acres in Unit"; "Gross Acres"]
            [[Str "Tax Map Parcel ID"; Str "Smith"; Str "10.5"; Str "40"]])
    = [one_row_output "Tax Map Parcel ID" one_row_example])) /\
  forall r,
    In r (rows (mkFrame ["index"; "Names"; "Acres in Unit"; "Gross Acres"]
                  [[Str "Tax Map Parcel ID"; Str "Smith"; Str "10.5"; Str "40"]])) ->
    exists k a b c, r = [k; Str a; Str b; Str c].
Proof.
  apply (aggregated_table_shape "Tax Map Parcel ID" one_row_example).
  reflexivity.
Defined.

Lemma unique_length_le (x : list value) : length (unique x) <= length x.
Proof.
  apply NoDup_incl_length; [apply unique_NoDup|].
  intros v Hv. now apply unique_In.
Qed.

Lemma column_values_length (g : string) (data : DataFrame) :
  has_column g data = true -> length (column_values g data) = length (rows data).
Proof.
  intro H. destruct (has_column_loc _ _ H) as [j Ej].
  unfold column_values. rewrite Ej. apply length_map.
Qed.

Lemma aggregable_has_group (g : string) (data : DataFrame) :
  aggregable g data = true -> has_column g data = true.
Proof.
  unfold aggregable. rewrite !andb_true_iff. tauto.
Qed.

(** The aggregated table never has more rows than the source, and it has as
    many when the identifiers of the source are pairwise different; an empty
    sheet gives an empty table. *)
Theorem aggregated_rows_bound (g : string) (data : DataFrame) :
  aggregable g data = true ->
  exists out,
    aggregated_data g data = Ok out /\
    length (rows out) <= length (rows data) /\
    (NoDup (column_values g data) -> length (rows out) = length (rows data)) /\
    (rows data = [] -> rows out = []).
Proof.
  intro H. eexists. split; [apply aggregated_data_ok, H|].
  pose proof (column_values_length g data (aggregable_has_group g data H)) as Hlen.
  cbn [rows]. rewrite length_map, (Permutation_length (sort_keys_perm _)).
  split; [|split].
  - rewrite <- Hlen. apply unique_length_le.
  - intro Hnd. now rewrite unique_NoDup_id.
  - intro He. rewrite He in Hlen.
    destruct (column_values g data); [reflexivity | discriminate].
Qed.

Lemma aggregated_rows_bound_witness :
  exists out,
    aggregated_data "Tax Map Parcel ID" spec_example = Ok out /\
    length (rows out) <= length (rows spec_example) /\
    (NoDup (column_values "Tax Map Parcel ID" spec_example) ->
     length (rows out) = length (rows spec_example)) /\
    (rows spec_example = [] -> rows out = []).
Proof.
  apply (aggregated_rows_bound "Tax Map Parcel ID" spec_example). reflexivity.
Defined.

(** ** The place of the missing identifier *)

Lemma value_le_refl (a : value) : value_le a a.
Proof. destruct (value_le_total a a); assumption. Qed.

Lemma value_le_NaN (a : value) : value_le NaN a -> a = NaN.
Proof. unfold value_le, value_leb. destruct a; cbn [as_number]; congruence. Qed.

Lemma sorted_last (l : list value) (x : value) :
  StronglySorted value_le l -> In x l -> value_le x (last l NaN).
Proof.
  induction 1 as [|h t Hs IH Hh]; intro Hx; [contradiction|].
  destruct t as [|h' t'].
  - destruct Hx as [<-|[]]. apply value_le_refl.
  - change (last (h :: h' :: t') NaN) with (last (h' :: t') NaN).
    destruct Hx as [<-|Hx]; [|now apply IH].
    rewrite Forall_forall in Hh. apply Hh.
    clear. generalize h'. induction t' as [|a t IH]; intro b; simpl; [auto|].
    right. apply IH.
Qed.

(** When some row of the source has no identifier, the group of the missing
    identifier is the last row of the aggregated table. *)
Theorem missing_identifier_group_is_last (g : string) (data : DataFrame) :
  aggregable g data = true ->
  In NaN (column_values g data) ->
  exists out,
    aggregated_data g data = Ok out /\
    last (rows out) [] = spec_row g data NaN.
Proof.
  intros H Hin. eexists. split; [apply aggregated_data_ok, H|].
  cbn [rows].
  set (keys := sort_keys (unique (column_values g data))).
  assert (Hk : In NaN keys) by (unfold keys; now rewrite sort_keys_In, unique_In).
  assert (Hl : last keys NaN = NaN).
  { apply value_le_NaN, sorted_last; [apply sort_keys_strongly_sorted | exact Hk]. }
  assert (Hne : keys <> []) by (intro E; rewrite E in Hk; contradiction).
  clear Hk. revert Hl Hne. generalize keys. intro l.
  induction l as [|h t IH]; intros Hl Hne; [congruence|].
  destruct t as [|h' t'].
  - simpl in *. now subst.
  - change (last (map (spec_row g data) (h :: h' :: t')) [])
      with (last (map (spec_row g data) (h' :: t')) []).
    apply IH; [exact Hl | discriminate].
Qed.

Lemma missing_identifier_group_is_last_witness :
  exists out,
    aggregated_data "TPIN" missing_id_example = Ok out /\
    last (rows out) [] = spec_row "TPIN" missing_id_example NaN.
Proof.
  apply (missing_identifier_group_is_last "TPIN" missing_id_example).
  - reflexivity.
  - left. reflexivity.
Defined.

(** ** The order of the source rows and repeated rows *)

Lemma sorted_same_elements (l1 l2 : list value) :
  StronglySorted value_le l1 -> StronglySorted value_le l2 ->
  NoDup l1 -> NoDup l2 ->
  (forall x, In x l1 <-> In x l2) ->
  l1 = l2.
Proof.
  intros H1. revert l2. induction H1 as [|h1 t1 Hs1 IH Hh1]; intros l2 H2 N1 N2 Hin.
  - destruct l2 as [|h2 t2]; [reflexivity|].
    exfalso. apply (Hin h2). now left.
  - destruct H2 as [|h2 t2 Hs2 Hh2].
    + exfalso. apply (Hin h1). now left.
    + rewrite Forall_forall in Hh1, Hh2.
      inversion N1 as [|? ? Nh1 Nt1]; subst.
      inversion N2 as [|? ? Nh2 Nt2]; subst.
      assert (E : h1 = h2).
      { assert (A : In h1 (h2 :: t2)) by (apply Hin; now left).
        assert (B : In h2 (h1 :: t1)) by (apply Hin; now left).
        destruct A as [A|A]; [now symmetry|].
        destruct B as [B|B]; [assumption|].
        apply value_le_antisym; auto. }
      subst h2. f_equal. apply IH; try assumption.
      intro x. split; intro Hx.
      * assert (A : In x (h1 :: t2)) by (apply Hin; now right).
        destruct A as [<-|A]; [contradiction | assumption].
      * assert (A : In x (h1 :: t1)) by (apply Hin; now right).
        destruct A as [<-|A]; [contradiction | assumption].
Qed.

Lemma group_keys_permutation (jg : nat) (r1 r2 : list (list value)) :
  Permutation r1 r2 -> group_keys jg r1 = group_keys jg r2.
Proof.
  intro Hp. apply sorted_same_elements.
  - apply sort_keys_strongly_sorted.
  - apply sort_keys_strongly_sorted.
  - apply group_keys_NoDup.
  - apply group_keys_NoDup.
  - intro x. rewrite !group_keys_In.
    split; apply Permutation_in; [|apply Permutation_sym]; now apply Permutation_map.
Qed.

Lemma forallb_permutation {A : Type} (f : A -> bool) (l1 l2 : list A) :
  Permutation l1 l2 -> forallb f l1 = true -> forallb f l2 = true.
Proof.
  intros Hp H. rewrite forallb_forall in *. intros x Hx.
  apply H. eapply Permutation_in; [apply Permutation_sym|]; eassumption.
Qed.

(** The identifier column of the aggregated table does not depend on the
    order of the rows of the source: two sheets with the same labels whose
    rows are a rearrangement of each other are aggregated into tables with
    the same identifiers in the same order. *)
Theorem identifiers_independent_of_row_order (g : string) (labels : list string)
        (rows1 rows2 : list (list value)) :
  aggregable g (mkFrame labels rows1) = true ->
  Permutation rows1 rows2 ->
  exists out1 out2,
    aggregated_data g (mkFrame labels rows1) = Ok out1 /\
    aggregated_data g (mkFrame labels rows2) = Ok out2 /\
    columns out1 = columns out2 /\
    map (cell 0) (rows out1) = map (cell 0) (rows out2).
Proof.
  intros H Hp.
  assert (H2 : aggregable g (mkFrame labels rows2) = true).
  { destruct (aggregable_inv _ _ H) as (jg & jn & ja & jr & Eg & En & Ea & Er & Hok).
    unfold aggregable in *. rewrite !andb_true_iff in *.
    destruct H as [[Hg Hl] _]. split; [split; assumption|].
    unfold column_values in *. cbn [columns rows] in *. rewrite En.
    eapply forallb_permutation; [|exact Hok]. now apply Permutation_map. }
  eexists. eexists.
  split; [apply aggregated_data_ok, H|].
  split; [apply aggregated_data_ok, H2|].
  cbn [columns rows]. split; [reflexivity|].
  rewrite !key_of_spec_rows.
  destruct (aggregable_inv _ _ H) as (jg & _ & _ & _ & Eg & _).
  unfold column_values. cbn [columns rows] in *. rewrite Eg.
  now apply (group_keys_permutation jg).
Qed.

Lemma identifiers_independent_of_row_order_witness :
  exists out1 out2,
    aggregated_data "Tax Map Parcel ID"
      (mkFrame (columns unsorted_example) (rows unsorted_example)) = Ok out1 /\
    aggregated_data "Tax Map Parcel ID"
      (mkFrame (columns unsorted_example) (rev (rows unsorted_example))) = Ok out2 /\
    columns out1 = columns out2 /\
    map (cell 0) (rows out1) = map (cell 0) (rows out2).
Proof.
  apply (identifiers_independent_of_row_order "Tax Map Parcel ID"
           (columns unsorted_example) (rows unsorted_example)
           (rev (rows unsorted_example))).
  - reflexivity.
  - apply Permutation_rev.
Defined.

Lemma scan_all_seen (seen y : list value) :
  (forall v, In v y -> In v seen) -> scan seen y = [].
Proof.
  induction y as [|h t IH]; intro H; [reflexivity|].
  simpl. assert (E : existsb (value_eqb h) seen = true)
    by (apply mem_In, H; now left).
  rewrite E. apply IH. intros v Hv. apply H. now right.
Qed.

Lemma scan_app_seen (x y seen : list value) :
  (forall v, In v y -> In v x \/ In v seen) -> scan seen (x ++ y) = scan seen x.
Proof.
  revert seen. induction x as [|h t IH]; intros seen H.
  - simpl. apply scan_all_seen. intros v Hv. destruct (H v Hv); [contradiction | assumption].
  - simpl. destruct (existsb (value_eqb h) seen) eqn:E.
    + apply IH. intros v Hv. destruct (H v Hv) as [[<-|Ht]|Hs]; auto.
      right. now apply mem_In.
    + f_equal. apply IH. intros v Hv.
      destruct (H v Hv) as [[<-|Ht]|Hs]; simpl; auto.
Qed.

Lemma unique_app_seen (x y : list value) :
  incl y x -> unique (x ++ y) = unique x.
Proof.
  intro H. rewrite !unique_scan. apply scan_app_seen. intros v Hv. left. now apply H.
Qed.

Lemma agg_rows_ext (jg jn ja jr : nat) (rs rs' : list (list value)) (keys : list value) :
  (forall k, agg_row jg jn ja jr rs k = agg_row jg jn ja jr rs' k) ->
  agg_rows jg jn ja jr rs keys = agg_rows jg jn ja jr rs' keys.
Proof.
  intro H. induction keys as [|k t IH]; [reflexivity|].
  simpl. now rewrite H, IH.
Qed.

Lemma group_cells_repeated (jg j : nat) (k : value) (rs extra : list (list value)) :
  incl extra rs ->
  unique (dropna (map (cell j) (group_rows jg k (rs ++ extra))))
  = unique (dropna (map (cell j) (group_rows jg k rs))).
Proof.
  intro H. unfold group_rows, dropna. rewrite filter_app, map_app, filter_app.
  apply unique_app_seen. intros v Hv.
  apply filter_In in Hv. destruct Hv as [Hv Hn].
  apply in_map_iff in Hv. destruct Hv as [r [<- Hr]].
  apply filter_In in Hr. destruct Hr as [Hr Hk].
  apply filter_In. split; [|assumption].
  apply in_map, filter_In. split; [now apply H | assumption].
Qed.

(** Rows that repeat rows already in the sheet change nothing: the
    aggregation of the sheet with such rows appended is the aggregation of
    the sheet, be it a table or an exception.  The one exception is set
    aside by the hypothesis: a sheet of one row without the identifier
    column, which is aggregated as long as it has one row only. *)
Theorem repeated_rows_change_nothing (g : string) (labels : list string)
        (rs extra : list (list value)) :
  In g labels \/ length rs <> 1 ->
  incl extra rs ->
  aggregated_data g (mkFrame labels (rs ++ extra)) = aggregated_data g (mkFrame labels rs).
Proof.
  intros Hg H. unfold aggregated_data, groupby_agg. cbn [columns rows].
  destruct (get_loc g labels) as [jg|] eqn:Eg.
  - destruct (get_loc "Name" labels) as [jn|],
             (get_loc "Acres in Unit" labels) as [ja|],
             (get_loc "Gross acres" labels) as [jr|]; try reflexivity.
    assert (Hkeys : group_keys jg (rs ++ extra) = group_keys jg rs).
    { unfold group_keys. rewrite map_app. f_equal. apply unique_app_seen.
      intros v Hv. apply in_map_iff in Hv. destruct Hv as [r [<- Hr]].
      apply in_map. now apply H. }
    rewrite Hkeys.
    rewrite (agg_rows_ext jg jn ja jr (rs ++ extra) rs); [reflexivity|].
    intro k. unfold agg_row, agg_name, agg_acres.
    now rewrite !(group_cells_repeated jg _ k rs extra H).
  - destruct Hg as [Hg|Hlen].
    + destruct (get_loc_Some g labels Hg) as [j Ej]. congruence.
    + destruct rs as [|r1 [|r2 t]].
      * destruct extra as [|x t]; [reflexivity|].
        exfalso. apply (H x). now left.
      * simpl in Hlen. congruence.
      * reflexivity.
Qed.

Lemma repeated_rows_change_nothing_witness :
  aggregated_data "Tax Map Parcel ID"
    (mkFrame (columns spec_example) (rows spec_example ++ rows spec_example))
  = aggregated_data "Tax Map Parcel ID"
      (mkFrame (columns spec_example) (rows spec_example)).
Proof.
  apply (repeated_rows_change_nothing "Tax Map Parcel ID" (columns spec_example)
           (rows spec_example) (rows spec_example)).
  - left. left. reflexivity.
  - apply incl_refl.
Defined.

(** ** Trimmed labels *)

Lemma lstrip_strip (s : string) : lstrip (strip s) = strip s.
Proof.
  unfold strip. destruct (lstrip_head s) as [->|(c & t & -> & Hc)]; [reflexivity|].
  destruct (rstrip_head c t Hc) as [t' ->]. simpl. now rewrite Hc.
Qed.

(** After the labels of a sheet are trimmed, no label starts or ends with a
    white-space character, and trimming the labels again changes nothing. *)
Theorem trimmed_labels_are_clean (data : DataFrame) :
  Forall (fun l => lstrip l = l /\ rstrip l = l) (columns (strip_columns data)) /\
  strip_columns (strip_columns data) = strip_columns data.
Proof.
  split.
  - unfold strip_columns. cbn [columns]. apply Forall_forall. intros l Hl.
    apply in_map_iff in Hl. destruct Hl as [l0 [<- _]].
    split; [apply lstrip_strip | apply rstrip_idempotent].
  - unfold strip_columns. cbn [columns rows]. f_equal.
    rewrite map_map. apply map_ext. apply strip_idempotent.
Qed.

(** The default columns are added at the end and leave the cells of every
    column of the sheet as they were. *)
Theorem defaults_keep_existing_columns (label : string) (data : DataFrame) :
  has_column label data = true ->
  column_values label (gross_default (acres_default data)) = column_values label data /\
  exists added, columns (gross_default (acres_default data)) = columns data ++ added.
Proof.
  intro H. split.
  - rewrite gross_default_column by now apply acres_default_has.
    now apply acres_default_column.
  - unfold gross_default, acres_default.
    destruct (has_column "Acres in Unit" data).
    + destruct (has_column "Gross acres" data).
      * exists []. now rewrite app_nil_r.
      * now exists ["Gross acres"].
    + destruct (has_column "Gross acres" (assign "Acres in Unit" (Str "") data)).
      * now exists ["Acres in Unit"].
      * exists ["Acres in Unit"; "Gross acres"]. unfold assign. cbn [columns].
        now rewrite <- app_assoc.
Qed.

Lemma defaults_keep_existing_columns_witness :
  column_values "Name " (gross_default (acres_default no_acreage_example))
  = column_values "Name " no_acreage_example /\
  exists added,
    columns (gross_default (acres_default no_acreage_example))
    = columns no_acreage_example ++ added.
Proof.
  apply (defaults_keep_existing_columns "Name " no_acreage_example). reflexivity.
Defined.

(** * Further properties of the scripts *)

(** ** What the scripts add to the log *)

Section LogDiscipline.

Context {G : Type} {host : Host G}.

Variable P : event -> Prop.

Lemma adds_nothing {A : Type} (m : M G A) :
  (forall w, snd (m w) = w) -> adds P m.
Proof.
  intros H w. exists []. rewrite H, app_nil_r. split; [reflexivity | constructor].
Qed.

Lemma adds_ret {A : Type} (a : A) : adds P (ret (G := G) a).
Proof. now apply adds_nothing. Qed.

Lemma adds_lift {A : Type} (r : outcome A) : adds P (lift (G := G) r).
Proof. now apply adds_nothing. Qed.

Lemma adds_raise {A : Type} (e : exn) : adds P (raise (G := G) (A := A) e).
Proof. now apply adds_nothing. Qed.

Lemma adds_ExcelFile (path : string) : adds P (ExcelFile (G := G) path).
Proof.
  apply adds_nothing. intro w. unfold ExcelFile. now destruct (disk w path).
Qed.

Lemma adds_parse (xl : workbook) (s : string) : adds P (parse (G := G) xl s).
Proof.
  unfold parse. destruct (find_sheet s xl); [apply adds_ret | apply adds_raise].
Qed.

Lemma adds_emit (e : event) : P e -> adds P (emit (G := G) e).
Proof. intros H w. exists [e]. split; [reflexivity | now constructor]. Qed.

Lemma adds_to_excel (table : DataFrame) (path : string) :
  P (ToExcel path table) -> adds P (to_excel table path).
Proof.
  intros H w. unfold to_excel. destruct (read_only path).
  - exists []. cbn [snd]. rewrite app_nil_r. split; [reflexivity | constructor].
  - exists [ToExcel path table]. split; [reflexivity | now constructor].
Qed.

Lemma adds_makedirs (path : string) :
  P (Makedirs path) -> adds P (makedirs path).
Proof.
  intros H w. unfold makedirs. destruct (makedirs_fails path).
  - exists []. cbn [snd]. rewrite app_nil_r. split; [reflexivity | constructor].
  - exists [Makedirs path]. split; [reflexivity | now constructor].
Qed.

Lemma adds_tool (call : event) (name : string) (run : world G -> option G) :
  P call -> adds P (tool call name run).
Proof.
  intros H w. unfold tool. exists [call].
  destruct (run _); (split; [reflexivity | now constructor]).
Qed.

Lemma adds_list_fields (layer : string) :
  P (CallListFields layer) -> adds P (list_fields layer).
Proof.
  intros H w. unfold list_fields. exists [CallListFields layer].
  destruct (ListFields _ _); (split; [reflexivity | now constructor]).
Qed.

Lemma adds_bind {A B : Type} (m : M G A) (k : A -> M G B) :
  adds P m -> (forall a, adds P (k a)) -> adds P (bind m k).
Proof.
  intros Hm Hk w. unfold bind.
  destruct (Hm w) as [ev [Hl Hp]].
  destruct (m w) as [[a|e] w1]; cbn [snd] in *.
  - destruct (Hk a w1) as [ev' [Hl' Hp']].
    exists (ev ++ ev'). split; [now rewrite Hl', Hl, app_assoc | now apply Forall_app].
  - now exists ev.
Qed.

Lemma adds_try {A : Type} (body : M G A) (handler : exn -> M G A) :
  adds P body -> (forall e, adds P (handler e)) -> adds P (try_except body handler).
Proof.
  intros Hm Hk w. unfold try_except.
  destruct (Hm w) as [ev [Hl Hp]].
  destruct (body w) as [[a|e] w1]; cbn [snd] in *.
  - now exists ev.
  - destruct (Hk e w1) as [ev' [Hl' Hp']].
    exists (ev ++ ev'). split; [now rewrite Hl', Hl, app_assoc | now apply Forall_app].
Qed.

Lemma adds_for_each {A : Type} (xs : list A) (body : A -> M G unit) :
  (forall x, In x xs -> adds P (body x)) -> adds P (for_each xs body).
Proof.
  induction xs as [|x rest IH]; intro H; [apply adds_ret|].
  cbn [for_each]. apply adds_bind; [apply H; now left|].
  intros _. apply IH. intros y Hy. apply H. now right.
Qed.

End LogDiscipline.

Lemma adds_weaken {G A : Type} (P Q : event -> Prop) (m : M G A) :
  (forall e, P e -> Q e) -> adds P m -> adds Q m.
Proof.
  intros H Hm w. destruct (Hm w) as [ev [Hl Hp]].
  exists ev. split; [assumption|]. eapply Forall_impl; eassumption.
Qed.

Ltac adds_step :=
  first
    [ apply adds_ret | apply adds_lift | apply adds_raise
    | apply adds_ExcelFile | apply adds_parse
    | apply adds_emit; first [exact I | reflexivity | now repeat split]
    | apply adds_tool; first [exact I | reflexivity | now repeat split]
    | apply adds_to_excel; first [exact I | reflexivity | now repeat split]
    | apply adds_makedirs; first [exact I | reflexivity | now repeat split]
    | apply adds_list_fields; first [exact I | reflexivity | now repeat split]
    | apply adds_bind; [|intro]
    | match goal with
      | |- adds _ (match ?x with _ => _ end) => destruct x
      end
    | progress cbv beta zeta ].

Section Discipline.

Context {G : Type} {host : Host G}.

Lemma adds_aggregate_data (input output : string) :
  adds (aggregate_event output) (aggregate_data (G := G) input output).
Proof. unfold aggregate_data. repeat adds_step. Qed.

Lemma adds_join_to_shapefile (shp excel gc out : string) :
  adds (join_event shp excel gc out) (join_to_shapefile shp excel gc out).
Proof. unfold join_to_shapefile. repeat adds_step. Qed.

Lemma adds_process (p : parameters) (files : list string) (f : string) :
  In f files -> adds (batch_event p files) (process p f).
Proof.
  intro Hf. unfold process. apply adds_try; [|intro; now apply adds_emit].
  apply adds_bind; [|intro].
  - eapply adds_weaken; [|apply adds_aggregate_data].
    intros e He. destruct e; simpl in *; try tauto.
    exists f. split; [assumption|]. exact He.
  - eapply adds_weaken; [|apply adds_join_to_shapefile].
    intros e He. destruct e; simpl in *; try tauto.
    + destruct He as [-> ->]. exists f. repeat split. assumption.
Qed.

(** In a batch of the ArcGIS script the only tables written are the files
    [aggregated_<name>] of the input files in the output directory, the
    table conversion reads only those files, every join and every export is
    on the one shapefile and the one output layer of the parameters, and
    nothing is printed. *)
Theorem batch_log_discipline (p : parameters) (files : list string) (w : world G) :
  exists events,
    log (snd (main p files w)) = log w ++ events /\
    Forall (batch_event p files) events.
Proof.
  assert (H : adds (batch_event p files) (main p files)).
  { unfold main. apply adds_bind; [now apply adds_makedirs | intros _].
    destruct files as [|f rest] eqn:E; [now apply adds_emit|].
    rewrite <- E. apply adds_for_each. intros x Hx. now apply adds_process. }
  apply H.
Qed.

(** The batch of the ArcGIS script raises only when the output directory
    cannot be created, and then nothing else has been done.  Otherwise no
    exception leaves the loop, whatever the files hold, whatever the tools of
    the host do and whether or not the tables can be written: every input
    file is opened, and a file that differs at the end is the output file
    [aggregated_<name>] of an input file and holds a table written by
    [to_excel]. *)
Theorem batch_never_raises (p : parameters) (files : list string) (w : world G) :
  (makedirs_fails (output_directory p) = true ->
   main p files w = (Raise (FileError (output_directory p)), w)) /\
  (makedirs_fails (output_directory p) = false ->
   fst (main p files w) = Ok tt /\
   (forall f, In f files ->
              In (AddMessage ("Loading sheet names from " +++ f +++ "..."))
                 (log (snd (main p files w)))) /\
   (forall path,
       disk (snd (main p files w)) path = disk w path \/
       ((exists f, In f files /\ path = output_file_of p f) /\
        exists table,
          disk (snd (main p files w)) path = Some [("Sheet1", as_read table)]))).
Proof.
  split; [apply main_without_directory|]. intro Hmk.
  destruct files as [|f rest].
  - unfold main, bind, makedirs. rewrite Hmk. cbn [fst snd emit disk].
    split; [reflexivity|]. split; [intros f []|]. intro path. now left.
  - rewrite (main_nonempty p f rest w Hmk).
    destruct (for_each_process p (f :: rest) (logged w [Makedirs (output_directory p)]))
      as (Hr & _ & Hl).
    split; [exact Hr|]. split; [exact Hl|].
    intro path.
    exact (writes_batch p (f :: rest) (logged w [Makedirs (output_directory p)]) path).
Qed.

End Discipline.

Lemma batch_never_raises_witness :
  main (host := sealed_host) batch_parameters ["a.xlsx"]
    (plain_world [("a.xlsx", [("Mapping", spec_example)])])
  = (Raise (FileError "out"), plain_world [("a.xlsx", [("Mapping", spec_example)])]) /\
  fst (main (host := dbase_host) batch_parameters ["a.xlsx"; "b.xlsx"] batch_world) = Ok tt /\
  (forall f, In f ["a.xlsx"; "b.xlsx"] ->
             In (AddMessage ("Loading sheet names from " +++ f +++ "..."))
                (log (snd (main (host := dbase_host) batch_parameters ["a.xlsx"; "b.xlsx"]
                             batch_world)))) /\
  (forall path,
      disk (snd (main (host := dbase_host) batch_parameters ["a.xlsx"; "b.xlsx"]
                   batch_world)) path
      = disk batch_world path \/
      ((exists f, In f ["a.xlsx"; "b.xlsx"] /\
                  path = output_file_of (host := dbase_host) batch_parameters f) /\
       exists table,
         disk (snd (main (host := dbase_host) batch_parameters ["a.xlsx"; "b.xlsx"]
                      batch_world)) path
         = Some [("Sheet1", as_read (Host := dbase_host) table)])).
Proof.
  split.
  - exact (proj1 (batch_never_raises (host := sealed_host) batch_parameters ["a.xlsx"]
                    (plain_world [("a.xlsx", [("Mapping", spec_example)])])) eq_refl).
  - exact (proj2 (batch_never_raises (host := dbase_host) batch_parameters
                    ["a.xlsx"; "b.xlsx"] batch_world) eq_refl).
Defined.

(** ** When a table is written *)

Lemma aggregate_data_unreadable {G : Type} {host : Host G}
      (input output : string) (w : world G) :
  disk w input = None ->
  aggregate_data input output w
  = (Raise (FileError input),
     logged w [AddMessage ("Loading sheet names from " +++ input +++ "...")]).
Proof.
  intro Hd. unfold aggregate_data, bind, emit, ExcelFile, logged.
  cbn [disk arc log]. now rewrite Hd.
Qed.

(** [aggregate_data] of the ArcGIS script writes a table exactly when it
    returns normally without having reported an error, and it never writes
    more than one.  When it writes a table the output file holds that table
    and nothing else has changed but the log; when it writes none, the files
    are as they were. *)
Theorem table_written_iff_success {G : Type} {host : Host G}
        (input output : string) (w : world G) :
  exists r events w0,
    aggregate_data input output w = (r, logged w0 events) /\
    ((exists table, In (ToExcel output table) events) <->
     (r = Ok tt /\ forall text, ~ In (AddError text) events)) /\
    length (tables_written events) <= 1 /\
    (forall table, In (ToExcel output table) events -> w0 = saved w output table) /\
    ((forall table, ~ In (ToExcel output table) events) -> w0 = w).
Proof.
  destruct (disk w input) as [xl|] eqn:Hd.
  2:{ eexists. eexists. exists w. split; [now apply aggregate_data_unreadable|].
      split; [|split; [simpl; lia|split]].
      - split; [intros [t [H|[]]]; discriminate | intros [H _]; discriminate].
      - intros t [H|[]]. discriminate.
      - reflexivity. }
  destruct (choose_sheet (sheet_names xl)) as [s|] eqn:Hs.
  2:{ eexists. eexists. exists w.
      split; [now apply (aggregate_data_no_sheet input output w xl)|].
      split; [|split; [simpl; lia|split]].
      - split.
        + intros [t H]. simpl in H. intuition discriminate.
        + intros [_ H]. exfalso. eapply H. right. left. reflexivity.
      - intros t H. simpl in H. intuition discriminate.
      - reflexivity. }
  destruct (choose_sheet_found xl s Hs) as [data Hf].
  destruct (choose_group_column (strip_columns data)) as [g|] eqn:Hc.
  2:{ eexists. eexists. exists w.
      split; [now apply (aggregate_data_no_column input output w xl s data)|].
      split; [|split; [simpl; lia|split]].
      - split.
        + intros [t H]. simpl in H. intuition discriminate.
        + intros [_ H]. exfalso. eapply H. right. right. left. reflexivity.
      - intros t H. simpl in H. intuition discriminate.
      - reflexivity. }
  pose proof (aggregate_data_run input output w xl s g data Hd Hs Hf Hc) as Hrun.
  cbv zeta in Hrun.
  set (d := strip_columns data) in *.
  set (start := [AddMessage ("Loading sheet names from " +++ input +++ "...");
                 AddMessage ("Using '" +++ s +++ "' sheet for processing.");
                 AddMessage ("Using '" +++ g +++ "' as the grouping column.")]
                ++ default_warnings input d ++ [AddMessage "Aggregating data..."]) in *.
  assert (Hstart : (forall p t, ~ In (ToExcel p t) start) /\
                   (forall text, ~ In (AddError text) start) /\
                   tables_written start = []).
  { subst start. unfold default_warnings.
    destruct (has_column "Acres in Unit" d),
             (has_column "Gross acres" (acres_default d));
      (split; [|split]); try reflexivity; intros; simpl; intuition discriminate. }
  destruct Hstart as (Hno & Hnoerr & Htw).
  destruct (groupby_agg g (gross_default (acres_default d))) as [out|e].
  - destruct (read_only output).
    + eexists. eexists. exists w. split; [exact Hrun|].
      split; [|split; [|split]].
      * split.
        -- intros [t H]. exfalso. apply in_app_or in H. destruct H as [H|H].
           ++ now apply (Hno output t).
           ++ simpl in H. intuition discriminate.
        -- intros [H _]. discriminate.
      * unfold tables_written in *. rewrite filter_app, Htw. simpl. lia.
      * intros t H. exfalso. apply in_app_or in H. destruct H as [H|H].
        -- now apply (Hno output t).
        -- simpl in H. intuition discriminate.
      * reflexivity.
    + eexists. eexists. eexists. split; [exact Hrun|].
      split; [|split; [|split]].
      * split.
        -- intros _. split; [reflexivity|]. intros text Hin.
           apply in_app_or in Hin. destruct Hin as [Hin|Hin].
           ++ now apply (Hnoerr text).
           ++ simpl in Hin. intuition discriminate.
        -- intros _. eexists. apply in_or_app. right. right. left. reflexivity.
      * unfold tables_written in *. rewrite filter_app, Htw. simpl. lia.
      * intros t H. apply in_app_or in H. destruct H as [H|H].
        -- exfalso. now apply (Hno output t).
        -- destruct H as [H|[H|[H|[]]]]; try discriminate.
           injection H as <-. reflexivity.
      * intro H. exfalso. eapply H. apply in_or_app. right. right. left. reflexivity.
  - eexists. eexists. exists w. split; [exact Hrun|].
    split; [|split; [|split]].
    + split.
      * intros [t H]. exfalso. now apply (Hno output t).
      * intros [H _]. discriminate.
    + rewrite Htw. simpl. lia.
    + intros t H. exfalso. now apply (Hno output t).
    + reflexivity.
Qed.

(** ** The validation and the export of the join *)

Lemma missing_fields_In (fields : list string) (f : string) :
  In f (missing_fields fields) <-> In f required_fields /\ ~ In f fields.
Proof.
  unfold missing_fields. rewrite filter_In, negb_true_iff.
  split; intros [Hr Hn]; (split; [assumption|]).
  - intro Hin. assert (existsb (String.eqb f) fields = true); [|congruence].
    apply existsb_exists. exists f. split; [assumption | apply String.eqb_refl].
  - destruct (existsb (String.eqb f) fields) eqn:E; [|reflexivity].
    exfalso. apply Hn. apply existsb_exists in E. destruct E as [x [Hx E]].
    apply String.eqb_eq in E. now subst.
Qed.

Lemma missing_fields_nil (fields : list string) :
  missing_fields fields = [] <-> incl required_fields fields.
Proof.
  split.
  - intros H f Hf. destruct (in_dec string_dec f fields) as [Hin|Hn]; [assumption|].
    assert (Hm : In f (missing_fields fields)) by (apply missing_fields_In; tauto).
    rewrite H in Hm. contradiction.
  - intro H. destruct (missing_fields fields) as [|m ms] eqn:E; [reflexivity|].
    assert (Hm : In m (missing_fields fields)) by (rewrite E; now left).
    apply missing_fields_In in Hm. destruct Hm as [Hr Hn].
    exfalso. apply Hn, H, Hr.
Qed.

(** The validation of the join finds nothing missing exactly when [Names],
    [Acres in Unit] and [Gross Acres] are all among the fields of the layer,
    each under its exact name; what it reports as missing is always a
    selection of these three names in this order. *)
Theorem validation_passes_iff (fields : list string) :
  (missing_fields fields = [] <-> incl required_fields fields) /\
  (forall f, In f (missing_fields fields) <-> In f required_fields /\ ~ In f fields) /\
  exists keep, missing_fields fields = filter keep ["Names"; "Acres in Unit"; "Gross Acres"].
Proof.
  split; [apply missing_fields_nil|]. split; [apply missing_fields_In|].
  eexists. reflexivity.
Qed.

Section ExportOfTheJoin.

Context {G : Type} {host : Host G}.

(** [join_to_shapefile] calls [CopyFeatures] only after the table
    conversion, the join and the listing of the fields have each succeeded,
    in this order and each on the world that the step before it left, and
    the three fields were found on the layer: a failing tool or a failed
    validation leaves no export behind.  What the run has then added to the
    log is the log of the passed validation, followed by the closing message
    when the export itself succeeded. *)
Theorem export_only_after_validation (shp excel gc out : string) (w : world G)
        (events : list event) :
  log (snd (join_to_shapefile shp excel gc out w)) = log w ++ events ->
  (exists layer output, In (CallCopyFeatures layer output) events) ->
  let table := splitext_root excel +++ ".dbf" in
  let e1 := [AddMessage ("Joining data from " +++ excel +++ " to " +++ shp +++ "...");
             CallExcelToTable excel table] in
  let e2 := e1 ++ [CallAddJoin shp gc table gc] in
  let e3 := e2 ++ [AddMessage "Join operation completed."; CallListFields shp] in
  let e4 := e3 ++ [AddMessage ("Join validation passed. Exporting to " +++ out +++ "...");
                   CallCopyFeatures shp out] in
  exists g1 g2 fields,
    ExcelToTable excel table (mkWorld (disk w) (arc w) (log w ++ e1)) = Some g1 /\
    AddJoin shp gc table gc (mkWorld (disk w) g1 (log w ++ e2)) = Some g2 /\
    ListFields shp (mkWorld (disk w) g2 (log w ++ e3)) = Some fields /\
    incl required_fields fields /\
    events = e4 ++ match CopyFeatures shp out (mkWorld (disk w) g2 (log w ++ e4)) with
                   | Some _ => [AddMessage ("Joined data saved to " +++ out +++ ".")]
                   | None => []
                   end.
Proof.
  intros Hlog [layer [output Hin]] table e1 e2 e3 e4.
  unfold join_to_shapefile, bind, emit, tool, list_fields in Hlog.
  cbn [disk arc log] in Hlog. fold table in Hlog.
  rewrite <- !app_assoc in Hlog. cbn [app] in Hlog.
  subst e4 e3 e2 e1. cbn [app].
  destruct (ExcelToTable _ _ _) as [g1|] eqn:E1; cbn [disk arc log snd] in Hlog.
  2:{ apply app_inv_head in Hlog. subst events.
      simpl in Hin. exfalso. intuition discriminate. }
  rewrite <- !app_assoc in Hlog. cbn [app] in Hlog.
  destruct (AddJoin _ _ _ _ _) as [g2|] eqn:E2; cbn [disk arc log snd] in Hlog.
  2:{ apply app_inv_head in Hlog. subst events.
      simpl in Hin. exfalso. intuition discriminate. }
  rewrite <- !app_assoc in Hlog. cbn [app] in Hlog.
  destruct (ListFields _ _) as [fields|] eqn:E3; cbn [disk arc log snd] in Hlog.
  2:{ apply app_inv_head in Hlog. subst events.
      simpl in Hin. exfalso. intuition discriminate. }
  destruct (missing_fields fields) as [|m ms] eqn:Em; cbn [disk arc log snd] in Hlog.
  2:{ rewrite <- !app_assoc in Hlog. apply app_inv_head in Hlog. subst events.
      simpl in Hin. exfalso. intuition discriminate. }
  rewrite <- !app_assoc in Hlog. cbn [app] in Hlog.
  exists g1, g2, fields.
  split; [reflexivity|]. split; [exact E2|]. split; [exact E3|].
  split; [now apply missing_fields_nil|].
  destruct (CopyFeatures _ _ _); cbn [disk arc log snd] in Hlog;
    rewrite <- ?app_assoc in Hlog; apply app_inv_head in Hlog; subst events;
    reflexivity.
Qed.

End ExportOfTheJoin.

Lemma export_only_after_validation_witness :
  exists g1 g2 fields,
    ExcelToTable (Host := geodatabase_host) "out.xlsx" "out.xlsx.dbf"
      (mkWorld (disk join_ready_world) (arc join_ready_world)
         (log join_ready_world
          ++ [AddMessage "Joining data from out.xlsx to parcels.shp...";
              CallExcelToTable "out.xlsx" "out.xlsx.dbf"]))
    = Some g1 /\
    AddJoin (Host := geodatabase_host) "parcels.shp" "TPIN" "out.xlsx.dbf" "TPIN"
      (mkWorld (disk join_ready_world) g1
         (log join_ready_world
          ++ [AddMessage "Joining data from out.xlsx to parcels.shp...";
              CallExcelToTable "out.xlsx" "out.xlsx.dbf";
              CallAddJoin "parcels.shp" "TPIN" "out.xlsx.dbf" "TPIN"]))
    = Some g2 /\
    ListFields (Host := geodatabase_host) "parcels.shp"
      (mkWorld (disk join_ready_world) g2
         (log join_ready_world
          ++ [AddMessage "Joining data from out.xlsx to parcels.shp...";
              CallExcelToTable "out.xlsx" "out.xlsx.dbf";
              CallAddJoin "parcels.shp" "TPIN" "out.xlsx.dbf" "TPIN";
              AddMessage "Join operation completed.";
              CallListFields "parcels.shp"]))
    = Some fields /\
    incl required_fields fields /\
    [AddMessage "Joining data from out.xlsx to parcels.shp...";
     CallExcelToTable "out.xlsx" "out.xlsx.dbf";
     CallAddJoin "parcels.shp" "TPIN" "out.xlsx.dbf" "TPIN";
     AddMessage "Join operation completed.";
     CallListFields "parcels.shp";
     AddMessage "Join validation passed. Exporting to joined.shp...";
     CallCopyFeatures "parcels.shp" "joined.shp";
     AddMessage "Joined data saved to joined.shp."]
    = [AddMessage "Joining data from out.xlsx to parcels.shp...";
       CallExcelToTable "out.xlsx" "out.xlsx.dbf";
       CallAddJoin "parcels.shp" "TPIN" "out.xlsx.dbf" "TPIN";
       AddMessage "Join operation completed.";
       CallListFields "parcels.shp";
       AddMessage "Join validation passed. Exporting to joined.shp...";
       CallCopyFeatures "parcels.shp" "joined.shp"]
      ++ match CopyFeatures (Host := geodatabase_host) "parcels.shp" "joined.shp"
                 (mkWorld (disk join_ready_world) g2
                    (log join_ready_world
                     ++ [AddMessage "Joining data from out.xlsx to parcels.shp...";
                         CallExcelToTable "out.xlsx" "out.xlsx.dbf";
                         CallAddJoin "parcels.shp" "TPIN" "out.xlsx.dbf" "TPIN";
                         AddMessage "Join operation completed.";
                         CallListFields "parcels.shp";
                         AddMessage "Join validation passed. Exporting to joined.shp...";
                         CallCopyFeatures "parcels.shp" "joined.shp"]))
         with
         | Some _ => [AddMessage "Joined data saved to joined.shp."]
         | None => []
         end.
Proof.
  apply (export_only_after_validation (host := geodatabase_host)
           "parcels.shp" "out.xlsx" "TPIN" "joined.shp" join_ready_world).
  - reflexivity.
  - exists "parcels.shp", "joined.shp". do 6 right. left. reflexivity.
Defined.

Lemma join_validation_success_witness :
  join_to_shapefile (host := geodatabase_host) "parcels.shp" "out.xlsx" "TPIN" "joined.shp"
    join_ready_world
  = (Ok tt,
     mkWorld (on_disk []) ["FID"; "TPIN"; "Names"; "Acres in Unit"; "Gross Acres"]
       [ToExcel "out.xlsx" aggregated_example;
        AddMessage "Joining data from out.xlsx to parcels.shp...";
        CallExcelToTable "out.xlsx" "out.xlsx.dbf";
        CallAddJoin "parcels.shp" "TPIN" "out.xlsx.dbf" "TPIN";
        AddMessage "Join operation completed.";
        CallListFields "parcels.shp";
        AddMessage "Join validation passed. Exporting to joined.shp...";
        CallCopyFeatures "parcels.shp" "joined.shp";
        AddMessage "Joined data saved to joined.shp."]).
Proof.
  apply (join_validation_success (host := geodatabase_host)
           "parcels.shp" "out.xlsx" "TPIN" "joined.shp" join_ready_world
           ["FID"; "TPIN"]
           ["FID"; "TPIN"; "Names"; "Acres in Unit"; "Gross Acres"]
           ["FID"; "TPIN"; "Names"; "Acres in Unit"; "Gross Acres"]
           ["FID"; "TPIN"; "Names"; "Acres in Unit"; "Gross Acres"]);
    reflexivity.
Defined.

(** ** A configuration error does not stop the join of that file *)

Section AfterConfigurationError.

Context {G : Type} {host : Host G}.

Lemma starts_emit_tool {A : Type} (e call : event) (name : string)
      (run : world G -> option G) (k : unit -> M G A) (w : world G) :
  (forall a, stable (k a)) ->
  exists events,
    log (snd (bind (emit e) (fun _ => bind (tool call name run) k) w))
    = log w ++ e :: call :: events.
Proof.
  intro Hk. unfold bind, emit, tool. cbn [disk arc log].
  destruct (run _) as [g1|]; cbn [disk arc log snd].
  - match goal with
    | |- context [snd (k tt ?w1)] => destruct (Hk tt w1) as [ev Hl]
    end.
    exists ev. rewrite Hl. cbn [log]. rewrite <- !app_assoc. reflexivity.
  - exists []. rewrite <- !app_assoc. reflexivity.
Qed.

Lemma join_starts (shp excel gc out : string) (w : world G) :
  exists events,
    log (snd (join_to_shapefile shp excel gc out w))
    = log w ++ AddMessage ("Joining data from " +++ excel +++ " to " +++ shp +++ "...")
              :: CallExcelToTable excel (splitext_root excel +++ ".dbf") :: events.
Proof.
  unfold join_to_shapefile. cbv zeta. apply starts_emit_tool.
  intro. repeat stable_step.
Qed.

Lemma join_writes_no_table (shp excel gc out : string) (events : list event) :
  Forall (join_event shp excel gc out) events ->
  forall path table, ~ In (ToExcel path table) events.
Proof.
  intros H path table Hin. rewrite Forall_forall in H.
  exact (H _ Hin).
Qed.

(** When [aggregate_data] has reported that a file has neither sheet, the
    batch loop of the ArcGIS script still runs the join for that file: the
    table conversion is called on the output path of the file although
    nothing in the processing of the file writes a table. *)
Theorem join_attempted_after_configuration_error (p : parameters) (f : string)
        (w : world G) (xl : workbook) :
  disk w f = Some xl ->
  choose_sheet (sheet_names xl) = None ->
  exists events,
    log (snd (process p f w))
    = log w
      ++ [AddMessage ("Loading sheet names from " +++ f +++ "...");
          AddError ("Neither 'Mapping' nor 'Lead List' sheet is present in " +++ f +++ ".");
          AddMessage ("Joining data from " +++ output_file_of p f +++ " to "
                      +++ shapefile p +++ "...");
          CallExcelToTable (output_file_of p f)
                           (splitext_root (output_file_of p f) +++ ".dbf")]
      ++ events /\
    forall path table, ~ In (ToExcel path table) events.
Proof.
  intros Hd Hs. unfold process, try_except, bind.
  rewrite (aggregate_data_no_sheet f _ w xl Hd Hs).
  fold (output_file_of p f).
  match goal with
  | |- context [join_to_shapefile ?a ?b ?c ?d ?w1] =>
      destruct (join_starts a b c d w1) as [ev Hl];
      destruct (adds_join_to_shapefile a b c d w1) as [ev' [Hl' Hp]];
      destruct (join_to_shapefile a b c d w1) as [[[]|e] w2]
  end; cbn [snd] in *.
  - rewrite Hl in Hl'. apply app_inv_head in Hl'. subst ev'.
    inversion Hp as [|? ? _ Hp1]; subst. inversion Hp1 as [|? ? _ Hp2]; subst.
    exists ev. split.
    + rewrite Hl. unfold logged. cbn [log]. rewrite <- !app_assoc. reflexivity.
    + eapply join_writes_no_table; eassumption.
  - rewrite Hl in Hl'. apply app_inv_head in Hl'. subst ev'.
    inversion Hp as [|? ? _ Hp1]; subst. inversion Hp1 as [|? ? _ Hp2]; subst.
    eexists. split.
    + unfold emit. cbn [snd log]. rewrite Hl. unfold logged. cbn [log].
      rewrite <- !app_assoc. cbn [app]. reflexivity.
    + intros path table Hin. apply in_app_or in Hin. destruct Hin as [Hin|Hin].
      * eapply join_writes_no_table; eassumption.
      * simpl in Hin. intuition discriminate.
Qed.

End AfterConfigurationError.

Lemma join_attempted_after_configuration_error_witness :
  exists events,
    log (snd (process (host := dbase_host) batch_parameters "a.xlsx" batch_world))
    = log batch_world
      ++ [AddMessage ("Loading sheet names from " +++ "a.xlsx" +++ "...");
          AddError ("Neither 'Mapping' nor 'Lead List' sheet is present in "
                    +++ "a.xlsx" +++ ".");
          AddMessage ("Joining data from "
                      +++ output_file_of (host := dbase_host) batch_parameters "a.xlsx"
                      +++ " to " +++ shapefile batch_parameters +++ "...");
          CallExcelToTable
            (output_file_of (host := dbase_host) batch_parameters "a.xlsx")
            (splitext_root (Host := dbase_host)
               (output_file_of (host := dbase_host) batch_parameters "a.xlsx") +++ ".dbf")]
      ++ events /\
    forall path table, ~ In (ToExcel path table) events.
Proof.
  apply (join_attempted_after_configuration_error (host := dbase_host)
           batch_parameters "a.xlsx" batch_world [("Sheet1", spec_example)]);
    reflexivity.
Defined.

(** ** The stand-alone scripts *)

Lemma find_sheet_named (xl : workbook) (s : string) (data : DataFrame) :
  find_sheet s xl = Some data -> existsb (String.eqb s) (sheet_names xl) = true.
Proof.
  induction xl as [|[n d] rest IH]; simpl; [discriminate|].
  destruct (String.eqb s n); [reflexivity | exact IH].
Qed.

Lemma tables_written_app (a b : list event) :
  tables_written (a ++ b) = tables_written a ++ tables_written b.
Proof. apply filter_app. Qed.

(** On a workbook with a [Mapping] sheet that has the [Tax Map Parcel ID]
    column and both acreage columns, [aggregate_data] of the ArcGIS script
    and [aggregate_data] of the stand-alone scripts end alike and write the
    same table to the same path. *)
Theorem arcgis_and_stand_alone_agree {G : Type} {host : Host G}
        (input output : string) (w : world G) (xl : workbook) (data : DataFrame) :
  disk w input = Some xl ->
  find_sheet "Mapping" xl = Some data ->
  has_column "Tax Map Parcel ID" (strip_columns data) = true ->
  has_column "Acres in Unit" (strip_columns data) = true ->
  has_column "Gross acres" (strip_columns data) = true ->
  fst (aggregate_data input output w) = fst (aggregate_data_copy input output "Mapping" w) /\
  tables_written (log (snd (aggregate_data input output w)))
  = tables_written (log (snd (aggregate_data_copy input output "Mapping" w))).
Proof.
  intros Hd Hf Hg Ha Hr.
  assert (Hs : choose_sheet (sheet_names xl) = Some "Mapping").
  { unfold choose_sheet. now rewrite (find_sheet_named xl "Mapping" data Hf). }
  assert (Hc : choose_group_column (strip_columns data) = Some "Tax Map Parcel ID").
  { unfold choose_group_column. now rewrite Hg. }
  rewrite (aggregate_data_run input output w xl "Mapping" "Tax Map Parcel ID" data
             Hd Hs Hf Hc).
  rewrite (aggregate_data_copy_run input output "Mapping" w xl Hd), Hf.
  cbv zeta. unfold default_warnings, gross_default, acres_default.
  rewrite Ha, Hr.
  destruct (groupby_agg "Tax Map Parcel ID" (strip_columns data));
    [destruct (read_only output)|];
    unfold logged, saved; cbn [fst snd log]; rewrite !tables_written_app;
    split; reflexivity.
Qed.

Lemma arcgis_and_stand_alone_agree_witness :
  fst (aggregate_data (host := plain_host) "in.xlsx" "out.xlsx"
         (plain_world [("in.xlsx", [("Mapping", padded_header_example)])]))
  = fst (aggregate_data_copy (host := plain_host) "in.xlsx" "out.xlsx" "Mapping"
           (plain_world [("in.xlsx", [("Mapping", padded_header_example)])])) /\
  tables_written
    (log (snd (aggregate_data (host := plain_host) "in.xlsx" "out.xlsx"
                 (plain_world [("in.xlsx", [("Mapping", padded_header_example)])]))))
  = tables_written
      (log (snd (aggregate_data_copy (host := plain_host) "in.xlsx" "out.xlsx" "Mapping"
                   (plain_world [("in.xlsx", [("Mapping", padded_header_example)])])))).
Proof.
  apply (arcgis_and_stand_alone_agree (host := plain_host) "in.xlsx" "out.xlsx"
           (plain_world [("in.xlsx", [("Mapping", padded_header_example)])])
           [("Mapping", padded_header_example)] padded_header_example);
    reflexivity.
Defined.

(** [aggregate_data] of the stand-alone scripts has no fall-back: it returns
    normally exactly when the output path can be written, the requested
    sheet exists and, with its labels trimmed, is a table on which the
    aggregation succeeds: one with the [Tax Map Parcel ID] column, the three
    source columns and only missing or [str] names, or a one-row sheet
    without that column.  Then the output file holds the aggregated table.
    A workbook without the sheet raises, and whenever the function raises no
    table is written and the files are as they were. *)
Theorem stand_alone_writes_iff {G : Type} {host : Host G}
        (input output sheet : string) (w : world G) (xl : workbook) :
  disk w input = Some xl ->
  (fst (aggregate_data_copy input output sheet w) = Ok tt <->
   read_only output = false /\
   exists data, find_sheet sheet xl = Some data /\
                (aggregable "Tax Map Parcel ID" (strip_columns data) = true \/
                 one_row_case "Tax Map Parcel ID" (strip_columns data) = true)) /\
  (fst (aggregate_data_copy input output sheet w) = Ok tt ->
   exists data table,
     find_sheet sheet xl = Some data /\
     aggregated_data "Tax Map Parcel ID" (strip_columns data) = Ok table /\
     disk (snd (aggregate_data_copy input output sheet w)) output
     = Some [("Sheet1", as_read table)] /\
     tables_written (log (snd (aggregate_data_copy input output sheet w)))
     = tables_written (log w) ++ [ToExcel output table]) /\
  (find_sheet sheet xl = None ->
   fst (aggregate_data_copy input output sheet w) = Raise (ValueError sheet)) /\
  (fst (aggregate_data_copy input output sheet w) <> Ok tt ->
   tables_written (log (snd (aggregate_data_copy input output sheet w)))
   = tables_written (log w) /\
   disk (snd (aggregate_data_copy input output sheet w)) = disk w).
Proof.
  intro Hd. rewrite (aggregate_data_copy_run input output sheet w xl Hd).
  assert (Hnone : forall events,
             tables_written (log w ++ events) = tables_written (log w) ++ tables_written events)
    by (intro; apply filter_app).
  destruct (find_sheet sheet xl) as [data|].
  - destruct (groupby_agg "Tax Map Parcel ID" (strip_columns data)) as [out|e] eqn:E.
    + destruct (read_only output) eqn:Hro; cbn [fst snd]; (split; [|split; [|split]]).
      * split; [discriminate|]. intros [H _]. discriminate.
      * discriminate.
      * discriminate.
      * intros _. unfold logged. cbn [log disk]. rewrite Hnone. simpl.
        split; [apply app_nil_r | reflexivity].
      * split; [|reflexivity]. intros _. split; [reflexivity|].
        exists data. split; [reflexivity|].
        eapply groupby_agg_Ok_cases; eassumption.
      * intros _. exists data, (rename output_names out).
        split; [reflexivity|]. split; [unfold aggregated_data; now rewrite E|].
        unfold logged, saved, put. cbn [log disk]. rewrite String.eqb_refl.
        split; [reflexivity|]. rewrite Hnone. reflexivity.
      * discriminate.
      * intro H. now contradiction H.
    + cbn [fst snd]. split; [|split; [|split]].
      * split; [discriminate|]. intros [_ [d [Hf [Ha|Ha]]]];
          assert (d = data) by congruence; subst d.
        -- rewrite (groupby_agg_ok _ _ Ha) in E. discriminate.
        -- rewrite (groupby_agg_one_row _ _ Ha) in E. discriminate.
      * discriminate.
      * discriminate.
      * intros _. unfold logged. cbn [log disk]. rewrite Hnone. simpl.
        split; [apply app_nil_r | reflexivity].
  - cbn [fst snd]. split; [|split; [|split]].
    + split; [discriminate|]. intros [_ [d [Hf _]]]. discriminate.
    + discriminate.
    + reflexivity.
    + intros _. unfold logged. cbn [log disk]. rewrite Hnone. simpl.
      split; [apply app_nil_r | reflexivity].
Qed.

Lemma stand_alone_writes_iff_witness :
  (fst (aggregate_data_copy (host := plain_host) "in.xlsx" "out.xlsx" "Mapping"
          (plain_world [("in.xlsx", [("Mapping", spec_example)])])) = Ok tt <->
   read_only (Host := plain_host) "out.xlsx" = false /\
   exists data, find_sheet "Mapping" [("Mapping", spec_example)] = Some data /\
                (aggregable "Tax Map Parcel ID" (strip_columns data) = true \/
                 one_row_case "Tax Map Parcel ID" (strip_columns data) = true)) /\
  (fst (aggregate_data_copy (host := plain_host) "in.xlsx" "out.xlsx" "Mapping"
          (plain_world [("in.xlsx", [("Mapping", spec_example)])])) = Ok tt ->
   exists data table,
     find_sheet "Mapping" [("Mapping", spec_example)] = Some data /\
     aggregated_data "Tax Map Parcel ID" (strip_columns data) = Ok table /\
     disk (snd (aggregate_data_copy (host := plain_host) "in.xlsx" "out.xlsx" "Mapping"
                  (plain_world [("in.xlsx", [("Mapping", spec_example)])]))) "out.xlsx"
     = Some [("Sheet1", as_read (Host := plain_host) table)] /\
     tables_written
       (log (snd (aggregate_data_copy (host := plain_host) "in.xlsx" "out.xlsx" "Mapping"
                    (plain_world [("in.xlsx", [("Mapping", spec_example)])]))))
     = tables_written (log (plain_world [("in.xlsx", [("Mapping", spec_example)])]))
       ++ [ToExcel "out.xlsx" table]) /\
  (find_sheet "Mapping" [("Mapping", spec_example)] = None ->
   fst (aggregate_data_copy (host := plain_host) "in.xlsx" "out.xlsx" "Mapping"
          (plain_world [("in.xlsx", [("Mapping", spec_example)])]))
   = Raise (ValueError "Mapping")) /\
  (fst (aggregate_data_copy (host := plain_host) "in.xlsx" "out.xlsx" "Mapping"
          (plain_world [("in.xlsx", [("Mapping", spec_example)])])) <> Ok tt ->
   tables_written
     (log (snd (aggregate_data_copy (host := plain_host) "in.xlsx" "out.xlsx" "Mapping"
                  (plain_world [("in.xlsx", [("Mapping", spec_example)])]))))
   = tables_written (log (plain_world [("in.xlsx", [("Mapping", spec_example)])])) /\
   disk (snd (aggregate_data_copy (host := plain_host) "in.xlsx" "out.xlsx" "Mapping"
                (plain_world [("in.xlsx", [("Mapping", spec_example)])])))
   = disk (plain_world [("in.xlsx", [("Mapping", spec_example)])])).
Proof.
  apply (stand_alone_writes_iff (host := plain_host) "in.xlsx" "out.xlsx" "Mapping"
           (plain_world [("in.xlsx", [("Mapping", spec_example)])])
           [("Mapping", spec_example)]).
  reflexivity.
Defined.

Lemma aggregate_data_copy_unreadable {G : Type} {host : Host G}
      (input output sheet : string) (w : world G) :
  disk w input = None ->
  aggregate_data_copy input output sheet w
  = (Raise (FileError input),
     logged w [Print ("Loading data from " +++ input +++ "...")]).
Proof.
  intro Hd. unfold aggregate_data_copy, read_excel, bind, emit, ExcelFile, logged.
  cbn [disk arc log]. now rewrite Hd.
Qed.

Section StandAloneBatch.

Context {G : Type} {host : Host G}.

Lemma stable_aggregate_data_copy (input output sheet : string) :
  stable (aggregate_data_copy (G := G) input output sheet).
Proof. unfold aggregate_data_copy, read_excel. repeat stable_step. Qed.

Lemma stable_process_copy (f : string) : stable (process_copy f).
Proof.
  unfold process_copy. apply stable_try.
  - apply stable_aggregate_data_copy.
  - intro. apply stable_emit.
Qed.

Lemma writes_aggregate_data_copy (input output sheet : string) :
  writes (eq output) (aggregate_data_copy (G := G) input output sheet).
Proof. unfold aggregate_data_copy, read_excel. repeat writes_step. Qed.

Lemma writes_process_copy (f : string) :
  writes (eq (copy_output_file f)) (process_copy f).
Proof.
  unfold process_copy. apply writes_try.
  - apply writes_aggregate_data_copy.
  - intro. apply writes_emit.
Qed.

Lemma writes_batch_copy (files : list string) :
  writes (fun path => exists f, In f files /\ path = copy_output_file f)
         (for_each files process_copy).
Proof.
  apply writes_for_each. intros f Hf.
  eapply writes_weaken; [|apply writes_process_copy].
  intros path <-. now exists f.
Qed.

Lemma process_copy_returns (f : string) (w : world G) :
  fst (process_copy f w) = Ok tt.
Proof.
  unfold process_copy, try_except.
  destruct (aggregate_data_copy _ _ _ w) as [[[]|e] w1]; reflexivity.
Qed.

Lemma process_copy_loads (f : string) :
  starts_with (Print ("Loading data from " +++ f +++ "...")) (process_copy f).
Proof.
  unfold process_copy. apply starts_try; [|intro; apply stable_emit].
  unfold aggregate_data_copy, read_excel. apply starts_emit_bind.
  intro. repeat stable_step.
Qed.

Lemma process_copy_unreadable (f : string) (w : world G) :
  disk w f = None ->
  log (snd (process_copy f w))
  = log w ++ [Print ("Loading data from " +++ f +++ "...");
              Print ("Error processing " +++ f +++ ": " +++ exn_text (FileError f))].
Proof.
  intro Hd. unfold process_copy, try_except.
  rewrite (aggregate_data_copy_unreadable f _ "Mapping" w Hd).
  unfold emit, logged. cbn [snd log]. now rewrite <- app_assoc.
Qed.

Lemma for_each_process_copy (files : list string) (w : world G) :
  fst (for_each files process_copy w) = Ok tt /\
  (exists events, log (snd (for_each files process_copy w)) = log w ++ events) /\
  (forall f, In f files ->
             In (Print ("Loading data from " +++ f +++ "..."))
                (log (snd (for_each files process_copy w)))) /\
  (forall f, In f files -> disk w f = None ->
             (forall h, In h files -> copy_output_file h <> f) ->
             In (Print ("Error processing " +++ f +++ ": " +++ exn_text (FileError f)))
                (log (snd (for_each files process_copy w)))).
Proof.
  revert w. induction files as [|h t IH]; intro w.
  - simpl. repeat split; try contradiction. exists []. now rewrite app_nil_r.
  - cbn [for_each]. unfold bind.
    pose proof (process_copy_returns h w) as Hr.
    pose proof (writes_process_copy h w) as Hw.
    destruct (process_copy_loads h w) as [ev Hl].
    pose proof (process_copy_unreadable h w) as Hu.
    destruct (process_copy h w) as [[[]|e] w1]; cbn [fst snd] in *; [|discriminate].
    destruct (IH w1) as (Ir & [ev' Il] & If & Ie).
    split; [exact Ir|]. split; [|split].
    + exists (Print ("Loading data from " +++ h +++ "...") :: ev ++ ev').
      rewrite Il, Hl, <- app_assoc. reflexivity.
    + intros f [<-|Hf]; [|now apply If].
      rewrite Il, Hl, !in_app_iff. left. right. now left.
    + intros f Hin Hnone Hout. destruct (string_dec h f) as [->|Hne].
      * rewrite Il, (Hu Hnone), !in_app_iff. left. right. right. now left.
      * apply Ie.
        -- destruct Hin; [contradiction | assumption].
        -- destruct (Hw f) as [E|[E _]]; [congruence|].
           exfalso. apply (Hout h); [now left | exact E].
        -- intros h' Hh'. apply Hout. now right.
Qed.

(** The batch of the Copy script raises only when the output directory
    cannot be created, and then nothing else has been done.  Otherwise it
    returns normally for every list of files, starts on every file, and a
    file that differs at the end is the output file [aggregated_<name>] of
    an input file and holds a table written by [to_excel].  The error of a
    file that cannot be read is printed before the loop goes on, provided no
    table of the batch is written to the path of that file.  With no file
    the script only prints that none was found. *)
Theorem stand_alone_batch_never_raises (files : list string) (w : world G) :
  (makedirs_fails "output_folder" = true ->
   main_copy files w = (Raise (FileError "output_folder"), w)) /\
  (makedirs_fails "output_folder" = false ->
   fst (main_copy files w) = Ok tt /\
   (forall f, In f files ->
              In (Print ("Loading data from " +++ f +++ "..."))
                 (log (snd (main_copy files w)))) /\
   (forall f, In f files -> disk w f = None ->
              (forall h, In h files -> copy_output_file h <> f) ->
              In (Print ("Error processing " +++ f +++ ": " +++ exn_text (FileError f)))
                 (log (snd (main_copy files w)))) /\
   (forall path,
       disk (snd (main_copy files w)) path = disk w path \/
       ((exists f, In f files /\ path = copy_output_file f) /\
        exists table,
          disk (snd (main_copy files w)) path = Some [("Sheet1", as_read table)])) /\
   (files = [] ->
    log (snd (main_copy files w))
    = log w ++ [Makedirs "output_folder";
                Print "No Excel files found in the input directory."])).
Proof.
  split.
  - intro Hmk. unfold main_copy, bind, makedirs. now rewrite Hmk.
  - intro Hmk. destruct files as [|f rest].
    + unfold main_copy, bind, makedirs. rewrite Hmk. cbn [fst snd emit disk log].
      split; [reflexivity|]. split; [intros ? []|]. split; [intros ? []|].
      split; [intro path; now left|].
      intros _. now rewrite <- app_assoc.
    + assert (E : main_copy (f :: rest) w
                  = for_each (f :: rest) process_copy (logged w [Makedirs "output_folder"]))
        by (unfold main_copy, bind, makedirs; now rewrite Hmk).
      rewrite E.
      destruct (for_each_process_copy (f :: rest) (logged w [Makedirs "output_folder"]))
        as (Hr & _ & Hl & He).
      split; [exact Hr|]. split; [exact Hl|]. split; [|split; [|discriminate]].
      * intros x Hx Hn Hout. now apply He.
      * intro path.
        exact (writes_batch_copy (f :: rest) (logged w [Makedirs "output_folder"]) path).
Qed.

Lemma aggregate_data_updated_run (input output sheet : string) (w : world G) :
  aggregate_data_updated input output sheet w
  = match disk w input with
    | None => (Raise (FileError input), logged w [Print "Loading data..."])
    | Some xl =>
        match find_sheet sheet xl with
        | None => (Raise (ValueError sheet), logged w [Print "Loading data..."])
        | Some data =>
            match groupby_agg "Tax Map Parcel ID" (strip_columns data) with
            | Raise e =>
                (Raise e, logged w [Print "Loading data..."; Print "Aggregating data..."])
            | Ok out =>
                if read_only output
                then (Raise (FileError output),
                      logged w [Print "Loading data...";
                                Print "Aggregating data...";
                                Print ("Saving aggregated data to " +++ output +++ "...")])
                else (Ok tt,
                      logged (saved w output (rename output_names out))
                        [Print "Loading data...";
                         Print "Aggregating data...";
                         Print ("Saving aggregated data to " +++ output +++ "...");
                         ToExcel output (rename output_names out);
                         Print "Aggregation complete!"])
            end
        end
    end.
Proof.
  unfold aggregate_data_updated, read_excel, to_excel, bind, emit, ExcelFile, parse,
    raise, ret, lift, logged, saved.
  cbn [disk arc log].
  destruct (disk w input) as [xl|]; [|reflexivity].
  destruct (find_sheet sheet xl) as [data|]; [|finish_run].
  cbn [disk arc log]. cbv zeta.
  destruct (groupby_agg "Tax Map Parcel ID" (strip_columns data));
    [destruct (read_only output)|]; finish_run.
Qed.

(** [aggregate_data] of the Updated script and [aggregate_data] of the Copy
    script differ only in what they print: on every world they end with the
    same result, write the same tables to the same paths and leave the host
    and the files in the same state. *)
Theorem updated_agrees_with_copy (input output sheet : string) (w : world G) :
  fst (aggregate_data_updated input output sheet w)
  = fst (aggregate_data_copy input output sheet w) /\
  tables_written (log (snd (aggregate_data_updated input output sheet w)))
  = tables_written (log (snd (aggregate_data_copy input output sheet w))) /\
  arc (snd (aggregate_data_updated input output sheet w))
  = arc (snd (aggregate_data_copy input output sheet w)) /\
  disk (snd (aggregate_data_updated input output sheet w))
  = disk (snd (aggregate_data_copy input output sheet w)).
Proof.
  rewrite aggregate_data_updated_run.
  destruct (disk w input) as [xl|] eqn:Hd.
  - rewrite (aggregate_data_copy_run input output sheet w xl Hd).
    destruct (find_sheet sheet xl) as [data|].
    + destruct (groupby_agg "Tax Map Parcel ID" (strip_columns data));
        [destruct (read_only output)|];
        unfold logged, saved; cbn [fst snd log arc disk]; rewrite !tables_written_app;
        repeat split; reflexivity.
    + unfold logged; cbn [fst snd log arc disk]; rewrite !tables_written_app;
        repeat split; reflexivity.
  - rewrite (aggregate_data_copy_unreadable input output sheet w Hd).
    unfold logged; cbn [fst snd log arc disk]; rewrite !tables_written_app;
      repeat split; reflexivity.
Qed.

End StandAloneBatch.

Lemma stand_alone_batch_never_raises_witness :
  main_copy (host := sealed_host) ["in.xlsx"]
    (plain_world [("in.xlsx", [("Mapping", spec_example)])])
  = (Raise (FileError "output_folder"),
     plain_world [("in.xlsx", [("Mapping", spec_example)])]) /\
  fst (main_copy (host := plain_host) ["in.xlsx"; "gone.xlsx"]
         (plain_world [("in.xlsx", [("Mapping", spec_example)])])) = Ok tt /\
  In (Print ("Error processing " +++ "gone.xlsx" +++ ": "
             +++ exn_text (Host := plain_host) (FileError "gone.xlsx")))
     (log (snd (main_copy (host := plain_host) ["in.xlsx"; "gone.xlsx"]
                  (plain_world [("in.xlsx", [("Mapping", spec_example)])])))).
Proof.
  split.
  - exact (proj1 (stand_alone_batch_never_raises (host := sealed_host) ["in.xlsx"]
                    (plain_world [("in.xlsx", [("Mapping", spec_example)])])) eq_refl).
  - destruct (proj2 (stand_alone_batch_never_raises (host := plain_host)
                       ["in.xlsx"; "gone.xlsx"]
                       (plain_world [("in.xlsx", [("Mapping", spec_example)])])) eq_refl)
      as (Hok & _ & Herr & _).
    split; [exact Hok|].
    apply (Herr "gone.xlsx").
    + right. left. reflexivity.
    + reflexivity.
    + intros h [<-|[<-|[]]]; discriminate.
Defined.

Lemma aggregate_data_raise_inv {G : Type} {host : Host G}
      (input output : string) (w : world G) (e : exn) :
  fst (aggregate_data input output w) = Raise e ->
  exists events, aggregate_data input output w = (Raise e, logged w events).
Proof.
  intro H.
  destruct (disk w input) as [xl|] eqn:Hd.
  2:{ rewrite (aggregate_data_unreadable input output w Hd) in *.
      cbn [fst] in H. injection H as <-. eauto. }
  destruct (choose_sheet (sheet_names xl)) as [s|] eqn:Hs.
  2:{ rewrite (aggregate_data_no_sheet input output w xl Hd Hs) in H. discriminate. }
  destruct (choose_sheet_found xl s Hs) as [data Hf].
  destruct (choose_group_column (strip_columns data)) as [g|] eqn:Hc.
  2:{ rewrite (aggregate_data_no_column input output w xl s data Hd Hs Hf Hc) in H.
      discriminate. }
  rewrite (aggregate_data_run input output w xl s g data Hd Hs Hf Hc) in *.
  cbv zeta in *.
  destruct (groupby_agg g (gross_default (acres_default (strip_columns data))));
    [destruct (read_only output)|]; cbn [fst] in H; try discriminate;
    injection H as <-; eauto.
Qed.

Section ExceptionSkipsJoin.

Context {G : Type} {host : Host G}.

(** When [aggregate_data] raises for a file, the batch loop of the ArcGIS
    script reports the exception with the name of the file and calls no
    geoprocessing tool for that file: the join is skipped. *)
Theorem exception_skips_join (p : parameters) (f : string) (w : world G) (e : exn) :
  fst (aggregate_data f (output_file_of p f) w) = Raise e ->
  exists events,
    process p f w = (Ok tt, logged w events) /\
    Forall (aggregate_event (output_file_of p f)) events /\
    In (AddError ("Error processing " +++ f +++ ": " +++ exn_text e)) events.
Proof.
  intro H. unfold process, try_except, bind. fold (output_file_of p f).
  destruct (adds_aggregate_data f (output_file_of p f) w) as [ev [Hl Hp]].
  destruct (aggregate_data_raise_inv f (output_file_of p f) w e H) as [ev' Hrun].
  rewrite Hrun in *. cbn [fst snd] in *.
  unfold logged in Hl. cbn [log] in Hl. apply app_inv_head in Hl. subst ev'.
  exists (ev ++ [AddError ("Error processing " +++ f +++ ": " +++ exn_text e)]).
  split; [|split].
  - unfold emit, logged. cbn [disk arc log]. now rewrite <- app_assoc.
  - apply Forall_app. split; [assumption|]. constructor; [exact I | constructor].
  - apply in_or_app. right. now left.
Qed.

End ExceptionSkipsJoin.

Lemma exception_skips_join_witness :
  exists events,
    process (host := dbase_host) batch_parameters "n.xlsx" numeric_name_world
    = (Ok tt, logged numeric_name_world events) /\
    Forall (aggregate_event (output_file_of (host := dbase_host) batch_parameters "n.xlsx"))
           events /\
    In (AddError ("Error processing " +++ "n.xlsx" +++ ": "
                  +++ exn_text (Host := dbase_host) (TypeError 1))) events.
Proof.
  apply (exception_skips_join (host := dbase_host) batch_parameters "n.xlsx"
           numeric_name_world (TypeError 1)).
  reflexivity.
Defined.
